(** * bermudafunk: the SymNet protocol client and the dispatcher

    A shallow embedding of [bermudafunk/SymNet.py] and
    [bermudafunk/dispatcher/__init__.py], [dispatcher/transitions.py],
    followed by the properties of the specification that were checked
    against it.

    Conventions.  Python [int] is [Z]; [str] is [string]; [None]-able
    references are [option]; a [list] is a [list]; the dictionary of a
    SymNet device is a [gmap].  Code that raises returns a [result].  The
    asyncio loop is a record holding the tasks that were created on it (in
    creation order, a task is named by its index) and the futures; an
    [async def] is cut at its [await]s into the pieces that run without
    suspension.  [logger.debug] output is not recorded, every other log
    call is. *)

From Stdlib Require Import ZArith QArith Qround Qpower Lia Lqa Ascii String Floats.
From stdpp Require Import base strings list gmap numbers pretty.

Open Scope Z_scope.

(** ** Exceptions, results, log records *)

Inductive exn : Type :=
| Exception (message : string)
| AssertionError
| TypeError
| ValueError
| KeyError
| AttributeError
| ZeroDivisionError
| OverflowError
| NotImplementedError
| InvalidStateError
| MachineError
| IOError (errno : Z)
| JSONDecodeError.

Inductive result (A : Type) : Type :=
| Ok (a : A)
| Raise (e : exn).
Arguments Ok {A} a.
Arguments Raise {A} e.

Inductive level : Type := INFO | WARNING | ERROR | CRITICAL.

(** A log call: level, format string, and the arguments shown as text. *)
Record log_record : Type := LogRecord {
  levelname : level;
  msg : string;
  args : list string
}.

#[global] Instance exn_eq_dec : EqDecision exn.
Proof. solve_decision. Defined.
#[global] Instance level_eq_dec : EqDecision level.
Proof. solve_decision. Defined.
#[global] Instance log_record_eq_dec : EqDecision log_record.
Proof. solve_decision. Defined.

(** ** Strings *)

Definition CR : ascii := "013"%char.
Definition LF : ascii := "010"%char.

(** [needle in hay] on [str]. *)
Fixpoint str_in (needle hay : string) : bool :=
  String.prefix needle hay ||
  match hay with
  | EmptyString => false
  | String _ hay' => str_in needle hay'
  end.

(** [s.split(sep)] for a one-character separator: every occurrence cuts,
    empty pieces are kept. *)
Fixpoint str_split (sep : ascii) (s : string) : list string :=
  match s with
  | EmptyString => [EmptyString]
  | String c s' =>
      if Ascii.eqb c sep then EmptyString :: str_split sep s'
      else match str_split sep s' with
           | [] => [String c EmptyString]
           | piece :: pieces => String c piece :: pieces
           end
  end.

Definition is_digit (c : ascii) : bool :=
  (48 <=? Z.of_nat (nat_of_ascii c)) && (Z.of_nat (nat_of_ascii c) <=? 57).

Fixpoint digits_value (acc : Z) (s : string) : option Z :=
  match s with
  | EmptyString => Some acc
  | String c s' =>
      if is_digit c
      then digits_value (10 * acc + (Z.of_nat (nat_of_ascii c) - 48)) s'
      else None
  end.

(** [int(s)] on the texts the patterns of this program capture: an optional
    sign and ASCII digits; anything else is a [ValueError].  (Surrounding
    blanks and underscores, which [int] also accepts, are refused here.) *)
Definition py_int (s : string) : result Z :=
  match s with
  | EmptyString => Raise ValueError
  | String c s' =>
      if Ascii.eqb c "-"%char then
        match s' with
        | EmptyString => Raise ValueError
        | _ => match digits_value 0 s' with
               | Some v => Ok (- v)
               | None => Raise ValueError
               end
        end
      else
        match digits_value 0 s with
        | Some v => Ok v
        | None => Raise ValueError
        end
  end.

(** ** Regular expressions: the fragment of [re] the program uses *)

Module Re.

Inductive pattern : Type :=
| Lit (c : ascii)                  (* the character itself *)
| Range (lo hi : ascii)            (* [lo-hi] *)
| Seq (r1 r2 : pattern)            (* r1r2 *)
| Alt (r1 r2 : pattern)            (* r1|r2, the left one first *)
| Rep (lo hi : nat) (r : pattern)  (* r{lo,hi}, greedy *)
| Group (n : nat) (r : pattern)    (* (r), the n-th group *)
| Bol                              (* ^ *)
| Eol                              (* $ *)
| Eps.                             (* the empty pattern *)

(** The text of a string as a sequence of literals. *)
Fixpoint Str (s : string) : pattern :=
  match s with
  | EmptyString => Eps
  | String c EmptyString => Lit c
  | String c s' => Seq (Lit c) (Str s')
  end.

(** A match object: the groups that took part, the latest capture first. *)
Definition Match : Type := list (nat * string).

Definition group (m : Match) (n : nat) : option string :=
  snd <$> List.find (fun p => Nat.eqb (fst p) n) m.

Definition in_range (lo hi c : ascii) : bool :=
  (nat_of_ascii lo <=? nat_of_ascii c)%nat && (nat_of_ascii c <=? nat_of_ascii hi)%nat.

Fixpoint take_str (n : nat) (s : string) : string :=
  match n, s with
  | S n', String c s' => String c (take_str n' s')
  | _, _ => EmptyString
  end.

(** Backtracking matcher in continuation style.  [start] tells whether no
    character has been consumed yet, [s] is the rest of the subject, [k] is
    what has to match after [r]. *)
Fixpoint run (r : pattern) (start : bool) (s : string) (m : Match)
    (k : bool -> string -> Match -> option Match) {struct r} : option Match :=
  match r with
  | Lit c =>
      match s with
      | String c' s' => if Ascii.eqb c c' then k false s' m else None
      | EmptyString => None
      end
  | Range lo hi =>
      match s with
      | String c' s' => if in_range lo hi c' then k false s' m else None
      | EmptyString => None
      end
  | Seq r1 r2 => run r1 start s m (fun start' s' m' => run r2 start' s' m' k)
  | Alt r1 r2 =>
      match run r1 start s m k with
      | Some m' => Some m'
      | None => run r2 start s m k
      end
  | Rep lo hi r' =>
      (fix rep (lo hi : nat) (start : bool) (s : string) (m : Match) {struct hi}
         : option Match :=
         match hi with
         | O => if Nat.eqb lo 0 then k start s m else None
         | S hi' =>
             match run r' start s m
                     (fun start' s' m' => rep (Nat.pred lo) hi' start' s' m') with
             | Some m' => Some m'
             | None => if Nat.eqb lo 0 then k start s m else None
             end
         end) lo hi start s m
  | Group n r' =>
      run r' start s m
        (fun start' s' m' =>
           k start' s' ((n, take_str (String.length s - String.length s') s) :: m'))
  | Bol => if start then k start s m else None
  | Eol =>
      (* end of the subject, or just before a newline that ends it *)
      match s with
      | EmptyString => k start s m
      | String c EmptyString => if Ascii.eqb c LF then k start s m else None
      | _ => None
      end
  | Eps => k start s m
  end.

(** [re.match(r, s)]: a match anchored at the first character; the pattern
    need not reach the end of [s]. *)
Definition re_match (r : pattern) (s : string) : option Match :=
  run r true s [] (fun _ _ m => Some m).

End Re.

(** ** Double-precision arithmetic

    [set_position] and [get_position] compute with Python floats.  The
    operations they use are an interface of the embedding, so that the same
    text runs on IEEE binary64 (the primitive floats of the kernel, below)
    and on exact rationals.  A float is read through [to_Q]; integers of the
    program stay below 2^53 in magnitude. *)

Class FloatArith : Type := {
  float64 : Type;
  to_Q : float64 -> Q;            (* the number a finite float stands for *)
  of_int : Z -> float64;          (* int -> float *)
  fdiv : float64 -> float64 -> float64;
  fmul : float64 -> float64 -> float64;
  fadd : float64 -> float64 -> float64
}.

(** [round(x)] on a rational: to the nearest integer, halves to the even
    neighbour. *)
Definition round_half_even (q : Q) : Z :=
  let n := Qnum q in
  let d := Z.pos (Qden q) in
  let f := n / d in
  let r := n mod d in
  match 2 * r ?= d with
  | Lt => f
  | Gt => f + 1
  | Eq => if Z.even f then f else f + 1
  end.

(** [round(x)] for a float [x] (one argument: the result is an [int]). *)
Definition py_round `{FloatArith} (x : float64) : Z := round_half_even (to_Q x).

(** Exact rationals as a degenerate float format: nothing is rounded. *)
Definition exact_arith : FloatArith := {|
  float64 := Q;
  to_Q := fun q => q;
  of_int := inject_Z;
  fdiv := Qdiv;
  fmul := Qmult;
  fadd := Qplus
|}.

(** The value of a finite binary64 number; zero stands in for infinities
    and NaN, which the program's ranges do not reach. *)
Definition SF2Q (x : spec_float) : Q :=
  match x with
  | S754_finite s m e =>
      (if s then - inject_Z (Z.pos m) else inject_Z (Z.pos m)) * Qpower 2 e
  | _ => 0%Q
  end.

(** IEEE binary64, as CPython's [float]: [int] to [float] rounds to nearest
    even, the operations are the hardware's. *)
Definition binary64 : FloatArith := {|
  float64 := PrimFloat.float;
  to_Q := fun x => SF2Q (Prim2SF x);
  of_int := fun z => SF2Prim (binary_normalize 53 1024 z 0 false);
  fdiv := PrimFloat.div;
  fmul := PrimFloat.mul;
  fadd := PrimFloat.add
|}.

(** The floats that are numbers: zeros and finite values, neither an
    infinity nor a NaN (which [SF2Q] reads as 0). *)
Definition SF_finite (x : spec_float) : bool :=
  match x with
  | S754_zero _ | S754_finite _ _ _ => true
  | _ => false
  end.

(** Where a real [x] lies between a truncated mantissa and its successor,
    as the round and sticky bits of [shr_record] record it: on the
    mantissa, below the middle, on the middle, or above it. *)
Definition located (mrs : shr_record) (x : Q) : Prop :=
  match shr_r mrs, shr_s mrs with
  | false, false => (x == inject_Z (shr_m mrs))%Q
  | false, true => (inject_Z (shr_m mrs) < x /\ x < inject_Z (shr_m mrs) + (1 # 2))%Q
  | true, false => (x == inject_Z (shr_m mrs) + (1 # 2))%Q
  | true, true => (inject_Z (shr_m mrs) + (1 # 2) < x /\ x < inject_Z (shr_m mrs) + 1)%Q
  end.

(** *** What the round trip needs of the arithmetic

    The standard model of rounded arithmetic, with the unit roundoff 2^-53
    of binary64: an operation on finite operands whose exact result [e] is
    zero or of ordinary size returns a finite float within [e * 2^-53] of
    [e], and small integers convert exactly.  Only non-negative operands
    and results between 2^-20 and 2^20 are asked for.  Binary64 meets this
    ([binary64_accurate] below), and so do the exact rationals. *)
Definition unit_roundoff : Q := 1 # 9007199254740992.

Definition near (q e : Q) : Prop :=
  ((1 - unit_roundoff) * e <= q /\ q <= (1 + unit_roundoff) * e)%Q.

Definition normal (e : Q) : Prop :=
  (e == 0 \/ ((1 # 1048576) <= e /\ e <= 1048576))%Q.

Class Accurate (FA : FloatArith) : Type := {
  finite : float64 -> Prop;
  of_int_exact : forall z : Z, 0 <= z <= 65535 ->
    finite (of_int z) /\ (to_Q (of_int z) == inject_Z z)%Q;
  fdiv_near : forall a b : float64,
    finite a -> finite b ->
    (0 <= to_Q a)%Q -> (0 < to_Q b)%Q -> normal (to_Q a / to_Q b) ->
    finite (fdiv a b) /\ near (to_Q (fdiv a b)) (to_Q a / to_Q b);
  fmul_near : forall a b : float64,
    finite a -> finite b ->
    (0 <= to_Q a)%Q -> (0 <= to_Q b)%Q -> normal (to_Q a * to_Q b) ->
    finite (fmul a b) /\ near (to_Q (fmul a b)) (to_Q a * to_Q b);
  fadd_near : forall a b : float64,
    finite a -> finite b ->
    (0 <= to_Q a)%Q -> (0 <= to_Q b)%Q -> normal (to_Q a + to_Q b) ->
    finite (fadd a b) /\ near (to_Q (fadd a b)) (to_Q a + to_Q b)
}.

(** ** The event loop: tasks, futures, and the objects they share *)

(** Callables registered as controller observers.  They are only ever
    scheduled, never run by the code below. *)
Inductive callable : Type :=
| Dispatcher_set_current_state          (* the bound method of the dispatcher *)
| foreign_callable (id : nat).

#[global] Instance callable_eq_dec : EqDecision callable.
Proof. solve_decision. Defined.

(** [SymNetRawControllerState(controller_number, controller_value)]. *)
Inductive SymNetRawControllerState : Type :=
| ControllerState (controller_number controller_value : Z).

(** The coroutines the program hands to [create_task] / [ensure_future]. *)
Inductive coroutine : Type :=
| Queue_put (item : SymNetRawControllerState)
| observer_call (clb : callable) (controller : Z) (old_value new_value : Z)
| Dispatcher_set_current_state_coro
| Dispatcher_hour_timer
| Dispatcher_immediate_state_timer
| Dispatcher_immediate_release_timer.

Inductive task_state : Type := Scheduled | CancelRequested | Finished.

Record task : Type := Task { coro : coroutine; state : task_state }.

(** [Task.done()]. *)
Definition done (t : task) : bool :=
  match state t with Finished => true | _ => false end.

Inductive future_state : Type :=
| PENDING
| FINISHED (outcome : result unit).

(** The two methods the program passes as protocol callbacks, bound to the
    controller with the given number. *)
Inductive callback_fn : Type :=
| assure_callback_of (controller : Z)
| retrieve_callback_of (controller : Z).

Record SymNetRawProtocolCallback : Type := Callback {
  _callback : callback_fn;
  expected_lines : Z;
  regex : option Re.pattern;
  future : nat
}.

Inductive controller_class : Type :=
| SymNetController_class
| SymNetSelectorController_class (position_count : Z)
| SymNetSelectorControllerDummy_class (position_count : Z)
| SymNetButtonController_class.

Record SymNetController : Type := Controller {
  class_of : controller_class;
  controller_number : Z;
  raw_value : Z;
  raw_value_time : Q;
  observer : list callable
}.

(** Everything the loop thread can reach.  A controller object is named by
    its controller number: [controllers] is both the heap of controller
    objects and [SymNetDevice.controllers]. *)
Record world : Type := World {
  loop_time : Q;                                   (* base.loop.time() *)
  tasks : list task;
  futures : list future_state;
  log : list log_record;
  callback_queue : list SymNetRawProtocolCallback; (* of the protocol *)
  state_queue : list SymNetRawControllerState;     (* asyncio.Queue, unbounded *)
  sent : list string;                              (* transport.sendto *)
  controllers : gmap Z SymNetController
}.

Definition set_tasks (f : list task -> list task) (w : world) : world :=
  World (loop_time w) (f (tasks w)) (futures w) (log w) (callback_queue w)
        (state_queue w) (sent w) (controllers w).
Definition set_futures (f : list future_state -> list future_state) (w : world) : world :=
  World (loop_time w) (tasks w) (f (futures w)) (log w) (callback_queue w)
        (state_queue w) (sent w) (controllers w).
Definition set_log (f : list log_record -> list log_record) (w : world) : world :=
  World (loop_time w) (tasks w) (futures w) (f (log w)) (callback_queue w)
        (state_queue w) (sent w) (controllers w).
Definition set_callback_queue
    (f : list SymNetRawProtocolCallback -> list SymNetRawProtocolCallback)
    (w : world) : world :=
  World (loop_time w) (tasks w) (futures w) (log w) (f (callback_queue w))
        (state_queue w) (sent w) (controllers w).
Definition set_state_queue
    (f : list SymNetRawControllerState -> list SymNetRawControllerState)
    (w : world) : world :=
  World (loop_time w) (tasks w) (futures w) (log w) (callback_queue w)
        (f (state_queue w)) (sent w) (controllers w).
Definition set_sent (f : list string -> list string) (w : world) : world :=
  World (loop_time w) (tasks w) (futures w) (log w) (callback_queue w)
        (state_queue w) (f (sent w)) (controllers w).
Definition set_controllers
    (f : gmap Z SymNetController -> gmap Z SymNetController) (w : world) : world :=
  World (loop_time w) (tasks w) (futures w) (log w) (callback_queue w)
        (state_queue w) (sent w) (f (controllers w)).

(** *** State and exceptions

    A computation changes the state it runs on and returns or raises; what
    it did before raising stays done. *)
Definition St (S A : Type) : Type := S -> result A * S.

Definition ret {S A} (a : A) : St S A := fun s => (Ok a, s).
Definition raise {S A} (e : exn) : St S A := fun s => (Raise e, s).
Definition bind {S A B} (c : St S A) (k : A -> St S B) : St S B :=
  fun s => match c s with
           | (Ok a, s') => k a s'
           | (Raise e, s') => (Raise e, s')
           end.
Definition lift {S A} (r : result A) : St S A := fun s => (r, s).
Definition read {S A} (f : S -> A) : St S A := fun s => (Ok (f s), s).
Definition modify {S} (f : S -> S) : St S unit := fun s => (Ok tt, f s).
(** [try: c  except Exception as e: h e]. *)
Definition try_except {S A} (c : St S A) (h : exn -> St S A) : St S A :=
  fun s => match c s with
           | (Ok a, s') => (Ok a, s')
           | (Raise e, s') => h e s'
           end.

(** The computations of SymNet.py run on the world. *)
Definition M (A : Type) : Type := St world A.

Notation "x <- c ;; k" := (bind c (fun x => k))
  (at level 100, c at next level, right associativity).
Notation "c ;;; k" := (bind c (fun _ => k))
  (at level 100, k at level 200, right associativity).

(** What a caller sees of an [async def] run up to its first suspension. *)
Inductive progress (A : Type) : Type :=
| Returned (a : A)
| Awaiting (fut : nat).     (* suspended on this future *)
Arguments Returned {A} a.
Arguments Awaiting {A} fut.

Definition logger (l : level) (format : string) (arguments : list string) : M unit :=
  modify (set_log (fun records => records ++ [LogRecord l format arguments])).

(** [base.loop.create_future()]. *)
Definition create_future : M nat :=
  fun w => (Ok (length (futures w)), set_futures (fun fs => fs ++ [PENDING]) w).

(** [base.loop.create_task(c)], also [asyncio.ensure_future(c)]. *)
Definition create_task (c : coroutine) : M nat :=
  fun w => (Ok (length (tasks w)), set_tasks (fun ts => ts ++ [Task c Scheduled]) w).

(** [Future.set_result] / [Future.set_exception]: only a pending future
    takes an outcome. *)
Definition set_outcome (fut : nat) (o : result unit) : M unit :=
  fun w => match futures w !! fut with
           | Some PENDING => (Ok tt, set_futures (fun fs => <[fut := FINISHED o]> fs) w)
           | _ => (Raise InvalidStateError, w)
           end.
Definition set_result (fut : nat) : M unit := set_outcome fut (Ok tt).
Definition set_exception (fut : nat) (e : exn) : M unit := set_outcome fut (Raise e).

(** [await fut], looked at from the loop: [None] while the future is
    pending; afterwards its result, or its exception raised in the awaiter. *)
Definition await (fut : nat) : M (option unit) :=
  fun w => match futures w !! fut with
           | Some (FINISHED (Ok tt)) => (Ok (Some tt), w)
           | Some (FINISHED (Raise e)) => (Raise e, w)
           | _ => (Ok None, w)
           end.

(** The loop running the [Queue.put] tasks that are ready, oldest first: the
    queue is unbounded, so each put completes at once. *)
Definition ready_put (t : task) : option SymNetRawControllerState :=
  match t with
  | Task (Queue_put item) Scheduled => Some item
  | _ => None
  end.
Definition finish_put (t : task) : task :=
  match ready_put t with
  | Some _ => Task (coro t) Finished
  | None => t
  end.
Definition run_put_tasks (w : world) : world :=
  set_tasks (fmap finish_put)
    (set_state_queue (fun q => q ++ omap ready_put (tasks w)) w).

(** ** SymNet.py: the protocol client *)

Import Re.

Definition cr : string := String CR EmptyString.

(** ['^(ACK)|(NAK)\r$']: the bar binds weakest, so the alternatives are
    [^(ACK)] and [(NAK)\r$]. *)
Definition assure_regex : pattern :=
  Alt (Seq Bol (Group 1 (Str "ACK")))
      (Seq (Group 2 (Str "NAK")) (Seq (Lit CR) Eol)).

(** ['^' + str(controller_number) + ' ([0-9]{1,5})\r$']. *)
Definition retrieve_regex (controller_number : Z) : pattern :=
  Seq Bol (Seq (Str (pretty controller_number))
    (Seq (Lit " ") (Seq (Group 1 (Rep 1 5 (Range "0" "9"))) (Seq (Lit CR) Eol)))).

(** ['^#([0-9]{5})=(-?[0-9]{4,5})$']. *)
Definition push_regex : pattern :=
  Seq Bol (Seq (Lit "#") (Seq (Group 1 (Rep 5 5 (Range "0" "9")))
    (Seq (Lit "=")
      (Seq (Group 2 (Seq (Rep 0 1 (Lit "-")) (Rep 4 5 (Range "0" "9")))) Eol)))).

(** [int(m.group(n))]. *)
Definition int_group (m : Match) (n : nat) : result Z :=
  match group m n with
  | Some text => py_int text
  | None => Raise TypeError
  end.

Definition get_controller (cn : Z) : M SymNetController :=
  fun w => match controllers w !! cn with
           | Some c => (Ok c, w)
           | None => (Raise AttributeError, w)   (* no such object *)
           end.

Fixpoint create_tasks (cs : list coroutine) : M unit :=
  match cs with
  | [] => ret tt
  | c :: cs' => (_ <- create_task c ;; create_tasks cs')
  end.

(** [SymNetController._set_raw_value] (the dummy selector has the same
    text). *)
Definition _set_raw_value (cn : Z) (value : Z) : M unit :=
  c <- get_controller cn ;;
  let old_value := raw_value c in
  now <- read loop_time ;;
  modify (set_controllers
            <[cn := Controller (class_of c) (controller_number c) value now (observer c)]>) ;;;
  if bool_decide (old_value <> value) then
    create_tasks ((fun clb => observer_call clb cn old_value value) <$> observer c)
  else ret tt.

(** [SymNetController.add_observer] and [remove_observer]: the observers
    are a list, kept in the order of registration. *)
Definition add_observer (cn : Z) (clb : callable) : M unit :=
  c <- get_controller cn ;;
  modify (set_controllers
            <[cn := Controller (class_of c) (controller_number c) (raw_value c)
                      (raw_value_time c) (observer c ++ [clb])]>).

Fixpoint remove_first (clb : callable) (l : list callable) : option (list callable) :=
  match l with
  | [] => None
  | clb' :: l' =>
      if bool_decide (clb' = clb) then Some l' else cons clb' <$> remove_first clb l'
  end.

Definition remove_observer (cn : Z) (clb : callable) : M unit :=
  c <- get_controller cn ;;
  match remove_first clb (observer c) with
  | Some rest =>
      modify (set_controllers
                <[cn := Controller (class_of c) (controller_number c) (raw_value c)
                          (raw_value_time c) rest]>)
  | None => raise ValueError
  end.

(** [SymNetController._assure_callback]. *)
Definition _assure_callback (cn : Z) (data : string) (m : option Match) : M unit :=
  let failure := Exception
    ("Unknown error occurred awaiting the acknowledge of setting controller number "
       +:+ pretty cn) in
  match m with
  | None => raise failure
  | Some m => if bool_decide (group m 1 = Some "NAK") then raise failure else ret tt
  end.

(** [SymNetController._retrieve_callback]. *)
Definition _retrieve_callback (cn : Z) (data : string) (m : option Match) : M unit :=
  match m with
  | None => raise (Exception ("Error executing GS2 command, controller " +:+ pretty cn))
  | Some m => value <- lift (int_group m 1) ;; _set_raw_value cn value
  end.

Definition call (f : callback_fn) (data : string) (m : option Match) : M unit :=
  match f with
  | assure_callback_of cn => _assure_callback cn data m
  | retrieve_callback_of cn => _retrieve_callback cn data m
  end.

(** [SymNetRawProtocolCallback.callback]: the outcome of the user function
    goes into the future. *)
Definition callback (callback_obj : SymNetRawProtocolCallback)
    (data : string) (m : option Match) : M unit :=
  try_except
    (call (_callback callback_obj) data m ;;; set_result (future callback_obj))
    (fun e => set_exception (future callback_obj) e).

(** [self.callback_queue.remove(callback_obj)]: the first entry that is this
    object goes; a callback object is known by the future it created. *)
Fixpoint list_remove (fut : nat) (queue : list SymNetRawProtocolCallback)
    : option (list SymNetRawProtocolCallback) :=
  match queue with
  | [] => None
  | c :: queue' =>
      if Nat.eqb (future c) fut then Some queue'
      else cons c <$> list_remove fut queue'
  end.

Definition remove (callback_obj : SymNetRawProtocolCallback) : M unit :=
  fun w => match list_remove (future callback_obj) (callback_queue w) with
           | Some queue' => (Ok tt, set_callback_queue (fun _ => queue') w)
           | None => (Raise ValueError, w)
           end.

Definition lone (word : string) (lines : list string) : bool :=
  bool_decide (lines = [word]).

(** The [for callback_obj in self.callback_queue] loop of
    [datagram_received]; [true] when a callback took the datagram and the
    method returned. *)
Fixpoint iterate_callbacks (data_str : string) (lines : list string)
    (queue : list SymNetRawProtocolCallback) : M bool :=
  match queue with
  | [] => ret false
  | callback_obj :: queue' =>
      if lone "NAK" lines then
        callback callback_obj data_str None ;;; remove callback_obj ;;; ret true
      else
        match regex callback_obj with
        | Some r =>
            match re_match r data_str with
            | Some m =>
                callback callback_obj data_str (Some m) ;;;
                remove callback_obj ;;; ret true
            | None => iterate_callbacks data_str lines queue'
            end
        | None =>
            if bool_decide (Z.of_nat (length lines) = expected_lines callback_obj) then
              callback callback_obj data_str None ;;; remove callback_obj ;;; ret true
            else iterate_callbacks data_str lines queue'
        end
  end.

(** The [for line in lines] loop of [datagram_received]. *)
Fixpoint push_lines (lines : list string) : M unit :=
  match lines with
  | [] => ret tt
  | line :: lines' =>
      match re_match push_regex line with
      | None =>
          logger ERROR "error in in the received line <%s>" [line] ;;;
          push_lines lines'
      | Some m =>
          number <- lift (int_group m 1) ;;
          value <- lift (int_group m 2) ;;
          _ <- create_task (Queue_put (ControllerState number value)) ;;
          push_lines lines'
      end
  end.

Definition nonempty (s : string) : bool :=
  negb (Nat.eqb (String.length s) 0).

Definition nonempty_lines (data_str : string) : list string :=
  List.filter nonempty (str_split CR data_str).

(** [SymNetRawProtocol.datagram_received], from [data_str = data.decode()]
    on. *)
Definition datagram_received (data_str : string) : M unit :=
  let lines := nonempty_lines data_str in
  queue <- read callback_queue ;;
  taken <- (if bool_decide (0 < length queue)%nat
            then iterate_callbacks data_str lines queue
            else ret false) ;;
  if taken : bool then ret tt
  else if lone "NAK" lines then
    logger ERROR "Uncaught NAK - this is probably a huge error" []
  else if lone "ACK" lines then ret tt
  else push_lines lines.

(** [SymNetRawProtocol.write]. *)
Definition write (data : string) : M unit :=
  modify (set_sent (fun out => out ++ [data])).

(** [SymNetController._assure_current_state]; the dummy selector overrides
    it. *)
Definition _assure_current_state (cn : Z) : M SymNetRawProtocolCallback :=
  c <- get_controller cn ;;
  match class_of c with
  | SymNetSelectorControllerDummy_class _ => raise NotImplementedError
  | _ =>
      fut <- create_future ;;
      let callback_obj := Callback (assure_callback_of cn) 1 (Some assure_regex) fut in
      modify (set_callback_queue (fun q => q ++ [callback_obj])) ;;;
      write ("CS " +:+ pretty (controller_number c) +:+ " " +:+ pretty (raw_value c) +:+ cr) ;;;
      ret callback_obj
  end.

(** [SymNetController._retrieve_current_state]; the dummy selector has the
    same text but no [proto] to queue the request on. *)
Definition _retrieve_current_state (cn : Z) : M SymNetRawProtocolCallback :=
  c <- get_controller cn ;;
  fut <- create_future ;;
  let callback_obj :=
    Callback (retrieve_callback_of cn) 1 (Some (retrieve_regex (controller_number c))) fut in
  match class_of c with
  | SymNetSelectorControllerDummy_class _ => raise AttributeError
  | _ =>
      modify (set_callback_queue (fun q => q ++ [callback_obj])) ;;;
      write ("GS2 " +:+ pretty (controller_number c) +:+ cr) ;;;
      ret callback_obj
  end.

Definition value_timeout : Q := 10.

(** [SymNetController._get_raw_value] up to its [await]: the cached value
    when it is fresh (always, for the dummy), else the future of the GS2
    request. *)
Definition _get_raw_value (cn : Z) : M (progress Z) :=
  c <- get_controller cn ;;
  now <- read loop_time ;;
  match class_of c with
  | SymNetSelectorControllerDummy_class _ => ret (Returned (raw_value c))
  | _ =>
      if negb (Qle_bool (now - raw_value_time c) value_timeout) then
        callback_obj <- _retrieve_current_state cn ;;
        ret (Awaiting (future callback_obj))
      else ret (Returned (raw_value c))
  end.

(** [_get_raw_value] after its [await] has returned. *)
Definition _get_raw_value_resumed (cn : Z) : M Z :=
  c <- get_controller cn ;; ret (raw_value c).

(** [self.position_count]. *)
Definition position_count (c : SymNetController) : result Z :=
  match class_of c with
  | SymNetSelectorController_class n | SymNetSelectorControllerDummy_class n => Ok n
  | _ => Raise AttributeError
  end.

Section Selector.
Context `{FloatArith}.

(** [int(round(raw / 65535 * (position_count - 1) + 1))]. *)
Definition position_of_raw (raw count : Z) : Z :=
  py_round (fadd (fmul (fdiv (of_int raw) (of_int 65535)) (of_int (count - 1)))
                 (of_int 1)).

(** [int(round((position - 1) / (position_count - 1) * 65535))]. *)
Definition raw_of_position (position count : Z) : result Z :=
  if count - 1 =? 0 then Raise ZeroDivisionError
  else Ok (py_round (fmul (fdiv (of_int (position - 1)) (of_int (count - 1)))
                          (of_int 65535))).

(** [SymNetSelectorController.get_position] up to the [await] inside
    [_get_raw_value]. *)
Definition get_position (cn : Z) : M (progress Z) :=
  c <- get_controller cn ;;
  count <- lift (position_count c) ;;
  got <- _get_raw_value cn ;;
  match got with
  | Returned raw => ret (Returned (position_of_raw raw count))
  | Awaiting fut => ret (Awaiting fut)
  end.

(** [get_position] from the point where the awaited GS2 future is done. *)
Definition get_position_resumed (cn : Z) (fut : nat) : M (option Z) :=
  c <- get_controller cn ;;
  count <- lift (position_count c) ;;
  answered <- await fut ;;
  match answered with
  | None => ret None
  | Some _ => raw <- _get_raw_value_resumed cn ;; ret (Some (position_of_raw raw count))
  end.

(** [SymNetSelectorController.set_position] up to its [await]; the dummy's
    [set_position] ends before it. *)
Definition set_position (cn : Z) (position : Z) : M (progress unit) :=
  c <- get_controller cn ;;
  count <- lift (position_count c) ;;
  if negb ((1 <=? position) && (position <=? count)) then raise AssertionError
  else
    raw <- lift (raw_of_position position count) ;;
    _set_raw_value cn raw ;;;
    match class_of c with
    | SymNetSelectorControllerDummy_class _ => ret (Returned tt)
    | _ =>
        callback_obj <- _assure_current_state cn ;;
        ret (Awaiting (future callback_obj))
    end.


End Selector.

(** One turn of [SymNetDevice._process_push_messages]; [None] when the
    queue is empty and the loop stays suspended in [get]. *)
Definition _process_push_messages : M (option unit) :=
  q <- read state_queue ;;
  match q with
  | [] => ret None
  | ControllerState number value :: q' =>
      modify (set_state_queue (fun _ => q')) ;;;
      known <- read (fun w => bool_decide (is_Some (controllers w !! number))) ;;
      (if known : bool then _set_raw_value number value else ret tt) ;;;
      ret (Some tt)
  end.

(** ** dispatcher/transitions.py: the states and their LED recipes *)

(** Modelled from the spec: [LedState], [LedStatus] and [StudioLedStatus] of
    [dispatcher/data_types.py], which this development does not have:
    LedStatus = (state: OFF, ON or BLINK; blink_freq in Hz),
    StudioLedStatus = (green, yellow, red : LedStatus). *)
Inductive LedState : Type := LedState_OFF | LedState_ON | LedState_BLINK.

Record LedStatus : Type := mkLedStatus { led_state : LedState; blink_freq : Z }.

Record StudioLedStatus : Type := mkStudioLedStatus {
  green : LedStatus;
  yellow : LedStatus;
  red : LedStatus
}.

Record LedStateTarget : Type := mkLedStateTarget {
  x : StudioLedStatus;
  y : StudioLedStatus;
  other : StudioLedStatus
}.

Module LedStatuses.
Definition OFF : LedStatus := mkLedStatus LedState_OFF 2.
Definition ON : LedStatus := mkLedStatus LedState_ON 2.
Definition BLINK : LedStatus := mkLedStatus LedState_BLINK 2.
Definition BLINK_FAST : LedStatus := mkLedStatus LedState_BLINK 4.
End LedStatuses.

Inductive States : Type :=
| AUTOMAT_ON_AIR
| AUTOMAT_ON_AIR_IMMEDIATE_STATE_X
| FROM_AUTOMAT_CHANGE_TO_STUDIO_X_ON_NEXT_HOUR
| STUDIO_X_ON_AIR
| FROM_STUDIO_X_CHANGE_TO_AUTOMAT_ON_NEXT_HOUR
| STUDIO_X_ON_AIR_IMMEDIATE_STATE
| STUDIO_X_ON_AIR_IMMEDIATE_RELEASE
| FROM_STUDIO_X_CHANGE_TO_STUDIO_Y_ON_NEXT_HOUR
| STUDIO_X_ON_AIR_STUDIO_Y_TAKEOVER_REQUEST
| NOOP.

(** The members of the enumeration, in the order of the class body. *)
Definition States_members : list States :=
  [AUTOMAT_ON_AIR; AUTOMAT_ON_AIR_IMMEDIATE_STATE_X;
   FROM_AUTOMAT_CHANGE_TO_STUDIO_X_ON_NEXT_HOUR; STUDIO_X_ON_AIR;
   FROM_STUDIO_X_CHANGE_TO_AUTOMAT_ON_NEXT_HOUR; STUDIO_X_ON_AIR_IMMEDIATE_STATE;
   STUDIO_X_ON_AIR_IMMEDIATE_RELEASE; FROM_STUDIO_X_CHANGE_TO_STUDIO_Y_ON_NEXT_HOUR;
   STUDIO_X_ON_AIR_STUDIO_Y_TAKEOVER_REQUEST; NOOP].

(** The name given to the [LedAwareState] of a member. *)
Definition state_name (s : States) : string :=
  match s with
  | AUTOMAT_ON_AIR => "automat_on_air"
  | AUTOMAT_ON_AIR_IMMEDIATE_STATE_X => "automat_on_air_immediate_state_X"
  | FROM_AUTOMAT_CHANGE_TO_STUDIO_X_ON_NEXT_HOUR =>
      "from_automat_change_to_studio_X_on_next_hour"
  | STUDIO_X_ON_AIR => "studio_X_on_air"
  | FROM_STUDIO_X_CHANGE_TO_AUTOMAT_ON_NEXT_HOUR =>
      "from_studio_X_change_to_automat_on_next_hour"
  | STUDIO_X_ON_AIR_IMMEDIATE_STATE => "studio_X_on_air_immediate_state"
  | STUDIO_X_ON_AIR_IMMEDIATE_RELEASE => "studio_X_on_air_immediate_release"
  | FROM_STUDIO_X_CHANGE_TO_STUDIO_Y_ON_NEXT_HOUR =>
      "from_studio_X_change_to_studio_Y_on_next_hour"
  | STUDIO_X_ON_AIR_STUDIO_Y_TAKEOVER_REQUEST =>
      "studio_X_on_air_studio_Y_takeover_request"
  | NOOP => "noop"
  end.

(** [LedAwareState.led_state_target] of a member. *)
Definition led_state_target (s : States) : LedStateTarget :=
  let OFF := LedStatuses.OFF in
  let ON := LedStatuses.ON in
  let BLINK := LedStatuses.BLINK in
  let leds := mkStudioLedStatus in
  match s with
  | AUTOMAT_ON_AIR =>
      mkLedStateTarget (leds OFF OFF OFF) (leds OFF OFF OFF) (leds OFF OFF OFF)
  | AUTOMAT_ON_AIR_IMMEDIATE_STATE_X =>
      mkLedStateTarget (leds OFF OFF ON) (leds OFF OFF OFF) (leds OFF OFF OFF)
  | FROM_AUTOMAT_CHANGE_TO_STUDIO_X_ON_NEXT_HOUR =>
      mkLedStateTarget (leds BLINK OFF OFF) (leds OFF OFF OFF) (leds OFF OFF OFF)
  | STUDIO_X_ON_AIR =>
      mkLedStateTarget (leds ON OFF OFF) (leds OFF OFF OFF) (leds OFF OFF OFF)
  | FROM_STUDIO_X_CHANGE_TO_AUTOMAT_ON_NEXT_HOUR =>
      mkLedStateTarget (leds ON BLINK OFF) (leds OFF OFF OFF) (leds OFF OFF OFF)
  | STUDIO_X_ON_AIR_IMMEDIATE_STATE =>
      mkLedStateTarget (leds ON OFF ON) (leds OFF OFF OFF) (leds OFF OFF OFF)
  | STUDIO_X_ON_AIR_IMMEDIATE_RELEASE =>
      mkLedStateTarget (leds ON BLINK ON) (leds OFF OFF OFF) (leds OFF BLINK BLINK)
  | FROM_STUDIO_X_CHANGE_TO_STUDIO_Y_ON_NEXT_HOUR =>
      mkLedStateTarget (leds ON ON OFF) (leds BLINK OFF OFF) (leds OFF OFF OFF)
  | STUDIO_X_ON_AIR_STUDIO_Y_TAKEOVER_REQUEST =>
      mkLedStateTarget (leds ON BLINK OFF) (leds OFF ON OFF) (leds OFF OFF OFF)
  | NOOP =>
      mkLedStateTarget (leds OFF OFF OFF) (leds OFF OFF OFF) (leds OFF OFF OFF)
  end.

(** *** The recipe table as the specification prints it

    One row per state: the codes of X, Y and other, each green, yellow,
    red.  The codes are OFF, ON, BLINK (2 Hz) and FAST (blink at 4 Hz). *)
Inductive led_code : Type := c_OFF | c_ON | c_BLINK | c_FAST.

Definition spec_led_table : list (string * (list led_code * list led_code * list led_code)) :=
  [ ("automat_on_air",
      ([c_OFF; c_OFF; c_OFF], [c_OFF; c_OFF; c_OFF], [c_OFF; c_OFF; c_OFF]));
    ("automat_on_air_immediate_state_X",
      ([c_OFF; c_OFF; c_ON], [c_OFF; c_OFF; c_OFF], [c_OFF; c_OFF; c_OFF]));
    ("from_automat_change_to_studio_X_on_next_hour",
      ([c_BLINK; c_OFF; c_OFF], [c_OFF; c_OFF; c_OFF], [c_OFF; c_OFF; c_OFF]));
    ("studio_X_on_air",
      ([c_ON; c_OFF; c_OFF], [c_OFF; c_OFF; c_OFF], [c_OFF; c_OFF; c_OFF]));
    ("from_studio_X_change_to_automat_on_next_hour",
      ([c_ON; c_BLINK; c_OFF], [c_OFF; c_OFF; c_OFF], [c_OFF; c_OFF; c_OFF]));
    ("studio_X_on_air_immediate_state",
      ([c_ON; c_OFF; c_ON], [c_OFF; c_OFF; c_OFF], [c_OFF; c_OFF; c_OFF]));
    ("studio_X_on_air_immediate_release",
      ([c_ON; c_BLINK; c_ON], [c_OFF; c_OFF; c_OFF], [c_OFF; c_BLINK; c_BLINK]));
    ("from_studio_X_change_to_studio_Y_on_next_hour",
      ([c_ON; c_ON; c_OFF], [c_BLINK; c_OFF; c_OFF], [c_OFF; c_OFF; c_OFF]));
    ("studio_X_on_air_studio_Y_takeover_request",
      ([c_ON; c_BLINK; c_OFF], [c_OFF; c_ON; c_OFF], [c_OFF; c_OFF; c_OFF]));
    ("noop",
      ([c_OFF; c_OFF; c_OFF], [c_OFF; c_OFF; c_OFF], [c_OFF; c_OFF; c_OFF])) ].

(** What a code of the table says about a [LedStatus]: the state, and for
    the two blinking codes the frequency. *)
Definition shows (c : led_code) (l : LedStatus) : bool :=
  match c, led_state l with
  | c_OFF, LedState_OFF => true
  | c_ON, LedState_ON => true
  | c_BLINK, LedState_BLINK => blink_freq l =? 2
  | c_FAST, LedState_BLINK => blink_freq l =? 4
  | _, _ => false
  end.

Definition studio_shows (codes : list led_code) (s : StudioLedStatus) : bool :=
  match codes with
  | [g; ye; r] => shows g (green s) && shows ye (yellow s) && shows r (red s)
  | _ => false
  end.

Definition row_shows (row : list led_code * list led_code * list led_code)
    (t : LedStateTarget) : bool :=
  let '(cx, cy, co) := row in
  studio_shows cx (x t) && studio_shows cy (y t) && studio_shows co (other t).

Definition spec_row (name : string)
    : option (list led_code * list led_code * list led_code) :=
  snd <$> List.find (fun r => String.eqb (fst r) name) spec_led_table.

(** ** dispatcher/__init__.py *)

(** Modelled from the spec: [Studio], [Button] and [ButtonEvent] of
    [dispatcher/data_types.py], which this development does not have: a
    studio is known by its name; the buttons are TAKEOVER, RELEASE and
    IMMEDIATE; ButtonEvent = (studio, button). *)
Record Studio : Type := mkStudio { name : string }.

Inductive Button : Type := TAKEOVER | RELEASE | IMMEDIATE.

(** [button.name] of the enumeration member. *)
Definition Button_name (b : Button) : string :=
  match b with
  | TAKEOVER => "TAKEOVER"
  | RELEASE => "RELEASE"
  | IMMEDIATE => "IMMEDIATE"
  end.

Record ButtonEvent : Type := mkButtonEvent { studio : Studio; button : Button }.

#[global] Instance Studio_eq_dec : EqDecision Studio.
Proof. solve_decision. Defined.

(** The attributes of a [Dispatcher] the methods below touch.  A timer
    attribute holds a task of the loop or [None]; [machine_state] is
    [self._machine.state]; [led_status_typed] collects the attribute of that
    name of every studio, by studio name. *)
Record Dispatcher : Type := mkDispatcher {
  file_path : string;
  _symnet_controller : Z;
  _next_hour_timer : option nat;
  _immediate_state_timer : option nat;
  _immediate_release_timer : option nat;
  _automat_selector_value : Z;
  _studios : list Studio;
  _studios_to_selector_value : gmap string Z;
  _on_air_selector_value : Z;
  _x : option Studio;
  _y : option Studio;
  machine_state : States;
  led_status_typed : gmap string StudioLedStatus
}.

Definition set_next_hour_timer (t : option nat) (d : Dispatcher) : Dispatcher :=
  mkDispatcher (file_path d) (_symnet_controller d) t (_immediate_state_timer d)
    (_immediate_release_timer d) (_automat_selector_value d) (_studios d)
    (_studios_to_selector_value d) (_on_air_selector_value d) (_x d) (_y d)
    (machine_state d) (led_status_typed d).
Definition set_immediate_state_timer (t : option nat) (d : Dispatcher) : Dispatcher :=
  mkDispatcher (file_path d) (_symnet_controller d) (_next_hour_timer d) t
    (_immediate_release_timer d) (_automat_selector_value d) (_studios d)
    (_studios_to_selector_value d) (_on_air_selector_value d) (_x d) (_y d)
    (machine_state d) (led_status_typed d).
Definition set_immediate_release_timer (t : option nat) (d : Dispatcher) : Dispatcher :=
  mkDispatcher (file_path d) (_symnet_controller d) (_next_hour_timer d)
    (_immediate_state_timer d) t (_automat_selector_value d) (_studios d)
    (_studios_to_selector_value d) (_on_air_selector_value d) (_x d) (_y d)
    (machine_state d) (led_status_typed d).
Definition set_on_air_selector_value (v : Z) (d : Dispatcher) : Dispatcher :=
  mkDispatcher (file_path d) (_symnet_controller d) (_next_hour_timer d)
    (_immediate_state_timer d) (_immediate_release_timer d) (_automat_selector_value d)
    (_studios d) (_studios_to_selector_value d) v (_x d) (_y d)
    (machine_state d) (led_status_typed d).
Definition set_x (s : option Studio) (d : Dispatcher) : Dispatcher :=
  mkDispatcher (file_path d) (_symnet_controller d) (_next_hour_timer d)
    (_immediate_state_timer d) (_immediate_release_timer d) (_automat_selector_value d)
    (_studios d) (_studios_to_selector_value d) (_on_air_selector_value d) s (_y d)
    (machine_state d) (led_status_typed d).
Definition set_y (s : option Studio) (d : Dispatcher) : Dispatcher :=
  mkDispatcher (file_path d) (_symnet_controller d) (_next_hour_timer d)
    (_immediate_state_timer d) (_immediate_release_timer d) (_automat_selector_value d)
    (_studios d) (_studios_to_selector_value d) (_on_air_selector_value d) (_x d) s
    (machine_state d) (led_status_typed d).
Definition set_led_status_typed
    (f : gmap string StudioLedStatus -> gmap string StudioLedStatus)
    (d : Dispatcher) : Dispatcher :=
  mkDispatcher (file_path d) (_symnet_controller d) (_next_hour_timer d)
    (_immediate_state_timer d) (_immediate_release_timer d) (_automat_selector_value d)
    (_studios d) (_studios_to_selector_value d) (_on_air_selector_value d) (_x d) (_y d)
    (machine_state d) (f (led_status_typed d)).

(** The methods of the dispatcher run on the dispatcher object and the
    world. *)
Definition D (A : Type) : Type := St (Dispatcher * world) A.

Definition in_world {A} (c : M A) : D A :=
  fun s => let (r, w') := c (snd s) in (r, (fst s, w')).
Definition self {A} (f : Dispatcher -> A) : D A := read (fun s => f (fst s)).
Definition update (f : Dispatcher -> Dispatcher) : D unit :=
  modify (fun s => (f (fst s), snd s)).

(** [timer and not timer.done()] / [timer and timer.done()]: a task object
    is true, [None] is false. *)
Definition task_done (t : nat) : D bool :=
  read (fun s => match tasks (snd s) !! t with
                 | Some tk => done tk
                 | None => false
                 end).

(** [Task.cancel()]: a task that is not done is asked to stop. *)
Definition cancel (t : nat) : D unit :=
  modify (fun s =>
    (fst s,
     set_tasks (fun ts => match ts !! t with
                          | Some (Task c Scheduled) => <[t := Task c CancelRequested]> ts
                          | _ => ts
                          end) (snd s))).

(** [Dispatcher._start_next_hour_timer]. *)
Definition _start_next_hour_timer : D unit :=
  timer <- self _next_hour_timer ;;
  guard <- match timer with
           | Some t => finished <- task_done t ;; ret (negb finished)
           | None => ret false
           end ;;
  if guard : bool then ret tt
  else
    t <- in_world (create_task Dispatcher_hour_timer) ;;
    update (set_next_hour_timer (Some t)).

(** [Dispatcher._stop_next_hour_timer]. *)
Definition _stop_next_hour_timer : D unit :=
  timer <- self _next_hour_timer ;;
  match timer with
  | Some t => cancel t ;;; update (set_next_hour_timer None)
  | None => ret tt
  end.

(** [Dispatcher._start_immediate_state_timer]. *)
Definition _start_immediate_state_timer : D unit :=
  timer <- self _immediate_state_timer ;;
  guard <- match timer with
           | Some t => finished <- task_done t ;; ret (negb finished)
           | None => ret false
           end ;;
  if guard : bool then ret tt
  else
    t <- in_world (create_task Dispatcher_immediate_state_timer) ;;
    update (set_immediate_state_timer (Some t)).

(** [Dispatcher._stop_immediate_state_timer]. *)
Definition _stop_immediate_state_timer : D unit :=
  timer <- self _immediate_state_timer ;;
  match timer with
  | Some t => cancel t ;;; update (set_immediate_state_timer None)
  | None => ret tt
  end.

(** [Dispatcher._start_immediate_release_timer]: the guard reads
    [timer and timer.done()]. *)
Definition _start_immediate_release_timer : D unit :=
  timer <- self _immediate_release_timer ;;
  guard <- match timer with
           | Some t => task_done t
           | None => ret false
           end ;;
  if guard : bool then ret tt
  else
    t <- in_world (create_task Dispatcher_immediate_release_timer) ;;
    update (set_immediate_release_timer (Some t)).

(** [Dispatcher._stop_immediate_release_timer]. *)
Definition _stop_immediate_release_timer : D unit :=
  timer <- self _immediate_release_timer ;;
  match timer with
  | Some t => cancel t ;;; update (set_immediate_release_timer None)
  | None => ret tt
  end.

(** [Dispatcher._before_state_change(event)]: [event_name] is
    [event.event.name], [button_event] the keyword argument of that name if
    the trigger was called with one, [dest] is [event.transition.dest]. *)
Definition _before_state_change (event_name : string)
    (button_event : option ButtonEvent) (dest : option string) : D unit :=
  match dest with
  | None => ret tt
  | Some destination_state =>
      match button_event with
      | Some be =>
          if str_in "X" event_name then update (set_x (Some (studio be)))
          else if str_in "Y" event_name then update (set_y (Some (studio be)))
          else ret tt
      | None => ret tt
      end ;;;
      (if negb (str_in "next_hour" destination_state)
       then _stop_next_hour_timer else ret tt) ;;;
      (if negb (str_in "immediate_state" destination_state)
       then _stop_immediate_state_timer else ret tt) ;;;
      (if negb (str_in "immediate_release" destination_state)
       then _stop_immediate_release_timer else ret tt)
  end.

(** [Dispatcher._after_state_change(event)]. *)
Definition _after_state_change (dest : option string) : D unit :=
  match dest with
  | None => ret tt
  | Some destination_state =>
      let named := nonempty destination_state in
      (if named && negb (str_in "X" destination_state)
       then update (set_x None) else ret tt) ;;;
      (if named && negb (str_in "Y" destination_state)
       then update (set_y None) else ret tt) ;;;
      (if str_in "next_hour" destination_state
       then _start_next_hour_timer else ret tt) ;;;
      (if str_in "immediate_state" destination_state
       then _start_immediate_state_timer else ret tt) ;;;
      (if str_in "immediate_release" destination_state
       then _start_immediate_release_timer else ret tt)
  end.

(** [Dispatcher._prepare_switch_to_y]. *)
Definition _prepare_switch_to_y : D unit :=
  studio_y <- self _y ;;
  update (set_x studio_y) ;;; update (set_y None).

(** [Dispatcher._change_to_automat]. *)
Definition _change_to_automat : D unit :=
  automat <- self _automat_selector_value ;;
  update (set_on_air_selector_value automat) ;;;
  _ <- in_world (create_task Dispatcher_set_current_state_coro) ;;
  ret tt.

(** [Dispatcher._change_to_studio]. *)
Definition _change_to_studio : D unit :=
  studio_x <- self _x ;;
  values <- self _studios_to_selector_value ;;
  match studio_x with
  | Some s =>
      match values !! name s with
      | Some v =>
          update (set_on_air_selector_value v) ;;;
          _ <- in_world (create_task Dispatcher_set_current_state_coro) ;;
          ret tt
      | None => raise KeyError
      end
  | None => raise KeyError
  end.

(** [Dispatcher._audit_state]. *)
Definition _audit_state : D unit :=
  current <- self (fun d => state_name (machine_state d)) ;;
  studio_x <- self _x ;;
  studio_y <- self _y ;;
  (if str_in "X" current then
     if studio_x is None
     then in_world (logger CRITICAL "X in state and self._X is None" []) else ret tt
   else
     if studio_x is None then ret tt
     else in_world (logger CRITICAL "X not in state and self._X is not None" [])) ;;;
  (if str_in "Y" current then
     if studio_y is None
     then in_world (logger CRITICAL "Y in state and self._Y is None" []) else ret tt
   else
     if studio_y is None then ret tt
     else in_world (logger CRITICAL "Y not in state and self._Y is not None" [])).

(** [Dispatcher._assure_led_status]. *)
Definition _assure_led_status : D unit :=
  new_led_state <- self (fun d => led_state_target (machine_state d)) ;;
  studio_x <- self _x ;;
  studio_y <- self _y ;;
  studios <- self _studios ;;
  update (set_led_status_typed (fun leds =>
    foldl (fun leds s =>
             if bool_decide (Some s = studio_x) then <[name s := x new_led_state]> leds
             else if bool_decide (Some s = studio_y) then <[name s := y new_led_state]> leds
             else <[name s := other new_led_state]> leds)
          leds studios)).

(** The value of [append] in [_process_studio_button_events]. *)
Definition append_of (d : Dispatcher) (event : ButtonEvent) : option string :=
  match _x d with
  | None => Some "_X"
  | Some studio_x =>
      if bool_decide (studio_x = studio event) then Some "_X"
      else
        match _y d with
        | None => Some "_Y"
        | Some studio_y =>
            if bool_decide (studio_y = studio event) then Some "_Y" else None
        end
  end.

(** [except MachineError as e: logger.info(e)]. *)
Definition except_MachineError (e : exn) : D unit :=
  match e with
  | MachineError => in_world (logger INFO "%s" ["MachineError"])
  | _ => raise e
  end.

Section Machine.

(** [self._machine.trigger(trigger_name, button_event=...)]: the machine of
    the [transitions] package with the transition table, neither of which
    this development has. *)
Variable machine_trigger : string -> option ButtonEvent -> D unit.

(** One turn of the loop of [Dispatcher._process_studio_button_events], for
    the event taken from the queue. *)
Definition _process_studio_button_events (event : ButtonEvent) : D unit :=
  append <- self (fun d => append_of d event) ;;
  match append with
  | Some suffix =>
      let trigger_name := Button_name (button event) +:+ suffix in
      try_except (machine_trigger trigger_name (Some event)) except_MachineError
  | None => ret tt
  end ;;;
  _audit_state ;;; _assure_led_status.

End Machine.

(** *** Persistence: [Dispatcher.load] *)

(** What [json.load] returns. *)
#[local] Set Warnings "-register-all".
Inductive json : Type :=
| JNull
| JBool (b : bool)
| JNumber (q : Q)
| JString (s : string)
| JArray (items : list json)
| JObject (items : list (string * json)).   (* a dict: the keys are distinct *)

(** [if v:] *)
Definition truthy (v : json) : bool :=
  match v with
  | JNull => false
  | JBool b => b
  | JNumber q => negb (Qeq_bool q 0)
  | JString s => nonempty s
  | JArray items => negb (bool_decide (items = []))
  | JObject items => negb (bool_decide (items = []))
  end.

(** [text in v] for a piece of text. *)
Definition json_contains (text : string) (v : json) : result bool :=
  match v with
  | JString s => Ok (str_in text s)
  | JArray items =>
      Ok (existsb (fun i => match i with JString s => String.eqb s text | _ => false end)
            items)
  | JObject items => Ok (existsb (fun kv => String.eqb (fst kv) text) items)
  | _ => Raise TypeError
  end.

Definition item (key : string) (items : list (string * json)) : option json :=
  snd <$> List.find (fun kv => String.eqb (fst kv) key) items.

(** [self._save_state] called with the entries of the loaded dict as
    keywords: the named tuple (x, y, state) takes exactly these three. *)
Definition _save_state (state : json) : result (json * json * json) :=
  match state with
  | JObject items =>
      match item "x" items, item "y" items, item "state" items with
      | Some vx, Some vy, Some vstate =>
          if bool_decide (length items = 3%nat) then Ok (vx, vy, vstate)
          else Raise TypeError
      | _, _, _ => Raise TypeError
      end
  | _ => Raise TypeError
  end.

(** How an exception is shown by [%s]. *)
Definition exn_text (e : exn) : string :=
  match e with
  | Exception message => message
  | IOError errno => "[Errno " +:+ pretty errno +:+ "]"
  | JSONDecodeError => "JSONDecodeError"
  | _ => ""
  end.

Section Persistence.

Variable machine_trigger : string -> option ButtonEvent -> D unit.
(** [Studio.names], the studios by name. *)
Variable Studio_names : gmap string Studio.
(** [open(path, 'r')] with what reading the file gives, and the decoder
    behind [json.load]. *)
Variable open_file : string -> result string.
Variable json_loads : string -> result json.

(** [Studio.names[key]]. *)
Definition Studio_names_getitem (key : json) : result Studio :=
  match key with
  | JString s => match Studio_names !! s with Some st => Ok st | None => Raise KeyError end
  | JArray _ | JObject _ => Raise TypeError     (* unhashable *)
  | _ => Raise KeyError
  end.

(** The body of the [try] of [Dispatcher.load]. *)
Definition load_body : D unit :=
  path <- self file_path ;;
  text <- lift (open_file path) ;;
  state <- lift (json_loads text) ;;
  state <- lift (_save_state state) ;;
  let '(state_x, state_y, state_state) := state in
  (if truthy state_x then
     studio_x <- lift (Studio_names_getitem state_x) ;;
     update (set_x (Some studio_x)) ;;;
     if truthy state_y then
       studio_y <- lift (Studio_names_getitem state_y) ;;
       update (set_y (Some studio_y))
     else ret tt
   else ret tt) ;;;
  automat <- lift (json_contains "automat_on_air" state_state) ;;
  (if automat : bool then _change_to_automat
   else
     on_air <- lift (json_contains "studio_X_on_air" state_state) ;;
     if on_air : bool then _change_to_studio else ret tt) ;;;
  match state_state with
  | JString state_name => machine_trigger ("to_" +:+ state_name) None
  | _ => raise TypeError
  end.

(** [Dispatcher.load]. *)
Definition load : D unit :=
  try_except load_body
    (fun e =>
       match e with
       | IOError errno =>
           if errno =? 2
           then in_world (logger WARNING "Could load dispatcher state: %s" [exn_text e])
           else in_world (logger CRITICAL "Could load dispatcher state: %s" [exn_text e])
       | JSONDecodeError =>
           in_world (logger CRITICAL "Could load dispatcher state: %s" [exn_text e])
       | _ => raise e
       end).

End Persistence.

(** *** [calc_next_hour_timestamp] *)

(** A naive [datetime]: the date as its proleptic Gregorian ordinal
    ([date.toordinal()]), and the time of day. *)
Record datetime : Type := mkDatetime {
  ordinal : Z;
  hour : Z;
  minute : Z;
  second : Z;
  microsecond : Z
}.

Definition MAXORDINAL : Z := 3652059.   (* date.max.toordinal() *)

(** [dt.replace(minute=m, second=s)]. *)
Definition replace (m s : Z) (dt : datetime) : result datetime :=
  if (0 <=? m) && (m <? 60) && (0 <=? s) && (s <? 60)
  then Ok (mkDatetime (ordinal dt) (hour dt) m s (microsecond dt))
  else Raise ValueError.

(** [dt + datetime.timedelta(hours=h)]. *)
Definition add_hours (h : Z) (dt : datetime) : result datetime :=
  let hours := hour dt + h in
  let day := ordinal dt + hours / 24 in
  if (0 <? day) && (day <=? MAXORDINAL)
  then Ok (mkDatetime day (hours mod 24) (minute dt) (second dt) (microsecond dt))
  else Raise OverflowError.

Section Clock.

(** The local time zone, as a fixed offset from UTC in seconds, and the
    reading of [datetime.datetime.now()]. *)
Variable utcoffset : Z.
Variable datetime_now : datetime.

(** The instant [dt.timestamp()] stands for, counted exactly in
    microseconds.  Python returns the seconds as a float; the float is
    [timestamp_float] below, and the two agree where the float is exact. *)
Definition timestamp (dt : datetime) : Z :=
  ((ordinal dt - 719163) * 86400 + hour dt * 3600 + minute dt * 60 + second dt
   - utcoffset) * 1000000 + microsecond dt.

(** [calc_next_hour_timestamp(minutes, seconds, now)] on these exact
    counts, in microseconds; [calc_next_hour_timestamp_float] below is the
    same text on floats. *)
Definition calc_next_hour_timestamp (minutes seconds : Z) (now : option datetime)
    : result Z :=
  let now := match now with Some dt => dt | None => datetime_now end in
  match replace minutes seconds now with
  | Raise e => Raise e
  | Ok replaced =>
      match add_hours 1 replaced with
      | Raise e => Raise e
      | Ok next_datetime =>
          let next_timestamp := timestamp next_datetime in
          if 3600 * 1000000 <? next_timestamp - timestamp now
          then Ok (next_timestamp - 3600 * 1000000)
          else Ok next_timestamp
      end
  end.

End Clock.

(** ** Notions the statements use, and sample states

    The rule of the specification for button events, the tasks and records
    the handlers produce, and the worlds the statements are instantiated
    with. *)

(** The mapping rule in the words of the specification: an X-event if X is
    unset or is the studio of the event; else a Y-event if Y is unset or is
    the studio of the event; else the event is dropped.  The trigger is the
    button name with the suffix. *)
Definition spec_trigger (studio_x studio_y : option Studio) (event : ButtonEvent)
    : option string :=
  if bool_decide (studio_x = None) then Some (Button_name (button event) +:+ "_X")
  else if bool_decide (studio_x = Some (studio event))
  then Some (Button_name (button event) +:+ "_X")
  else if bool_decide (studio_y = None \/ studio_y = Some (studio event))
  then Some (Button_name (button event) +:+ "_Y")
  else None.

(** A dispatcher in studio_X_on_air_immediate_release whose release timer,
    task 0 of the loop, is running. *)
Definition releasing_dispatcher : Dispatcher :=
  mkDispatcher "state.json" 1 None None (Some 0%nat) 1 [mkStudio "A"]
    {["A" := 2]} 2 (Some (mkStudio "A")) None STUDIO_X_ON_AIR_IMMEDIATE_RELEASE ∅.
Definition releasing_world : world :=
  World 0 [Task Dispatcher_immediate_release_timer Scheduled] [] [] [] [] [] ∅.

(** Half past twelve and fifteen and a half seconds on 2020-01-01. *)
Definition half_past_twelve : datetime := mkDatetime 737425 12 30 15 500000.

(** The observer tasks a change from [old_value] to [value] schedules: one
    per entry of the observer list, in its order. *)
Definition notifications (c : SymNetController) (value : Z) : list task :=
  if bool_decide (raw_value c <> value) then
    (fun clb => Task (observer_call clb (controller_number c) (raw_value c) value) Scheduled)
      <$> observer c
  else [].

(** The controller after [_set_raw_value(value)] at time [now]. *)
Definition cached (c : SymNetController) (value : Z) (now : Q) : SymNetController :=
  Controller (class_of c) (controller_number c) value now (observer c).

(** A selector with two observers, never set. *)
Definition observed_selector : SymNetController :=
  Controller (SymNetSelectorController_class 4) 7 0 0
    [foreign_callable 1; Dispatcher_set_current_state].
Definition observed_world : world :=
  World 5 [] [] [] [] [] [] {[ 7 := observed_selector ]}.

(** The record [load] writes for an exception it catches. *)
Definition could_load (l : level) (e : exn) : log_record :=
  LogRecord l "Could load dispatcher state: %s" [exn_text e].

(** The exception a protocol callback raises when it is called without a
    match object. *)
Definition refusal (f : callback_fn) : exn :=
  match f with
  | assure_callback_of cn =>
      Exception
        ("Unknown error occurred awaiting the acknowledge of setting controller number "
           +:+ pretty cn)
  | retrieve_callback_of cn =>
      Exception ("Error executing GS2 command, controller " +:+ pretty cn)
  end.

(** A pending GS2 request for controller 42 at the head of the queue. *)
Definition pending_request : SymNetRawProtocolCallback :=
  Callback (retrieve_callback_of 42) 1 (Some (retrieve_regex 42)) 0.
Definition waiting_world : world :=
  World 0 [] [PENDING] [] [pending_request] [] ["GS2 42" +:+ cr] ∅.

(** Only ASCII digits. *)
Fixpoint all_digits (s : string) : bool :=
  match s with
  | EmptyString => true
  | String c s' => is_digit c && all_digits s'
  end.

(** What a line of a push datagram stands for: the controller state it
    carries, if it matches the push pattern. *)
Definition push_state (line : string) : option SymNetRawControllerState :=
  match re_match push_regex line with
  | Some m =>
      match int_group m 1, int_group m 2 with
      | Ok number, Ok value => Some (ControllerState number value)
      | _, _ => None
      end
  | None => None
  end.

(** A line the push pattern does not match. *)
Definition malformed (line : string) : bool :=
  match re_match push_regex line with
  | Some _ => false
  | None => true
  end.

(** The task [ensure_future(self.state_queue.put(item))] creates. *)
Definition put_task (item : SymNetRawControllerState) : task :=
  Task (Queue_put item) Scheduled.

(** The record logged for a malformed line. *)
Definition line_error (line : string) : log_record :=
  LogRecord ERROR "error in in the received line <%s>" [line].

(** Exactly [n] decimal digits at the head of [s]: their text and the rest. *)
Fixpoint take_digits (n : nat) (s : string) : option (string * string) :=
  match n with
  | O => Some (EmptyString, s)
  | S n' =>
      match s with
      | String c s' =>
          if in_range "0" "9" c then
            match take_digits n' s' with
            | Some (ds, rest) => Some (String c ds, rest)
            | None => None
            end
          else None
      | EmptyString => None
      end
  end.

(** The end of the line, or a newline that ends it. *)
Definition at_end (s : string) : bool :=
  match s with
  | EmptyString => true
  | String c EmptyString => Ascii.eqb c LF
  | _ => false
  end.

(** The number a text of digits spells. *)
Definition number_of (ds : string) : Z :=
  match digits_value 0 ds with Some v => v | None => 0 end.

(** A push line as the specification describes it, read from left to
    right: '#', five digits, '=', a '-' or none, five or else four digits,
    the end.  It carries the controller number and the signed value. *)
Definition spec_push_state (line : string) : option SymNetRawControllerState :=
  match line with
  | String h s1 =>
      if Ascii.eqb "#" h then
        match take_digits 5 s1 with
        | Some (number, String e s3) =>
            if Ascii.eqb "=" e then
              let '(negative, s4) :=
                match s3 with
                | String c s4 => if Ascii.eqb "-" c then (true, s4) else (false, s3)
                | EmptyString => (false, s3)
                end in
              match (match take_digits 5 s4 with
                     | Some found => Some found
                     | None => take_digits 4 s4
                     end) with
              | Some (ds, rest) =>
                  if at_end rest then
                    Some (ControllerState (number_of number)
                            (if negative : bool then - number_of ds else number_of ds))
                  else None
              | None => None
              end
            else None
        | _ => None
        end
      else None
  | EmptyString => None
  end.

(** A line that is no push line. *)
Definition no_push_line (line : string) : bool :=
  match spec_push_state line with
  | Some _ => false
  | None => true
  end.

(** A pending callback that does not take the datagram: its pattern does
    not match the body or, without a pattern, its line count differs. *)
Definition declines (data_str : string) (lines : list string)
    (callback_obj : SymNetRawProtocolCallback) : bool :=
  match regex callback_obj with
  | Some r => match re_match r data_str with Some _ => false | None => true end
  | None => negb (bool_decide (Z.of_nat (length lines) = expected_lines callback_obj))
  end.

(** A protocol with nothing pending and no controller defined. *)
Definition empty_world : world := World 0 [] [] [] [] [] [] ∅.

(** The world after the part of [set_position] that precedes its [await],
    for a selector of the device: the value is cached and stamped, the
    observers are scheduled, the CS request is queued and written. *)
Definition after_set_position (c : SymNetController) (raw : Z) (w : world) : world :=
  set_sent (fun out => out ++ ["CS " +:+ pretty (controller_number c) +:+ " "
                                 +:+ pretty raw +:+ cr])
    (set_callback_queue
       (fun q => q ++ [Callback (assure_callback_of (controller_number c)) 1
                         (Some assure_regex) (length (futures w))])
       (set_futures (fun fs => fs ++ [PENDING])
          (set_tasks (fun ts => ts ++ notifications c raw)
             (set_controllers
                <[controller_number c := cached c raw (loop_time w)]> w)))).

(** A selector with 65537 positions, one more than there are raw values. *)
Definition wide_selector : SymNetController :=
  Controller (SymNetSelectorControllerDummy_class 65537) 7 0 0 [].
Definition wide_world : world := World 5 [] [] [] [] [] [] {[ 7 := wide_selector ]}.

(** Whether a position survives [set_position] then [get_position]. *)
Definition round_trips `{FloatArith} (count position : Z) : bool :=
  match raw_of_position position count with
  | Ok raw => position_of_raw raw count =? position
  | Raise _ => false
  end.

(** The integers 1 .. n. *)
Definition upto (n : Z) : list Z := (fun i => Z.of_nat i + 1) <$> seq 0 (Z.to_nat n).

(** ** More of the program

    Further methods of SymNet.py and of the dispatcher, with the notions and
    the sample states the further properties use. *)

(** *** SymNet.py: the button controller *)

(** The methods below exist on a [SymNetButtonController] only. *)
Definition as_button (cn : Z) : M SymNetController :=
  c <- get_controller cn ;;
  match class_of c with
  | SymNetButtonController_class => ret c
  | _ => raise AttributeError
  end.

(** [SymNetButtonController.on] up to its [await]. *)
Definition Button_on (cn : Z) : M (progress unit) :=
  _ <- as_button cn ;;
  _set_raw_value cn 65535 ;;;
  callback_obj <- _assure_current_state cn ;;
  ret (Awaiting (future callback_obj)).

(** [SymNetButtonController.off] up to its [await]. *)
Definition Button_off (cn : Z) : M (progress unit) :=
  _ <- as_button cn ;;
  _set_raw_value cn 0 ;;;
  callback_obj <- _assure_current_state cn ;;
  ret (Awaiting (future callback_obj)).

(** [SymNetButtonController.pressed] up to the [await] inside
    [_get_raw_value]. *)
Definition Button_pressed (cn : Z) : M (progress bool) :=
  _ <- as_button cn ;;
  got <- _get_raw_value cn ;;
  match got with
  | Returned raw => ret (Returned (0 <? raw))
  | Awaiting fut => ret (Awaiting fut)
  end.

(** [SymNetButtonController.set]. *)
Definition Button_set (cn : Z) (state : bool) : M (progress unit) :=
  if state then Button_on cn else Button_off cn.

(** *** Notions of the further statements *)

(** What [datagram_received] hands to a callback that takes the datagram:
    the match of its pattern or, when it has none, no match object. *)
Definition offered (data_str : string) (callback_obj : SymNetRawProtocolCallback)
    : option Match :=
  match regex callback_obj with
  | Some r => re_match r data_str
  | None => None
  end.

(** [l'] is [l] with one entry taken out. *)
Definition one_removed {A} (l l' : list A) : Prop :=
  exists pre x post, l = pre ++ x :: post /\ l' = pre ++ post.

(** What no step of the datagram handler does to the world: the clock, the
    transport and the push channel stay, futures are neither created nor
    dropped, tasks and log records are only added. *)
Definition stable (w w' : world) : Prop :=
  loop_time w' = loop_time w /\ sent w' = sent w /\ state_queue w' = state_queue w /\
  length (futures w') = length (futures w) /\
  (exists more, tasks w' = tasks w ++ more) /\
  (exists more, log w' = log w ++ more).

(** Two requests in flight: the GS2 request of controller 42, then the CS
    request of controller 7. *)
Definition assure_request : SymNetRawProtocolCallback :=
  Callback (assure_callback_of 7) 1 (Some assure_regex) 1.
Definition two_requests_world : world :=
  World 0 [] [PENDING; PENDING] [] [pending_request; assure_request] []
    ["GS2 42" +:+ cr; "CS 7 0" +:+ cr] ∅.


(** Whether the character occurs in the text. *)
Fixpoint has_char (c : ascii) (s : string) : bool :=
  match s with
  | EmptyString => false
  | String c' s' => Ascii.eqb c' c || has_char c s'
  end.

(** The text without the occurrences of the character. *)
Fixpoint remove_char (c : ascii) (s : string) : string :=
  match s with
  | EmptyString => EmptyString
  | String c' s' => if Ascii.eqb c' c then remove_char c s' else String c' (remove_char c s')
  end.

(** The pieces one after the other. *)
Definition join (pieces : list string) : string := fold_right append EmptyString pieces.

(** A controller of the device, not a dummy. *)
Definition on_device (c : SymNetController) : bool :=
  match class_of c with
  | SymNetSelectorControllerDummy_class _ => false
  | _ => true
  end.

(** The selector of [observed_world] eleven seconds after its value was
    stored. *)
Definition stale_world : world :=
  World 11 [] [] [] [] [] [] {[ 7 := observed_selector ]}.

(** A button of the device, released, with one observer. *)
Definition observed_button : SymNetController :=
  Controller SymNetButtonController_class 9 0 0 [foreign_callable 1].
Definition button_world : world :=
  World 5 [] [] [] [] [] [] {[ 9 := observed_button ]}.


(** The last microsecond of the last day a datetime can hold. *)
Definition last_moment : datetime := mkDatetime MAXORDINAL 23 59 59 999999.

(** *** [calc_next_hour_timestamp] in binary64

    [datetime.timestamp()] is a float: the whole seconds since the epoch,
    converted, plus [microsecond / 1e6]; and [calc_next_hour_timestamp]
    subtracts and compares such floats. *)


Section Clock64.

Variable utcoffset : Z.
Variable datetime_now : datetime.

(** The whole seconds of [dt] since the epoch. *)
Definition epoch_seconds (dt : datetime) : Z :=
  (ordinal dt - 719163) * 86400 + hour dt * 3600 + minute dt * 60 + second dt - utcoffset.

(** [dt.timestamp()]. *)
Definition timestamp_float (dt : datetime) : float :=
  (@of_int binary64 (epoch_seconds dt)
   + @of_int binary64 (microsecond dt) / @of_int binary64 1000000)%float.

(** [calc_next_hour_timestamp(minutes, seconds, now)]. *)
Definition calc_next_hour_timestamp_float (minutes seconds : Z) (now : option datetime)
    : result float :=
  let now := match now with Some dt => dt | None => datetime_now end in
  match replace minutes seconds now with
  | Raise e => Raise e
  | Ok replaced =>
      match add_hours 1 replaced with
      | Raise e => Raise e
      | Ok next_datetime =>
          let next_timestamp := timestamp_float next_datetime in
          if (@of_int binary64 3600 <? next_timestamp - timestamp_float now)%float
          then Ok (next_timestamp - @of_int binary64 3600)%float
          else Ok next_timestamp
      end
  end.

End Clock64.


(** *** The three timers of the dispatcher *)

Inductive timer_kind : Type := Next_hour | Immediate_state | Immediate_release.

#[global] Instance timer_kind_eq_dec : EqDecision timer_kind.
Proof. solve_decision. Defined.

(** The text a state name carries when the state needs the timer. *)
Definition token (kind : timer_kind) : string :=
  match kind with
  | Next_hour => "next_hour"
  | Immediate_state => "immediate_state"
  | Immediate_release => "immediate_release"
  end.

(** The attribute that holds the task of the timer. *)
Definition timer_of (kind : timer_kind) (d : Dispatcher) : option nat :=
  match kind with
  | Next_hour => _next_hour_timer d
  | Immediate_state => _immediate_state_timer d
  | Immediate_release => _immediate_release_timer d
  end.

(** The two callbacks the machine runs around a change of state, one after
    the other. *)
Definition state_change_callbacks (event_name : string) (button_event : option ButtonEvent)
    (dest : string) : D unit :=
  _before_state_change event_name button_event (Some dest) ;;;
  _after_state_change (Some dest).

(** The tasks of the loop after [timer.cancel()] on the task a timer
    attribute holds, if it holds one. *)
Definition cancelled (timer : option nat) (ts : list task) : list task :=
  match timer with
  | Some t =>
      match ts !! t with
      | Some (Task c Scheduled) => <[t := Task c CancelRequested]> ts
      | _ => ts
      end
  | None => ts
  end.

(** [timer and not timer.done()] and [timer and timer.done()]. *)
Definition running (timer : option nat) (ts : list task) : bool :=
  match timer with
  | Some t => negb (match ts !! t with Some tk => done tk | None => false end)
  | None => false
  end.
Definition completed (timer : option nat) (ts : list task) : bool :=
  match timer with
  | Some t => match ts !! t with Some tk => done tk | None => false end
  | None => false
  end.

(** A step of the dispatcher that keeps a property of dispatcher and world
    and does not raise. *)
Definition preserves (I : Dispatcher * world -> Prop) (c : D unit) : Prop :=
  forall s, I s -> fst (c s) = Ok tt /\ I (snd (c s)).

(** The timer of this kind holds task [t], which is [tk], and no other timer
    attribute holds that task. *)
Definition holds_timer (kind : timer_kind) (t : nat) (tk : task)
    (s : Dispatcher * world) : Prop :=
  timer_of kind (fst s) = Some t /\ tasks (snd s) !! t = Some tk /\
  forall other, other <> kind -> timer_of other (fst s) <> Some t.

(** Task [t] runs [c] and is still held by the timer of this kind, or the
    timer has let go of it and it has been asked to stop. *)
Definition held_or_stopped (kind : timer_kind) (t : nat) (c : coroutine)
    (s : Dispatcher * world) : Prop :=
  (timer_of kind (fst s) = Some t /\
   (tasks (snd s) !! t = Some (Task c Scheduled) \/
    tasks (snd s) !! t = Some (Task c CancelRequested))) \/
  (timer_of kind (fst s) = None /\ tasks (snd s) !! t = Some (Task c CancelRequested)).

(** The methods and the coroutine of each timer, and its attribute set. *)
Definition stop_timer (kind : timer_kind) : D unit :=
  match kind with
  | Next_hour => _stop_next_hour_timer
  | Immediate_state => _stop_immediate_state_timer
  | Immediate_release => _stop_immediate_release_timer
  end.
Definition start_timer (kind : timer_kind) : D unit :=
  match kind with
  | Next_hour => _start_next_hour_timer
  | Immediate_state => _start_immediate_state_timer
  | Immediate_release => _start_immediate_release_timer
  end.
Definition timer_coro (kind : timer_kind) : coroutine :=
  match kind with
  | Next_hour => Dispatcher_hour_timer
  | Immediate_state => Dispatcher_immediate_state_timer
  | Immediate_release => Dispatcher_immediate_release_timer
  end.
Definition set_timer (kind : timer_kind) (t : option nat) : Dispatcher -> Dispatcher :=
  match kind with
  | Next_hour => set_next_hour_timer t
  | Immediate_state => set_immediate_state_timer t
  | Immediate_release => set_immediate_release_timer t
  end.

(** The guard under which the start method of the timer returns at once. *)
Definition start_guard (kind : timer_kind) : option nat -> list task -> bool :=
  match kind with
  | Immediate_release => completed
  | _ => running
  end.

(** A dispatcher in from_studio_X_change_to_automat_on_next_hour whose hour
    timer, task 0 of the loop, is running. *)
Definition waiting_dispatcher : Dispatcher :=
  mkDispatcher "state.json" 1 (Some 0%nat) None None 1 [mkStudio "A"]
    {["A" := 2]} 2 (Some (mkStudio "A")) None FROM_STUDIO_X_CHANGE_TO_AUTOMAT_ON_NEXT_HOUR ∅.
Definition hour_timer_world : world :=
  World 0 [Task Dispatcher_hour_timer Scheduled] [] [] [] [] [] ∅.

(** *** The audit and the LEDs *)

(** The state name and the studio attributes agree: the letter of a studio
    is in the name exactly when the attribute is set. *)
Definition consistent (d : Dispatcher) : Prop :=
  (str_in "X" (state_name (machine_state d)) = true <-> is_Some (_x d)) /\
  (str_in "Y" (state_name (machine_state d)) = true <-> is_Some (_y d)).

(** The recipe of a studio by its role in the current state. *)
Definition role_recipe (d : Dispatcher) (s : Studio) : StudioLedStatus :=
  let target := led_state_target (machine_state d) in
  if bool_decide (Some s = _x d) then x target
  else if bool_decide (Some s = _y d) then y target
  else other target.

(** *** [Dispatcher._set_current_state], [save] and [_cleanup] *)

Section Switching.
Context `{FloatArith}.

(** [Dispatcher._set_current_state] up to the [await] inside
    [set_position]. *)
Definition _set_current_state : D (progress unit) :=
  value <- self _on_air_selector_value ;;
  in_world (logger INFO "Set the controller state now to %s!" [pretty value]) ;;;
  cn <- self _symnet_controller ;;
  in_world (set_position cn value).

End Switching.

(** [self._x.name if self._x else None], as [json.dump] sees it. *)
Definition studio_json (s : option Studio) : json :=
  match s with
  | Some st => JString (name st)
  | None => JNull
  end.

(** [state._asdict()] of the named tuple [save] builds. *)
Definition saved_state (d : Dispatcher) : json :=
  JObject [("x", studio_json (_x d)); ("y", studio_json (_y d));
           ("state", JString (state_name (machine_state d)))].

Section Saving.

(** [open(path, 'w')] and writing the text: what can go wrong is an
    exception. *)
Variable write_file : string -> string -> result unit.
(** The encoder behind [json.dump]. *)
Variable json_dumps : json -> string.

(** [Dispatcher.save]. *)
Definition save : D unit :=
  path <- self file_path ;;
  state <- self saved_state ;;
  try_except (lift (write_file path (json_dumps state)))
    (fun e => in_world (logger ERROR "%s" [exn_text e])).

(** [Dispatcher._cleanup] from the point where the cleanup event is set. *)
Definition _cleanup : D unit :=
  _stop_next_hour_timer ;;;
  _stop_immediate_state_timer ;;;
  _stop_immediate_release_timer ;;;
  save.

End Saving.

(** The task [_change_to_automat] and [_change_to_studio] schedule. *)
Definition switch_task : task := Task Dispatcher_set_current_state_coro Scheduled.

(** A dispatcher whose studio X is A while the selector, the one of
    [observed_world], still stands on the automat. *)
Definition switching_dispatcher : Dispatcher :=
  mkDispatcher "state.json" 7 None None None 1 [mkStudio "A"]
    {["A" := 2]} 1 (Some (mkStudio "A")) None STUDIO_X_ON_AIR ∅.

(** *** The timer coroutines, from the point where their sleeping is over *)

(** [try: c  finally: h]: [h] runs whatever [c] did; what [c] raised is
    raised again after it, unless [h] raises itself. *)
Definition try_finally {S A} (c : St S A) (h : St S unit) : St S A :=
  fun s => match c s with
           | (r, s') =>
               match h s' with
               | (Ok _, s'') => (r, s'')
               | (Raise e, s'') => (Raise e, s'')
               end
           end.

(** [except MachineError as e: logger.critical(e)]. *)
Definition critical_MachineError (e : exn) : D unit :=
  match e with
  | MachineError => in_world (logger CRITICAL "%s" ["MachineError"])
  | _ => raise e
  end.

Section TimerCoroutines.

Variable machine_trigger : string -> option ButtonEvent -> D unit.
(** What [time.strftime('%Y-%m-%dT%H:%M:%S%z')] shows. *)
Variable strftime : string.

(** [Dispatcher.__hour_timer] after its last sleep. *)
Definition hour_timer_fires : D unit :=
  try_finally
    (in_world (logger INFO "hourly event %s" [strftime]) ;;;
     try_except (machine_trigger "next_hour" None) critical_MachineError ;;;
     _assure_led_status)
    (update (set_next_hour_timer None)).

(** [Dispatcher.__immediate_state_timer] after its sleep. *)
Definition immediate_state_timer_fires : D unit :=
  try_finally
    (try_except (machine_trigger "immediate_state_timeout" None) critical_MachineError)
    (update (set_immediate_state_timer None)).

(** [Dispatcher.__immediate_release_timer] after its sleep. *)
Definition immediate_release_timer_fires : D unit :=
  try_finally
    (try_except (machine_trigger "immediate_release_timeout" None) critical_MachineError)
    (update (set_immediate_release_timer None)).

Definition timer_fires (kind : timer_kind) : D unit :=
  match kind with
  | Next_hour => hour_timer_fires
  | Immediate_state => immediate_state_timer_fires
  | Immediate_release => immediate_release_timer_fires
  end.

End TimerCoroutines.

(** The trigger a timer issues when it fires, and the state at which it
    does: the hour timer has logged the hourly event by then. *)
Definition timeout_trigger (kind : timer_kind) : string :=
  match kind with
  | Next_hour => "next_hour"
  | Immediate_state => "immediate_state_timeout"
  | Immediate_release => "immediate_release_timeout"
  end.

Definition at_trigger (strftime : string) (kind : timer_kind) (s : Dispatcher * world)
    : Dispatcher * world :=
  match kind with
  | Next_hour => snd (in_world (logger INFO "hourly event %s" [strftime]) s)
  | _ => s
  end.

(** A machine that refuses every trigger. *)
Definition refusing_machine (_ : string) (_ : option ButtonEvent) : D unit :=
  raise MachineError.

(** A dummy selector with three positions, and a world that knows it. *)
Definition dummy_selector : SymNetController :=
  Controller (SymNetSelectorControllerDummy_class 3) 7 0 0 [].
Definition dummy_world : world := World 50 [] [] [] [] [] [] {[ 7 := dummy_selector ]}.
(** * Properties *)

(** ** The LED recipes (transitions.py) *)

(** C6.  Each of the ten states carries the LED recipe of its row of the
    specification's table (BLINK is blinking at 2 Hz, FAST at 4 Hz): the
    table has one row per state, under the state's name, and the row shows
    the x, y and other triples of the state.  In particular
    studio_X_on_air_immediate_release has x = (ON, BLINK, ON),
    y = (OFF, OFF, OFF), other = (OFF, BLINK, BLINK). *)
Theorem led_recipes_are_the_table :
  length States_members = 10%nat /\
  (forall s : States, s ∈ States_members) /\
  fst <$> spec_led_table = state_name <$> States_members /\
  (forall s : States,
     exists row, spec_row (state_name s) = Some row /\
                 row_shows row (led_state_target s) = true) /\
  led_state_target STUDIO_X_ON_AIR_IMMEDIATE_RELEASE =
    mkLedStateTarget
      (mkStudioLedStatus LedStatuses.ON LedStatuses.BLINK LedStatuses.ON)
      (mkStudioLedStatus LedStatuses.OFF LedStatuses.OFF LedStatuses.OFF)
      (mkStudioLedStatus LedStatuses.OFF LedStatuses.BLINK LedStatuses.BLINK) /\
  LedStatuses.BLINK = mkLedStatus LedState_BLINK 2 /\
  LedStatuses.BLINK_FAST = mkLedStatus LedState_BLINK 4.
Proof.
  split; [reflexivity|].
  split; [intros []; unfold States_members; set_solver|].
  split; [reflexivity|].
  split; [|repeat split].
  intros []; eexists; (split; [reflexivity|]); reflexivity.
Qed.

(** ** Button events (dispatcher) *)

(** The suffix the loop computes is the one of the rule. *)
Lemma append_of_spec (d : Dispatcher) (event : ButtonEvent) :
  (fun suffix => Button_name (button event) +:+ suffix) <$> append_of d event
  = spec_trigger (_x d) (_y d) event.
Proof.
  unfold append_of, spec_trigger.
  destruct (_x d) as [sx|]; [|reflexivity].
  rewrite (bool_decide_eq_false_2 (Some sx = None)) by discriminate.
  destruct (decide (sx = studio event)) as [->|Hx].
  - rewrite !bool_decide_eq_true_2 by reflexivity. reflexivity.
  - rewrite (bool_decide_eq_false_2 (sx = _)) by assumption.
    rewrite (bool_decide_eq_false_2 (Some sx = _)) by congruence.
    destruct (_y d) as [sy|].
    + destruct (decide (sy = studio event)) as [->|Hy].
      * rewrite !bool_decide_eq_true_2; [reflexivity|right; reflexivity|reflexivity].
      * rewrite (bool_decide_eq_false_2 (sy = _)) by assumption.
        rewrite bool_decide_eq_false_2; [reflexivity|].
        intros [?|?]; congruence.
    + rewrite bool_decide_eq_true_2; [reflexivity|left; reflexivity].
Qed.

(** C2.  A turn of the button-event loop maps the event by the rule of the
    specification: the X trigger (button name and "_X") if x is unset or is
    the studio of the event, else the Y trigger (button name and "_Y") if y
    is unset or is the studio of the event; that trigger and no other is
    given to the machine.  In the remaining case the machine is not
    triggered: the turn only audits the state and refreshes the LEDs. *)
Theorem button_event_is_mapped_by_the_rule
    (machine_trigger : string -> option ButtonEvent -> D unit)
    (event : ButtonEvent) (d : Dispatcher) (w : world) :
  _process_studio_button_events machine_trigger event (d, w) =
    match spec_trigger (_x d) (_y d) event with
    | Some trigger_name =>
        (try_except (machine_trigger trigger_name (Some event)) except_MachineError ;;;
         _audit_state ;;; _assure_led_status) (d, w)
    | None => (_audit_state ;;; _assure_led_status) (d, w)
    end.
Proof.
  rewrite <- append_of_spec.
  unfold _process_studio_button_events.
  unfold bind at 1. unfold self at 1, read at 1. cbn [fst].
  destruct (append_of d event) as [suffix|]; reflexivity.
Qed.

(** ** Timers (dispatcher) *)

(** The two sibling starters leave a timer that is still running alone. *)
Lemma start_next_hour_timer_keeps_running (d : Dispatcher) (w : world) (t : nat) (tk : task) :
  _next_hour_timer d = Some t -> tasks w !! t = Some tk -> done tk = false ->
  _start_next_hour_timer (d, w) = (Ok tt, (d, w)).
Proof.
  intros Ht Hl Hd. unfold _start_next_hour_timer, bind, self, read, task_done, ret.
  cbn [fst snd]. rewrite Ht. cbn. rewrite Hl, Hd. reflexivity.
Qed.

(** Likewise the immediate-state timer. *)
Lemma start_immediate_state_timer_keeps_running
    (d : Dispatcher) (w : world) (t : nat) (tk : task) :
  _immediate_state_timer d = Some t -> tasks w !! t = Some tk -> done tk = false ->
  _start_immediate_state_timer (d, w) = (Ok tt, (d, w)).
Proof.
  intros Ht Hl Hd. unfold _start_immediate_state_timer, bind, self, read, task_done, ret.
  cbn [fst snd]. rewrite Ht. cbn. rewrite Hl, Hd. reflexivity.
Qed.

(** C1 (what the code does).  [_start_immediate_release_timer] called while
    an immediate-release timer task exists and has not completed does not
    leave it alone: a new task is created on the loop and stored in its
    place (the old one is not cancelled either). *)
Theorem start_immediate_release_timer_restarts
    (d : Dispatcher) (w : world) (t : nat) (tk : task) :
  _immediate_release_timer d = Some t -> tasks w !! t = Some tk -> done tk = false ->
  _start_immediate_release_timer (d, w) =
    (Ok tt,
     (set_immediate_release_timer (Some (length (tasks w))) d,
      set_tasks (fun ts => ts ++ [Task Dispatcher_immediate_release_timer Scheduled]) w))
  /\ _immediate_release_timer (fst (snd (_start_immediate_release_timer (d, w))))
     <> Some t.
Proof.
  intros Ht Hl Hd.
  assert (E : _start_immediate_release_timer (d, w) =
    (Ok tt,
     (set_immediate_release_timer (Some (length (tasks w))) d,
      set_tasks (fun ts => ts ++ [Task Dispatcher_immediate_release_timer Scheduled]) w))).
  { unfold _start_immediate_release_timer, bind, self, read, task_done, ret.
    cbn [fst snd]. rewrite Ht. cbn. rewrite Hl, Hd. reflexivity. }
  split; [exact E|].
  rewrite E. cbn [fst snd _immediate_release_timer set_immediate_release_timer].
  apply lookup_lt_Some in Hl. intros [= E']. lia.
Qed.

Lemma start_immediate_release_timer_restarts_witness :
  _immediate_release_timer
    (fst (snd (_start_immediate_release_timer (releasing_dispatcher, releasing_world))))
  = Some 1%nat /\
  _immediate_release_timer
    (fst (snd (_start_immediate_release_timer (releasing_dispatcher, releasing_world))))
  <> Some 0%nat.
Proof.
  pose proof (start_immediate_release_timer_restarts releasing_dispatcher releasing_world
                0%nat (Task Dispatcher_immediate_release_timer Scheduled)
                eq_refl eq_refl eq_refl) as [E N].
  split; [rewrite E; reflexivity | exact N].
Defined.

(** The same on a transition from studio_X_on_air_immediate_release to
    itself: the callbacks around the change of state keep the token's timer
    through [_before_state_change] and replace it in [_after_state_change]. *)
Example release_timer_replaced_on_transition :
  let dest := Some (state_name STUDIO_X_ON_AIR_IMMEDIATE_RELEASE) in
  let after := snd ((_before_state_change "IMMEDIATE_X" None dest ;;;
                     _after_state_change dest) (releasing_dispatcher, releasing_world)) in
  _immediate_release_timer (fst after) = Some 1%nat /\
  tasks (snd after) = [Task Dispatcher_immediate_release_timer Scheduled;
                       Task Dispatcher_immediate_release_timer Scheduled].
Proof. split; reflexivity. Qed.

(** ** The next full hour (dispatcher) *)

(** C7 (what the code does).  For [now] = 2020-01-01 12:30:15.500000 the
    result is the timestamp of 13:00:00.500000, which is half a second past
    the full hour: [replace] resets the minute and the second and keeps the
    microsecond. *)
Theorem calc_next_hour_timestamp_keeps_microsecond (utcoffset : Z) (clock : datetime) :
  calc_next_hour_timestamp utcoffset clock 0 0 (Some half_past_twelve)
  = Ok (timestamp utcoffset (mkDatetime 737425 13 0 0 500000))
  /\ timestamp utcoffset (mkDatetime 737425 13 0 0 500000) mod 1000000 = 500000.
Proof.
  split.
  - unfold calc_next_hour_timestamp.
    change (replace 0 0 half_past_twelve) with (Ok (mkDatetime 737425 12 0 0 500000)).
    cbv beta iota zeta.
    change (add_hours 1 (mkDatetime 737425 12 0 0 500000))
      with (Ok (mkDatetime 737425 13 0 0 500000)).
    cbv beta iota zeta.
    rewrite (proj2 (Z.ltb_ge _ _)); [reflexivity|].
    unfold timestamp, half_past_twelve. cbn [ordinal hour minute second microsecond]. lia.
  - unfold timestamp. cbn [ordinal hour minute second microsecond].
    rewrite Z.add_comm, Z.mod_add by lia. reflexivity.
Qed.

(** In general the sub-second part of the result is the one of [now]. *)
Lemma calc_next_hour_timestamp_subsecond
    (utcoffset : Z) (clock now : datetime) (ts : Z) :
  0 <= microsecond now < 1000000 ->
  calc_next_hour_timestamp utcoffset clock 0 0 (Some now) = Ok ts ->
  ts mod 1000000 = microsecond now.
Proof.
  intros Hus. unfold calc_next_hour_timestamp.
  change (replace 0 0 now) with (Ok (mkDatetime (ordinal now) (hour now) 0 0 (microsecond now))).
  cbv beta iota zeta. unfold add_hours.
  cbn [ordinal hour minute second microsecond].
  destruct (_ && _) eqn:Hday; [|discriminate].
  assert (Hmod : forall a, (a * 1000000 + microsecond now) mod 1000000 = microsecond now).
  { intros a. rewrite Z.add_comm, Z.mod_add by lia. apply Z.mod_small. lia. }
  unfold timestamp. cbn [ordinal hour minute second microsecond].
  destruct (3600 * 1000000 <? _); intros [= <-].
  - match goal with |- (?a * 1000000 + ?b - ?c) mod _ = _ =>
      replace (a * 1000000 + b - c) with ((a - 3600) * 1000000 + b) by lia end.
    apply Hmod.
  - apply Hmod.
Qed.

(** ** The controller cache (SymNet.py) *)

(** Scheduling tasks one after the other appends them in that order. *)
Lemma set_tasks_set_tasks (f g : list task -> list task) (w : world) :
  set_tasks f (set_tasks g w) = set_tasks (fun ts => f (g ts)) w.
Proof. reflexivity. Qed.

Lemma create_tasks_spec (cs : list coroutine) (w : world) :
  create_tasks cs w
  = (Ok tt, set_tasks (fun ts => ts ++ ((fun c => Task c Scheduled) <$> cs)) w).
Proof.
  revert w. induction cs as [|c cs IH]; intros w.
  - destruct w. unfold create_tasks, ret, set_tasks. cbn. rewrite app_nil_r. reflexivity.
  - cbn [create_tasks]. unfold bind, create_task. rewrite IH, set_tasks_set_tasks.
    destruct w. unfold set_tasks. cbn. rewrite <- app_assoc. reflexivity.
Qed.

(** What [_set_raw_value] does to the world. *)
Lemma _set_raw_value_spec (cn value : Z) (c : SymNetController) (w : world) :
  controllers w !! cn = Some c -> controller_number c = cn ->
  _set_raw_value cn value w
  = (Ok tt, set_tasks (fun ts => ts ++ notifications c value)
              (set_controllers <[cn := cached c value (loop_time w)]> w)).
Proof.
  intros Hc Hn. subst cn. unfold _set_raw_value, bind, get_controller. rewrite Hc.
  unfold read, modify, notifications.
  destruct (bool_decide (raw_value c <> value)).
  - rewrite create_tasks_spec. rewrite <- list_fmap_compose. reflexivity.
  - unfold ret. destruct w. unfold set_tasks, set_controllers. cbn.
    rewrite app_nil_r. reflexivity.
Qed.

(** A pushed state of a known controller goes to its [_set_raw_value]. *)
Lemma _process_push_messages_spec
    (cn value : Z) (q : list SymNetRawControllerState) (c : SymNetController) (w : world) :
  state_queue w = ControllerState cn value :: q ->
  controllers w !! cn = Some c -> controller_number c = cn ->
  _process_push_messages w
  = (Ok (Some tt),
     set_tasks (fun ts => ts ++ notifications c value)
       (set_controllers <[cn := cached c value (loop_time w)]>
          (set_state_queue (fun _ => q) w))).
Proof.
  intros Hq Hc Hn. unfold _process_push_messages, bind, read. rewrite Hq. unfold modify.
  cbn [controllers set_state_queue]. rewrite Hc.
  rewrite bool_decide_eq_true_2 by eauto.
  rewrite (_set_raw_value_spec cn value c) by assumption. reflexivity.
Qed.

(** C8.  [_set_raw_value(v)] on a controller whose stored raw value differs
    from [v] schedules one task per registered observer, each with the old
    value and [v], and nothing else; when [v] is the stored value it
    schedules nothing.  So a second [_set_raw_value(v)], and likewise a
    second push of the same ControllerState, schedules nothing: at most one
    call per registration. *)
Theorem set_raw_value_notifies_once
    (cn value : Z) (c : SymNetController) (w : world) :
  controllers w !! cn = Some c -> controller_number c = cn ->
  let once := _set_raw_value cn value w in
  let twice := _set_raw_value cn value (snd once) in
  fst once = Ok tt /\ fst twice = Ok tt /\
  (raw_value c <> value ->
     tasks (snd once) = tasks w ++
       ((fun clb => Task (observer_call clb cn (raw_value c) value) Scheduled)
          <$> observer c)) /\
  (raw_value c = value -> tasks (snd once) = tasks w) /\
  tasks (snd twice) = tasks (snd once) /\
  (forall q, state_queue w = ControllerState cn value :: ControllerState cn value :: q ->
     let pushed := snd (_process_push_messages w) in
     let pushed_again := snd (_process_push_messages pushed) in
     tasks pushed = tasks (snd once) /\ tasks pushed_again = tasks pushed).
Proof.
  intros Hc Hn once twice.
  assert (E1 : once = (Ok tt, set_tasks (fun ts => ts ++ notifications c value)
              (set_controllers <[cn := cached c value (loop_time w)]> w)))
    by (apply _set_raw_value_spec; assumption).
  assert (Hc' : forall w1, controllers w1 = <[cn := cached c value (loop_time w)]> (controllers w) ->
            _set_raw_value cn value w1
            = (Ok tt, set_tasks (fun ts => ts ++ [])
                        (set_controllers
                           <[cn := cached (cached c value (loop_time w)) value (loop_time w1)]> w1))).
  { intros w1 Hw1.
    rewrite (_set_raw_value_spec cn value (cached c value (loop_time w)) w1).
    - unfold notifications. cbn [raw_value cached].
      rewrite bool_decide_eq_false_2 by (intros N; apply N; reflexivity). reflexivity.
    - rewrite Hw1. apply lookup_insert_eq.
    - exact Hn. }
  assert (E2 : tasks (snd twice) = tasks (snd once)).
  { unfold twice. rewrite Hc' by (rewrite E1; reflexivity).
    cbn [snd]. destruct (snd once). cbn. apply app_nil_r. }
  split; [rewrite E1; reflexivity|].
  split; [unfold twice; rewrite Hc' by (rewrite E1; reflexivity); reflexivity|].
  split; [|split; [|split; [exact E2|]]].
  - intros Hne. rewrite E1. cbn [snd]. unfold notifications.
    rewrite bool_decide_eq_true_2 by assumption. rewrite Hn. reflexivity.
  - intros He. rewrite E1. cbn [snd]. unfold notifications.
    rewrite bool_decide_eq_false_2 by (intros N; apply N; assumption).
    destruct w. cbn. apply app_nil_r.
  - intros q Hq pushed pushed_again.
    assert (P1 : _process_push_messages w
                 = (Ok (Some tt),
                    set_tasks (fun ts => ts ++ notifications c value)
                      (set_controllers <[cn := cached c value (loop_time w)]>
                         (set_state_queue (fun _ => ControllerState cn value :: q) w))))
      by (apply _process_push_messages_spec; assumption).
    assert (T1 : tasks pushed = tasks (snd once)).
    { unfold pushed. rewrite P1, E1. reflexivity. }
    split; [exact T1|].
    unfold pushed_again, pushed. rewrite P1. cbn [snd].
    rewrite (_process_push_messages_spec cn value q (cached c value (loop_time w))).
    + unfold notifications. cbn [raw_value cached snd].
      rewrite bool_decide_eq_false_2 by (intros N; apply N; reflexivity).
      cbn. apply app_nil_r.
    + reflexivity.
    + cbn [controllers set_tasks set_controllers set_state_queue]. apply lookup_insert_eq.
    + exact Hn.
Qed.

Lemma set_raw_value_notifies_once_witness :
  tasks (snd (_set_raw_value 7 43690 observed_world))
  = [Task (observer_call (foreign_callable 1) 7 0 43690) Scheduled;
     Task (observer_call Dispatcher_set_current_state 7 0 43690) Scheduled]
  /\ tasks (snd (_set_raw_value 7 43690 (snd (_set_raw_value 7 43690 observed_world))))
     = tasks (snd (_set_raw_value 7 43690 observed_world)).
Proof.
  pose proof (set_raw_value_notifies_once 7 43690 observed_selector observed_world
                eq_refl eq_refl) as (_ & _ & Hchanged & _ & Htwice & _).
  split; [apply Hchanged; discriminate | exact Htwice].
Defined.

(** ** Persistence (dispatcher) *)

(** C9.  [load] returns normally, with the dispatcher untouched and one
    record logged, when the state file cannot be opened or read (an IOError:
    a warning for errno 2, the missing file, and critical otherwise) and
    when its content is not JSON (JSONDecodeError: critical). *)
Theorem load_survives_missing_and_malformed_file
    (machine_trigger : string -> option ButtonEvent -> D unit)
    (Studio_names : gmap string Studio)
    (open_file : string -> result string) (json_loads : string -> result json)
    (d : Dispatcher) (w : world) (e : exn) :
  (open_file (file_path d) = Raise e \/
   exists text, open_file (file_path d) = Ok text /\ json_loads text = Raise e) ->
  (forall errno, e = IOError errno ->
     load machine_trigger Studio_names open_file json_loads (d, w)
     = (Ok tt, (d, set_log (fun records =>
                  records ++ [could_load (if errno =? 2 then WARNING else CRITICAL) e]) w)))
  /\ (e = JSONDecodeError ->
     load machine_trigger Studio_names open_file json_loads (d, w)
     = (Ok tt, (d, set_log (fun records => records ++ [could_load CRITICAL e]) w))).
Proof.
  intros Hfail.
  assert (Hbody : load_body machine_trigger Studio_names open_file json_loads (d, w)
                  = (Raise e, (d, w))).
  { unfold load_body, bind, self, read, lift. cbn [fst].
    destruct Hfail as [Ho | (text & Ho & Hj)]; rewrite Ho; [reflexivity|].
    rewrite Hj. reflexivity. }
  split.
  - intros errno ->. unfold load, try_except. rewrite Hbody.
    destruct (errno =? 2); reflexivity.
  - intros ->. unfold load, try_except. rewrite Hbody. reflexivity.
Qed.

Lemma load_survives_missing_and_malformed_file_witness :
  load (fun _ _ => ret tt) ∅ (fun _ => Raise (IOError 2)) (fun _ => Raise JSONDecodeError)
    (releasing_dispatcher, releasing_world)
  = (Ok tt, (releasing_dispatcher,
             set_log (fun records => records ++ [could_load WARNING (IOError 2)])
               releasing_world)).
Proof.
  exact (proj1 (load_survives_missing_and_malformed_file
                  (fun _ _ => ret tt) ∅ (fun _ => Raise (IOError 2))
                  (fun _ => Raise JSONDecodeError)
                  releasing_dispatcher releasing_world (IOError 2)
                  (or_introl eq_refl)) 2 eq_refl).
Defined.

(** What [load] does not catch goes to the caller: a file that holds JSON
    but no object with the keys x, y and state raises TypeError. *)
Example load_raises_on_other_json :
  fst (load (fun _ _ => ret tt) ∅ (fun _ => Ok "[]") (fun _ => Ok (JArray []))
         (releasing_dispatcher, releasing_world))
  = Raise TypeError.
Proof. reflexivity. Qed.

(** ** The datagram handler (SymNet.py) *)

(** Both callbacks raise when they get no match object. *)
Lemma call_without_match (f : callback_fn) (data : string) (w : world) :
  call f data None w = (Raise (refusal f), w).
Proof. destruct f; reflexivity. Qed.

Lemma callback_without_match (callback_obj : SymNetRawProtocolCallback) (data : string)
    (w : world) :
  futures w !! future callback_obj = Some PENDING ->
  callback callback_obj data None w
  = (Ok tt, set_futures
              <[future callback_obj := FINISHED (Raise (refusal (_callback callback_obj)))]> w).
Proof.
  intros Hp. unfold callback, try_except, bind. rewrite call_without_match.
  unfold set_exception, set_outcome. rewrite Hp. reflexivity.
Qed.

(** The body NAK, CR has the one line NAK. *)
Lemma lone_NAK : nonempty_lines ("NAK" +:+ cr) = ["NAK"].
Proof. reflexivity. Qed.

(** A lone NAK goes to the head of a non-empty queue. *)
Lemma lone_NAK_taken_by_head (callback_obj : SymNetRawProtocolCallback)
    (queue : list SymNetRawProtocolCallback) (w : world) :
  callback_queue w = callback_obj :: queue ->
  futures w !! future callback_obj = Some PENDING ->
  datagram_received ("NAK" +:+ cr) w
  = (Ok tt,
     set_callback_queue (fun _ => queue)
       (set_futures
          <[future callback_obj := FINISHED (Raise (refusal (_callback callback_obj)))]>
          w)).
Proof.
  intros Hq Hp.
  unfold datagram_received. rewrite lone_NAK.
  unfold bind at 1. unfold read at 1. rewrite Hq.
  change (bool_decide (0 < length (callback_obj :: queue))%nat) with true.
  cbv beta iota. unfold bind at 1. cbn [iterate_callbacks].
  change (lone "NAK" ["NAK"]) with true. cbv beta iota.
  unfold bind at 1. rewrite callback_without_match by assumption.
  unfold bind at 1. unfold remove.
  cbn [callback_queue set_futures]. rewrite Hq. cbn [list_remove].
  rewrite Nat.eqb_refl. reflexivity.
Qed.

(** C3.  The datagram "NAK\r" (one non-empty line, NAK): when callbacks are
    pending, the head one is called with the body and no match, which
    rejects its future, and is removed from the queue, whatever its pattern
    or line count; nothing else changes.  When none is pending the datagram
    is logged as an error and nothing else changes. *)
Theorem lone_NAK_fails_the_head_callback (w : world) :
  (forall callback_obj queue,
     callback_queue w = callback_obj :: queue ->
     futures w !! future callback_obj = Some PENDING ->
     datagram_received ("NAK" +:+ cr) w
     = (Ok tt,
        set_callback_queue (fun _ => queue)
          (set_futures
             <[future callback_obj := FINISHED (Raise (refusal (_callback callback_obj)))]>
             w)))
  /\ (callback_queue w = [] ->
      datagram_received ("NAK" +:+ cr) w
      = (Ok tt,
         set_log (fun records =>
           records ++ [LogRecord ERROR "Uncaught NAK - this is probably a huge error" []]) w)).
Proof.
  split.
  - intros callback_obj queue. apply lone_NAK_taken_by_head.
  - intros Hq. unfold datagram_received. rewrite lone_NAK.
    unfold bind at 1. unfold read at 1. rewrite Hq. reflexivity.
Qed.

Lemma lone_NAK_fails_the_head_callback_witness :
  datagram_received ("NAK" +:+ cr) waiting_world
  = (Ok tt,
     World 0 [] [FINISHED (Raise (Exception "Error executing GS2 command, controller 42"))]
       [] [] [] ["GS2 42" +:+ cr] ∅).
Proof.
  exact (proj1 (lone_NAK_fails_the_head_callback waiting_world)
           pending_request [] eq_refl eq_refl).
Defined.

(** *** Pushed lines *)

(** What the class [0-9] lets through is a digit for [int], and no sign. *)
Lemma in_range_digit (c : ascii) :
  in_range "0" "9" c = true -> is_digit c = true /\ Ascii.eqb c "-" = false.
Proof.
  destruct c as [[] [] [] [] [] [] [] []]; intros H; try discriminate H; split; reflexivity.
Qed.

Lemma digits_value_all_digits (s : string) (acc : Z) :
  all_digits s = true -> exists v, digits_value acc s = Some v.
Proof.
  revert acc. induction s as [|c s IH]; intros acc H; cbn [digits_value].
  - eauto.
  - cbn [all_digits] in H. apply andb_prop in H as [Hc Hs]. rewrite Hc. apply IH, Hs.
Qed.

Lemma py_int_digits (c : ascii) (s : string) :
  is_digit c = true -> all_digits s = true -> exists v, py_int (String c s) = Ok v.
Proof.
  intros Hc Hs. unfold py_int.
  destruct (Ascii.eqb c "-") eqn:E.
  - apply Ascii.eqb_eq in E. subst c. discriminate Hc.
  - destruct (digits_value_all_digits (String c s) 0) as [v Hv].
    + cbn [all_digits]. rewrite Hc, Hs. reflexivity.
    + rewrite Hv. eauto.
Qed.

Lemma py_int_minus_digits (c : ascii) (s : string) :
  is_digit c = true -> all_digits s = true -> exists v, py_int (String "-" (String c s)) = Ok v.
Proof.
  intros Hc Hs. unfold py_int. cbn [Ascii.eqb Bool.eqb].
  destruct (digits_value_all_digits (String c s) 0) as [v Hv].
  + cbn [all_digits]. rewrite Hc, Hs. reflexivity.
  + rewrite Hv. eauto.
Qed.

(** Walk the matcher along a line, one character at a time. *)
Ltac split_subject :=
  match goal with
  | |- context [match ?s with EmptyString => _ | String _ _ => _ end] =>
      is_var s; destruct s; cbn [run]
  | |- context [if in_range ?a ?b ?c then _ else _] =>
      let E := fresh "E" in destruct (in_range a b c) eqn:E; cbn [run]
  | |- context [if Ascii.eqb ?a ?c then _ else _] =>
      let E := fresh "E" in destruct (Ascii.eqb a c) eqn:E;
      [apply Ascii.eqb_eq in E; try subst c | ]; cbn [run]
  | |- None = Some _ -> _ => discriminate
  end.

Ltac digits_known :=
  cbn [all_digits];
  repeat match goal with H : is_digit ?c = true |- _ => rewrite H end;
  reflexivity.

Ltac captured_ints :=
  intros [= <-];
  cbn [int_group group List.find fst snd Nat.eqb fmap option_fmap option_map
       take_str String.length Nat.sub];
  repeat match goal with
         | H : in_range "0" "9" ?c = true |- _ => apply in_range_digit in H as [H _]
         end;
  match goal with
  | |- exists n v, py_int (String ?c ?s) = Ok n /\ py_int (String "-" (String ?c' ?s')) = Ok v =>
      destruct (py_int_digits c s) as [n Hn]; [assumption | digits_known |];
      destruct (py_int_minus_digits c' s') as [v Hv]; [assumption | digits_known |];
      exists n, v; split; assumption
  | |- exists n v, py_int (String ?c ?s) = Ok n /\ py_int (String ?c' ?s') = Ok v =>
      destruct (py_int_digits c s) as [n Hn]; [assumption | digits_known |];
      destruct (py_int_digits c' s') as [v Hv]; [assumption | digits_known |];
      exists n, v; split; assumption
  end.

(** Both groups of a match of the push pattern are texts [int] accepts. *)
Lemma push_match_ints (line : string) (m : Match) :
  re_match push_regex line = Some m ->
  exists n v, int_group m 1 = Ok n /\ int_group m 2 = Ok v.
Proof.
  unfold re_match, push_regex. cbn [run Nat.eqb Nat.pred].
  repeat split_subject; captured_ints.
Qed.

(** The same walk with the parser of the specification beside the matcher. *)
Ltac split_both :=
  match goal with
  | H : in_range _ _ "-" = true |- _ => discriminate H
  | H : in_range _ _ "010" = true |- _ => discriminate H
  | |- context [match ?s with EmptyString => _ | String _ _ => _ end] =>
      is_var s; destruct s; cbn [run take_digits at_end]
  | |- context [if in_range ?a ?b ?c then _ else _] =>
      let E := fresh "E" in destruct (in_range a b c) eqn:E; cbn [run take_digits at_end]
  | |- context [if Ascii.eqb ?a ?c then _ else _] =>
      let E := fresh "E" in destruct (Ascii.eqb a c) eqn:E;
      [apply Ascii.eqb_eq in E; try subst c | ]; cbn [run take_digits at_end]
  end.

Ltac digit_facts :=
  repeat match goal with
         | H : in_range "0" "9" ?c = true |- _ =>
             let D := fresh "D" in let M := fresh "M" in
             destruct (in_range_digit c H) as [D M]; clear H
         end.

Ltac read_ints :=
  digit_facts;
  cbn [int_group group List.find fst snd Nat.eqb fmap option_fmap option_map
       take_str String.length Nat.sub String.append];
  unfold py_int, number_of;
  repeat (cbn [digits_value Ascii.eqb Bool.eqb];
          repeat match goal with
                 | H : is_digit ?c = true |- _ => rewrite H
                 | H : Ascii.eqb ?c "-" = false |- _ => rewrite H
                 end);
  reflexivity.

(** The push pattern reads a line as the specification describes. *)
Lemma push_state_spec (line : string) : push_state line = spec_push_state line.
Proof.
  unfold push_state, spec_push_state, re_match, push_regex.
  cbn [run Nat.eqb Nat.pred take_digits].
  repeat split_both.
  all: try reflexivity.
  all: try congruence.
  all: read_ints.
Qed.

(** The loop over the lines: one put per push line, one error per other. *)
Lemma push_lines_spec (lines : list string) (w : world) :
  push_lines lines w
  = (Ok tt,
     set_tasks (fun ts => ts ++ (put_task <$> omap push_state lines))
       (set_log (fun records => records ++ (line_error <$> List.filter malformed lines)) w)).
Proof.
  revert w. induction lines as [|line lines IH]; intros w.
  - destruct w. unfold push_lines, ret, set_tasks, set_log. cbn.
    rewrite !app_nil_r. reflexivity.
  - cbn [push_lines List.filter omap list_omap]. unfold push_state at 1, malformed at 1.
    destruct (re_match push_regex line) as [m|] eqn:Hm.
    + destruct (push_match_ints line m Hm) as (n & v & Hn & Hv).
      unfold bind, lift, create_task. rewrite Hn, Hv, IH.
      destruct w. unfold set_tasks, set_log, put_task. cbn.
      rewrite <- app_assoc. reflexivity.
    + unfold bind, logger, modify. rewrite IH.
      destruct w. unfold set_tasks, set_log. cbn.
      rewrite <- app_assoc. reflexivity.
Qed.

(** A queue of callbacks that all decline takes nothing and changes nothing. *)
Lemma iterate_callbacks_declined (data_str : string) (lines : list string)
    (queue : list SymNetRawProtocolCallback) (w : world) :
  lone "NAK" lines = false ->
  forallb (declines data_str lines) queue = true ->
  iterate_callbacks data_str lines queue w = (Ok false, w).
Proof.
  intros Hnak. induction queue as [|callback_obj queue IH]; intros Hall.
  - reflexivity.
  - cbn [forallb] in Hall. apply andb_prop in Hall as [Hd Hrest].
    cbn [iterate_callbacks]. rewrite Hnak. unfold declines in Hd.
    destruct (regex callback_obj) as [r|].
    + destruct (re_match r data_str); [discriminate|]. apply IH, Hrest.
    + destruct (bool_decide _); [discriminate|]. apply IH, Hrest.
Qed.

Lemma omap_ready_put_tasks (items : list SymNetRawControllerState) :
  omap ready_put (put_task <$> items) = items.
Proof. induction items as [|i items IH]; [reflexivity|]. cbn. rewrite IH. reflexivity. Qed.

Lemma malformed_spec (line : string) : malformed line = no_push_line line.
Proof.
  unfold no_push_line. rewrite <- push_state_spec. unfold malformed, push_state.
  destruct (re_match push_regex line) as [m|] eqn:Hm; [|reflexivity].
  destruct (push_match_ints line m Hm) as (n & v & Hn & Hv).
  rewrite Hn, Hv. reflexivity.
Qed.

Lemma omap_push_state (lines : list string) :
  omap push_state lines = omap spec_push_state lines.
Proof.
  induction lines as [|line lines IH]; [reflexivity|].
  cbn [omap list_omap]. rewrite push_state_spec, IH. reflexivity.
Qed.

(** C5.  A datagram that no pending callback takes and that is not a lone
    ACK or NAK is read as pushed data: every non-empty line that is a push
    line ('#', five digits, '=', an optional '-', four or five digits, which
    is what the pattern matches) puts one ControllerState (controller
    number, signed value) on the push channel, in the order of the lines,
    and every other line puts nothing there and logs one error. *)
Theorem unconsumed_datagram_is_pushed (data_str : string) (w : world) :
  let lines := nonempty_lines data_str in
  forallb (declines data_str lines) (callback_queue w) = true ->
  lone "NAK" lines = false ->
  lone "ACK" lines = false ->
  datagram_received data_str w
  = (Ok tt,
     set_tasks (fun ts => ts ++ (put_task <$> omap spec_push_state lines))
       (set_log (fun records =>
                   records ++ (line_error <$> List.filter no_push_line lines)) w))
  /\ state_queue (run_put_tasks (snd (datagram_received data_str w)))
     = state_queue w ++ omap ready_put (tasks w) ++ omap spec_push_state lines
  /\ (forall line, line ∈ lines ->
        re_match push_regex line = None <-> spec_push_state line = None).
Proof.
  intros lines Hall Hnak Hack.
  assert (E : datagram_received data_str w
    = (Ok tt,
     set_tasks (fun ts => ts ++ (put_task <$> omap spec_push_state lines))
       (set_log (fun records =>
                   records ++ (line_error <$> List.filter no_push_line lines)) w))).
  { unfold datagram_received. fold lines.
    unfold bind at 1. unfold read at 1. cbv beta iota. unfold bind at 1.
    rewrite <- omap_push_state.
    rewrite <- (List.filter_ext malformed no_push_line malformed_spec).
    destruct (bool_decide (0 < length (callback_queue w))%nat).
    - rewrite iterate_callbacks_declined by assumption.
      rewrite Hnak, Hack. apply push_lines_spec.
    - unfold ret at 1. rewrite Hnak, Hack. apply push_lines_spec. }
  split; [exact E|]. split.
  - rewrite E. cbn [snd]. unfold run_put_tasks.
    destruct w. cbn. rewrite omap_app, omap_ready_put_tasks. reflexivity.
  - intros line _. pose proof (malformed_spec line) as Hm.
    unfold malformed, no_push_line in Hm.
    destruct (re_match push_regex line), (spec_push_state line);
      split; intros; congruence.
Qed.

Lemma unconsumed_datagram_is_pushed_witness :
  datagram_received ("#00042=17000" +:+ cr +:+ "#00043=-0001" +:+ cr) empty_world
  = (Ok tt,
     World 0 [put_task (ControllerState 42 17000); put_task (ControllerState 43 (-1))]
       [] [] [] [] [] ∅).
Proof.
  exact (proj1 (unconsumed_datagram_is_pushed
                  ("#00042=17000" +:+ cr +:+ "#00043=-0001" +:+ cr) empty_world
                  eq_refl eq_refl eq_refl)).
Defined.

(** The other example of the specification: a line that is not a push line
    yields no state and one logged error. *)
Example malformed_push_line :
  datagram_received ("#00042=abcd" +:+ cr) empty_world
  = (Ok tt, World 0 [] [] [line_error "#00042=abcd"] [] [] [] ∅).
Proof. reflexivity. Qed.

(** ** Rounding in binary64

    The operations of [SpecFloat], which the primitive floats obey: a
    mantissa is cut to 53 digits and rounded to nearest, ties to even. *)

(** *** Powers of two *)
Lemma pow2_pos (e : Z) : (0 < 2 ^ e)%Q.
Proof. apply Qpower_0_lt. reflexivity. Qed.

Lemma pow2_add (a b : Z) : (2 ^ (a + b) == 2 ^ a * 2 ^ b)%Q.
Proof. apply Qpower_plus. discriminate. Qed.

Lemma pow2_Z (n : Z) : 0 <= n -> (2 ^ n == inject_Z (2 ^ n))%Q.
Proof. intros Hn. rewrite Zpower_Qpower by exact Hn. reflexivity. Qed.

Lemma pow2_le (a b : Z) : a <= b -> (2 ^ a <= 2 ^ b)%Q.
Proof. intros H. apply Qpower_le_compat_l; [exact H|discriminate]. Qed.

Lemma pow2_le_inv (a b : Z) : (2 ^ a <= 2 ^ b)%Q -> a <= b.
Proof. intros H. apply (Qpower_le_compat_l_inv 2); [exact H|reflexivity]. Qed.

Lemma pow2_lt_inv (a b : Z) : (2 ^ a < 2 ^ b)%Q -> a < b.
Proof. intros H. apply (Qpower_lt_compat_l_inv 2); [exact H|reflexivity]. Qed.

(** The number of binary digits *)
Lemma digits2_pos_spec (m : positive) :
  2 ^ (Z.pos (digits2_pos m) - 1) <= Z.pos m < 2 ^ Z.pos (digits2_pos m).
Proof.
  induction m as [m IH|m IH|]; cbn [digits2_pos].
  - rewrite Pos2Z.inj_succ.
    replace (Z.succ (Z.pos (digits2_pos m)) - 1) with (Z.succ (Z.pos (digits2_pos m) - 1)) by lia.
    rewrite !Z.pow_succ_r by lia.
    change (Z.pos m~1) with (2 * Z.pos m + 1). lia.
  - rewrite Pos2Z.inj_succ.
    replace (Z.succ (Z.pos (digits2_pos m)) - 1) with (Z.succ (Z.pos (digits2_pos m) - 1)) by lia.
    rewrite !Z.pow_succ_r by lia.
    change (Z.pos m~0) with (2 * Z.pos m). lia.
  - cbn. lia.
Qed.

Lemma digits2_pos_unique (m : positive) (k : Z) :
  2 ^ (k - 1) <= Z.pos m < 2 ^ k -> Z.pos (digits2_pos m) = k.
Proof.
  intros [Hlo Hhi]. destruct (digits2_pos_spec m) as [Dlo Dhi].
  set (d := Z.pos (digits2_pos m)) in *.
  assert (Hd : 0 < d) by (unfold d; lia).
  assert (Hk : 0 < k).
  { destruct (Z_lt_le_dec 0 k) as [|Hk]; [assumption|].
    destruct (Z.eq_dec k 0) as [->|]; [cbn in Hhi; lia|].
    rewrite (Z.pow_neg_r 2 k) in Hhi by lia. lia. }
  assert (d - 1 < k).
  { apply (Z.pow_lt_mono_r_iff 2); lia. }
  assert (k - 1 < d).
  { apply (Z.pow_lt_mono_r_iff 2); lia. }
  lia.
Qed.

(** The digits of a mantissa, between powers of two in Q *)
Lemma digits2_pos_Q (m : positive) :
  (2 ^ (Z.pos (digits2_pos m) - 1) <= inject_Z (Z.pos m) /\
   inject_Z (Z.pos m) < 2 ^ Z.pos (digits2_pos m))%Q.
Proof.
  destruct (digits2_pos_spec m) as [Dlo Dhi].
  rewrite !pow2_Z by lia. split.
  - rewrite <- Zle_Qle. exact Dlo.
  - rewrite <- Zlt_Qlt. exact Dhi.
Qed.

Lemma located_ext (mrs : shr_record) (x y : Q) :
  (x == y)%Q -> located mrs x -> located mrs y.
Proof.
  intros E. unfold located. destruct (shr_r mrs), (shr_s mrs); rewrite E; trivial.
Qed.

Lemma located_bounds (mrs : shr_record) (x : Q) :
  located mrs x -> (inject_Z (shr_m mrs) <= x /\ x < inject_Z (shr_m mrs) + 1)%Q.
Proof.
  unfold located. destruct (shr_r mrs), (shr_s mrs); intros H; lra.
Qed.

Lemma inject_Z_xO (p : positive) : (inject_Z (Z.pos p~0) == 2 * inject_Z (Z.pos p))%Q.
Proof. change (Z.pos p~0) with (2 * Z.pos p). rewrite inject_Z_mult. reflexivity. Qed.

Lemma inject_Z_xI (p : positive) : (inject_Z (Z.pos p~1) == 2 * inject_Z (Z.pos p) + 1)%Q.
Proof.
  change (Z.pos p~1) with (2 * Z.pos p + 1). rewrite inject_Z_plus, inject_Z_mult. reflexivity.
Qed.

Lemma shr_1_located (mrs : shr_record) (x : Q) :
  0 <= shr_m mrs -> located mrs x ->
  0 <= shr_m (shr_1 mrs) /\ located (shr_1 mrs) (x * (1 # 2)).
Proof.
  destruct mrs as [m r s]. cbn [shr_m]. intros Hm H.
  destruct m as [|p|p]; [| |lia].
  - split; [cbn; destruct r, s; cbn; lia|].
    revert H. unfold located. destruct r, s; cbn [shr_1 shr_m shr_r shr_s orb];
      change (inject_Z 0) with 0%Q; intros H; lra.
  - destruct p as [p|p|].
    + split; [cbn; lia|]. revert H. unfold located.
      pose proof (inject_Z_xI p) as E.
      destruct r, s; cbn [shr_1 shr_m shr_r shr_s orb]; intros H; lra.
    + split; [cbn; lia|]. revert H. unfold located.
      pose proof (inject_Z_xO p) as E.
      destruct r, s; cbn [shr_1 shr_m shr_r shr_s orb]; intros H; lra.
    + split; [cbn; lia|]. revert H. unfold located.
      destruct r, s; cbn [shr_1 shr_m shr_r shr_s orb];
        change (inject_Z 0) with 0%Q; change (inject_Z 1) with 1%Q; intros H; lra.
Qed.

Lemma pow2_half : (2 ^ (-1) == 1 # 2)%Q.
Proof. reflexivity. Qed.

Lemma iter_shr_1_located (p : positive) : forall (mrs : shr_record) (x : Q),
  0 <= shr_m mrs -> located mrs x ->
  0 <= shr_m (SpecFloat.iter_pos shr_1 p mrs) /\
  located (SpecFloat.iter_pos shr_1 p mrs) (x * 2 ^ (- Z.pos p)).
Proof.
  induction p as [p IH|p IH|]; intros mrs x Hm H; cbn [SpecFloat.iter_pos].
  - destruct (shr_1_located mrs x Hm H) as [Hm1 H1].
    destruct (IH _ _ Hm1 H1) as [Hm2 H2].
    destruct (IH _ _ Hm2 H2) as [Hm3 H3].
    split; [exact Hm3|]. eapply located_ext; [|exact H3].
    replace (- Z.pos p~1) with (-1 + (- Z.pos p + - Z.pos p)) by lia.
    rewrite !pow2_add, pow2_half. ring.
  - destruct (IH _ _ Hm H) as [Hm2 H2].
    destruct (IH _ _ Hm2 H2) as [Hm3 H3].
    split; [exact Hm3|]. eapply located_ext; [|exact H3].
    replace (- Z.pos p~0) with (- Z.pos p + - Z.pos p) by lia.
    rewrite !pow2_add. ring.
  - destruct (shr_1_located mrs x Hm H) as [Hm1 H1].
    split; [exact Hm1|]. eapply located_ext; [|exact H1].
    rewrite <- pow2_half. reflexivity.
Qed.

Lemma inject_Z_gap (a b : Z) : (inject_Z a < inject_Z b)%Q -> (inject_Z a + 1 <= inject_Z b)%Q.
Proof.
  rewrite <- Zlt_Qlt. intros H. change 1%Q with (inject_Z 1).
  rewrite <- inject_Z_plus, <- Zle_Qle. lia.
Qed.

Lemma loc_of_shr_record_of_loc (m : Z) (l : location) :
  loc_of_shr_record (shr_record_of_loc m l) = l /\ shr_m (shr_record_of_loc m l) = m.
Proof. destruct l as [|[]]; split; reflexivity. Qed.

(** Rounding to nearest, ties to even, moves a located real by at most a
    half, and not at all when it is an integer. *)
Lemma round_nearest_even_located (mrs : shr_record) (x : Q) :
  located mrs x ->
  let m2 := round_nearest_even (shr_m mrs) (loc_of_shr_record mrs) in
  shr_m mrs <= m2 <= shr_m mrs + 1 /\
  (inject_Z m2 - x <= 1 # 2)%Q /\ (x - inject_Z m2 <= 1 # 2)%Q /\
  ((exists z : Z, x == inject_Z z)%Q -> (inject_Z m2 == x)%Q).
Proof.
  destruct mrs as [m r s]. unfold located. cbn [shr_m shr_r shr_s].
  assert (E1 : (inject_Z (m + 1) == inject_Z m + 1)%Q).
  { rewrite inject_Z_plus. reflexivity. }
  destruct r, s; cbn [loc_of_shr_record round_nearest_even]; intros H.
  - repeat split; try lia; try lra.
    intros [z Hz]. exfalso. rewrite Hz in H. destruct H as [H1 H2].
    assert (H3 : (inject_Z m < inject_Z z)%Q) by lra.
    apply inject_Z_gap in H3. lra.
  - destruct (Z.even m).
    + repeat split; try lia; try lra.
      intros [z Hz]. exfalso. rewrite Hz in H.
      assert (H3 : (inject_Z m < inject_Z z)%Q) by lra.
      apply inject_Z_gap in H3. lra.
    + repeat split; try lia; try lra.
      intros [z Hz]. exfalso. rewrite Hz in H.
      assert (H3 : (inject_Z m < inject_Z z)%Q) by lra.
      apply inject_Z_gap in H3. lra.
  - repeat split; try lia; try lra.
    intros [z Hz]. exfalso. rewrite Hz in H. destruct H as [H1 H2].
    apply inject_Z_gap in H1. lra.
  - repeat split; try lia; try lra.
Qed.

Lemma fexp_normal (k : Z) : -1021 <= k -> fexp prec emax k = k - 53.
Proof. intros H. unfold fexp, emin, prec, emax. lia. Qed.

Lemma shr_fexp_exact_small (m : positive) (e : Z) :
  Z.pos (digits2_pos m) <= 53 -> -1021 <= Z.pos (digits2_pos m) + e ->
  shr_fexp prec emax (Z.pos m) e loc_Exact = (Build_shr_record (Z.pos m) false false, e).
Proof.
  intros Hd He. unfold shr_fexp. cbn [Zdigits2]. rewrite fexp_normal by lia.
  cbn [shr_record_of_loc]. unfold shr.
  destruct (Z.pos (digits2_pos m) + e - 53 - e) eqn:E; try reflexivity. lia.
Qed.

Lemma pow2_0 : (2 ^ 0 == 1)%Q.
Proof. reflexivity. Qed.

(** The first shift of [binary_round_aux]: the mantissa is cut to 53 digits,
    and the real it stands for stays located. *)
Lemma shr_fexp_located (m : positive) (e : Z) (l : location) (x : Q) :
  located (shr_record_of_loc (Z.pos m) l) x ->
  -1021 <= Z.pos (digits2_pos m) + e ->
  exists mrs : shr_record,
    shr_fexp prec emax (Z.pos m) e l = (mrs, e + Z.max 0 (Z.pos (digits2_pos m) - 53)) /\
    0 <= shr_m mrs /\
    located mrs (x * 2 ^ (- Z.max 0 (Z.pos (digits2_pos m) - 53))) /\
    (Z.pos (digits2_pos m) <= 53 -> mrs = shr_record_of_loc (Z.pos m) l).
Proof.
  intros H He. unfold shr_fexp. cbn [Zdigits2]. rewrite fexp_normal by lia.
  set (d := Z.pos (digits2_pos m)) in *.
  replace (d + e - 53 - e) with (d - 53) by lia.
  assert (Hm : 0 <= shr_m (shr_record_of_loc (Z.pos m) l)).
  { rewrite (proj2 (loc_of_shr_record_of_loc _ _)). lia. }
  unfold shr. destruct (d - 53) as [|p|p] eqn:E.
  - exists (shr_record_of_loc (Z.pos m) l). cbn [Z.max Z.compare Z.opp].
    rewrite Z.add_0_r. repeat split; trivial.
    eapply located_ext; [|exact H]. rewrite pow2_0. ring.
  - destruct (iter_shr_1_located p _ _ Hm H) as [Hm' H'].
    exists (SpecFloat.iter_pos shr_1 p (shr_record_of_loc (Z.pos m) l)).
    replace (Z.max 0 (Z.pos p)) with (Z.pos p) by lia.
    repeat split; trivial. lia.
  - exists (shr_record_of_loc (Z.pos m) l).
    replace (Z.max 0 (Z.neg p)) with 0 by lia. cbn [Z.opp].
    rewrite Z.add_0_r. repeat split; trivial.
    eapply located_ext; [|exact H]. rewrite pow2_0. ring.
Qed.

Lemma near_scale (a b p : Q) : (0 <= p)%Q -> near a b -> near (a * p) (b * p).
Proof. unfold near. intros Hp [H1 H2]. split; nra. Qed.

Lemma near_refl (v : Q) : (0 <= v)%Q -> near v v.
Proof. unfold near, unit_roundoff. intros Hv. split; lra. Qed.

Lemma near_ext (a a' b b' : Q) : (a == a')%Q -> (b == b')%Q -> near a b -> near a' b'.
Proof. unfold near. intros -> ->. trivial. Qed.

Lemma pow2_1 : (2 ^ 1 == 2)%Q.
Proof. reflexivity. Qed.

Lemma pow2_52 : (2 ^ 52 == inject_Z 4503599627370496)%Q.
Proof. reflexivity. Qed.

Lemma pow2_53 : (2 ^ 53 == inject_Z 9007199254740992)%Q.
Proof. reflexivity. Qed.

(** The second shift of [binary_round_aux]: a rounded mantissa of 53 digits
    stays, and 2^53 becomes 2^52 with the exponent raised by one. *)
Lemma shr_fexp_second (m2 e : Z) :
  4503599627370496 <= m2 <= 9007199254740992 -> -1021 <= 53 + e ->
  exists (m' : positive) (e' : Z),
    shr_fexp prec emax m2 e loc_Exact = (Build_shr_record (Z.pos m') false false, e') /\
    e <= e' <= e + 1 /\
    Z.pos (digits2_pos m') = 53 /\
    (inject_Z (Z.pos m') * 2 ^ e' == inject_Z m2 * 2 ^ e)%Q.
Proof.
  intros Hm He. destruct (Z.eq_dec m2 9007199254740992) as [->|Hne].
  - exists 4503599627370496%positive, (e + 1). split; [|split; [lia|split; [reflexivity|]]].
    + unfold shr_fexp. change (Zdigits2 9007199254740992) with 54.
      rewrite fexp_normal by lia. replace (54 + e - 53 - e) with 1 by lia. reflexivity.
    + rewrite pow2_add, pow2_1.
      change (inject_Z 9007199254740992) with (2 * inject_Z 4503599627370496)%Q. ring.
  - destruct m2 as [|q|q]; try lia.
    assert (Hd : Z.pos (digits2_pos q) = 53).
    { apply digits2_pos_unique. change (2 ^ (53 - 1)) with 4503599627370496.
      change (2 ^ 53) with 9007199254740992. lia. }
    exists q, e. split; [|split; [lia|split; [exact Hd|reflexivity]]].
    apply shr_fexp_exact_small; lia.
Qed.

(** A mantissa of at most 53 digits that is exact is returned as it is. *)
Lemma binary_round_aux_exact (sx : bool) (m : positive) (e : Z) :
  Z.pos (digits2_pos m) <= 53 -> -1000 <= Z.pos (digits2_pos m) + e <= 900 ->
  binary_round_aux prec emax sx (Z.pos m) e loc_Exact = S754_finite sx m e.
Proof.
  intros Hd He. unfold binary_round_aux.
  rewrite shr_fexp_exact_small by lia.
  cbn [shr_m loc_of_shr_record round_nearest_even].
  rewrite shr_fexp_exact_small by lia. cbn [shr_m].
  destruct (Z.leb_spec e (emax - prec)) as [|H]; [reflexivity|].
  unfold emax, prec in H. lia.
Qed.

(** A mantissa of 53 digits or more is rounded to 53 digits, to nearest:
    the result is within [unit_roundoff] of the real, relatively, and is
    the real itself when that needs no more than 53 digits. *)
Lemma binary_round_aux_rounds (sx : bool) (m : positive) (e : Z) (l : location) (x : Q) :
  located (shr_record_of_loc (Z.pos m) l) x ->
  53 <= Z.pos (digits2_pos m) ->
  -1000 <= Z.pos (digits2_pos m) + e <= 900 ->
  exists (m' : positive) (e' : Z),
    binary_round_aux prec emax sx (Z.pos m) e l = S754_finite sx m' e' /\
    bounded prec emax m' e' = true /\
    near (inject_Z (Z.pos m') * 2 ^ e') (x * 2 ^ e) /\
    ((exists z : Z, x == inject_Z z * 2 ^ (Z.pos (digits2_pos m) - 53))%Q ->
     (inject_Z (Z.pos m') * 2 ^ e' == x * 2 ^ e)%Q).
Proof.
  intros H Hd He.
  destruct (shr_fexp_located m e l x H ltac:(lia)) as (mrs & Hs & Hm & Hloc & _).
  set (d := Z.pos (digits2_pos m)) in *.
  replace (Z.max 0 (d - 53)) with (d - 53) in * by lia.
  set (n := d - 53) in *. set (xs := (x * 2 ^ (- n))%Q) in *.
  destruct (round_nearest_even_located mrs xs Hloc) as (Hm2 & Hup & Hdown & Hint).
  set (m2 := round_nearest_even (shr_m mrs) (loc_of_shr_record mrs)) in *.
  pose proof (located_bounds _ _ Hloc) as [Hlo Hhi].
  pose proof (located_bounds _ _ H) as [Hlo0 Hhi0].
  rewrite (proj2 (loc_of_shr_record_of_loc _ _)) in Hlo0, Hhi0.
  destruct (digits2_pos_Q m) as [Dlo Dhi]. fold d in Dlo, Dhi.
  assert (Hx : (x < 2 ^ d)%Q).
  { rewrite pow2_Z in * by lia. apply inject_Z_gap in Dhi. lra. }
  pose proof (pow2_pos (- n)) as Hp.
  assert (E52 : (2 ^ 52 == 2 ^ (d - 1) * 2 ^ (- n))%Q).
  { rewrite <- pow2_add. replace (d - 1 + - n) with 52 by lia. reflexivity. }
  assert (E53 : (2 ^ 53 == 2 ^ d * 2 ^ (- n))%Q).
  { rewrite <- pow2_add. replace (d + - n) with 53 by lia. reflexivity. }
  assert (Hxs : (2 ^ 52 <= xs /\ xs < 2 ^ 53)%Q).
  { rewrite E52, E53. unfold xs. split; nra. }
  rewrite pow2_52, pow2_53 in Hxs. destruct Hxs as [Hxs1 Hxs2].
  assert (Hmrs : 4503599627370496 <= shr_m mrs + 1 /\ shr_m mrs < 9007199254740992).
  { split.
    - assert (H1 : (inject_Z 4503599627370496 < inject_Z (shr_m mrs + 1))%Q).
      { rewrite inject_Z_plus. change (inject_Z 1) with 1%Q. lra. }
      rewrite <- Zlt_Qlt in H1. lia.
    - assert (H1 : (inject_Z (shr_m mrs) < inject_Z 9007199254740992)%Q) by lra.
      rewrite <- Zlt_Qlt in H1. lia. }
  assert (Hm2' : 4503599627370496 <= m2 <= 9007199254740992).
  { split; [|lia].
    destruct (Z.eq_dec m2 (shr_m mrs)) as [E|]; [|lia].
    assert (4503599627370496 <= shr_m mrs); [|lia].
    assert (H1 : (inject_Z 4503599627370496 - 1 < inject_Z m2)%Q).
    { clear - Hxs1 Hdown. lra. }
    change 1%Q with (inject_Z 1) in H1. unfold Qminus in H1.
    rewrite <- inject_Z_opp, <- inject_Z_plus, <- Zlt_Qlt in H1. lia. }
  destruct (shr_fexp_second m2 (e + n) Hm2' ltac:(lia)) as (m' & e' & Hs2 & He' & Hd' & Hv).
  exists m', e'. unfold binary_round_aux. rewrite Hs. fold m2. rewrite Hs2. cbn [shr_m].
  assert (Ev : (x * 2 ^ e == xs * 2 ^ (e + n))%Q).
  { unfold xs. rewrite <- Qmult_assoc, <- pow2_add.
    replace (- n + (e + n)) with e by lia. reflexivity. }
  split; [|split; [|split]].
  - destruct (Z.leb_spec e' (emax - prec)) as [|H1]; [reflexivity|].
    unfold emax, prec in H1. lia.
  - unfold bounded, canonical_mantissa. rewrite Hd', fexp_normal by lia.
    apply andb_true_intro. split; [apply Z.eqb_eq; lia|].
    apply Z.leb_le. unfold emax, prec. lia.
  - apply (near_ext (inject_Z m2 * 2 ^ (e + n)) _ (xs * 2 ^ (e + n)) _);
      [symmetry; exact Hv|symmetry; exact Ev|].
    apply near_scale; [apply Qlt_le_weak, pow2_pos|].
    unfold near, unit_roundoff. clear - Hxs1 Hup Hdown.
    change (inject_Z 4503599627370496) with (4503599627370496 # 1)%Q in Hxs1.
    split; lra.
  - intros [z Hz]. rewrite Hv, Ev.
    assert (Exs : (xs == inject_Z z)%Q).
    { assert (Q1 : (2 ^ n * 2 ^ (- n) == 1)%Q).
      { rewrite <- pow2_add. replace (n + - n) with 0 by lia. reflexivity. }
      unfold xs. rewrite Hz.
      transitivity (inject_Z z * (2 ^ n * 2 ^ (- n)))%Q; [ring|rewrite Q1; ring]. }
    rewrite (Hint (ex_intro _ z Exs)). reflexivity.
Qed.

(** An exact mantissa, whatever its length. *)
Lemma binary_round_aux_Exact (sx : bool) (m : positive) (e : Z) :
  -1000 <= Z.pos (digits2_pos m) + e <= 900 ->
  exists (m' : positive) (e' : Z),
    binary_round_aux prec emax sx (Z.pos m) e loc_Exact = S754_finite sx m' e' /\
    (53 <= Z.pos (digits2_pos m) -> bounded prec emax m' e' = true) /\
    near (inject_Z (Z.pos m') * 2 ^ e') (inject_Z (Z.pos m) * 2 ^ e) /\
    (Z.pos (digits2_pos m) <= 53 \/
     (exists z : Z, inject_Z (Z.pos m) == inject_Z z * 2 ^ (Z.pos (digits2_pos m) - 53))%Q ->
     (inject_Z (Z.pos m') * 2 ^ e' == inject_Z (Z.pos m) * 2 ^ e)%Q).
Proof.
  intros He.
  assert (Hpos : (0 <= inject_Z (Z.pos m) * 2 ^ e)%Q).
  { pose proof (pow2_pos e). assert (0 < inject_Z (Z.pos m))%Q by reflexivity. nra. }
  destruct (Z_le_gt_dec 53 (Z.pos (digits2_pos m))) as [Hd|Hd].
  - destruct (binary_round_aux_rounds sx m e loc_Exact (inject_Z (Z.pos m)))
      as (m' & e' & Hr & Hb & Hn & Hx); [reflexivity|exact Hd|exact He|].
    exists m', e'. split; [exact Hr|split; [intros _; exact Hb|split; [exact Hn|]]].
    intros [Hd'|Hz]; [|exact (Hx Hz)].
    apply Hx. exists (Z.pos m). replace (Z.pos (digits2_pos m) - 53) with 0 by lia.
    rewrite pow2_0. ring.
  - exists m, e. rewrite binary_round_aux_exact by lia.
    split; [reflexivity|split; [lia|split; [apply near_refl; exact Hpos|]]].
    intros _. reflexivity.
Qed.

Lemma inject_Z_pos (m : positive) : (0 < inject_Z (Z.pos m))%Q.
Proof. reflexivity. Qed.

Lemma digits_lower (m : positive) (a : Z) :
  (2 ^ a <= inject_Z (Z.pos m))%Q -> a < Z.pos (digits2_pos m).
Proof.
  intros H. destruct (digits2_pos_Q m) as [_ Dhi].
  apply pow2_lt_inv. lra.
Qed.

Lemma digits_upper (m : positive) (b : Z) :
  (inject_Z (Z.pos m) < 2 ^ b)%Q -> Z.pos (digits2_pos m) <= b.
Proof.
  intros H. destruct (digits2_pos_Q m) as [Dlo _].
  assert (Z.pos (digits2_pos m) - 1 < b); [|lia].
  apply pow2_lt_inv. lra.
Qed.

(** The exponent of a value between two powers of two *)
Lemma digits_range (m : positive) (e lo hi : Z) :
  (2 ^ lo <= inject_Z (Z.pos m) * 2 ^ e)%Q -> (inject_Z (Z.pos m) * 2 ^ e <= 2 ^ hi)%Q ->
  lo < Z.pos (digits2_pos m) + e <= hi + 1.
Proof.
  intros Hlo Hhi. destruct (digits2_pos_Q m) as [Dlo Dhi].
  set (d := Z.pos (digits2_pos m)) in *.
  pose proof (pow2_pos e) as He. split.
  - apply pow2_lt_inv. rewrite (pow2_add d e). nra.
  - assert (d - 1 + e <= hi); [|lia].
    apply pow2_le_inv. rewrite (pow2_add (d - 1) e). nra.
Qed.

Lemma SF2Q_finite_nonneg (s : bool) (m : positive) (e : Z) :
  (0 <= SF2Q (S754_finite s m e))%Q -> s = false.
Proof.
  destruct s; [|reflexivity]. cbn [SF2Q]. intros H. exfalso.
  pose proof (pow2_pos e). pose proof (inject_Z_pos m). nra.
Qed.

Lemma SF2Q_finite_pos (m : positive) (e : Z) : (0 < SF2Q (S754_finite false m e))%Q.
Proof. cbn [SF2Q]. pose proof (pow2_pos e). pose proof (inject_Z_pos m). nra. Qed.

Lemma pow2_m20 : (2 ^ (-20) == 1 # 1048576)%Q.
Proof. reflexivity. Qed.

Lemma pow2_20 : (2 ^ 20 == 1048576)%Q.
Proof. reflexivity. Qed.

Lemma normal_pos (v : Q) : (0 < v)%Q -> normal v -> (2 ^ (-20) <= v /\ v <= 2 ^ 20)%Q.
Proof.
  intros Hv [H|H]; [lra|]. rewrite pow2_m20, pow2_20. exact H.
Qed.

Lemma near_zero_zero (q : Q) : (q == 0)%Q -> near 0 q.
Proof. intros H. unfold near, unit_roundoff. split; lra. Qed.

(** *** Multiplication *)
Lemma SFmul_near (x y : spec_float) :
  SF_finite x = true -> SF_finite y = true -> (0 <= SF2Q x)%Q -> (0 <= SF2Q y)%Q ->
  normal (SF2Q x * SF2Q y) ->
  SF_finite (SFmul prec emax x y) = true /\
  near (SF2Q (SFmul prec emax x y)) (SF2Q x * SF2Q y).
Proof.
  intros Fx Fy Hx Hy Hn.
  destruct x as [sx| | |sx mx ex]; try discriminate;
    destruct y as [sy| | |sy my ey]; try discriminate.
  - cbn [SFmul SF_finite SF2Q]. split; [reflexivity|apply near_zero_zero; ring].
  - cbn [SFmul SF_finite]. split; [reflexivity|].
    change (SF2Q (S754_zero (xorb sx sy))) with 0%Q. apply near_zero_zero.
    change (SF2Q (S754_zero sx)) with 0%Q. ring.
  - cbn [SFmul SF_finite]. split; [reflexivity|].
    change (SF2Q (S754_zero (xorb sx sy))) with 0%Q. apply near_zero_zero.
    change (SF2Q (S754_zero sy)) with 0%Q. ring.
  - apply SF2Q_finite_nonneg in Hx, Hy. subst sx sy.
    assert (Ev : (SF2Q (S754_finite false mx ex) * SF2Q (S754_finite false my ey)
                  == inject_Z (Z.pos (mx * my)) * 2 ^ (ex + ey))%Q).
    { cbn [SF2Q]. rewrite Pos2Z.inj_mul, inject_Z_mult, pow2_add. ring. }
    assert (Hv : (0 < SF2Q (S754_finite false mx ex) * SF2Q (S754_finite false my ey))%Q).
    { pose proof (SF2Q_finite_pos mx ex). pose proof (SF2Q_finite_pos my ey). nra. }
    destruct (normal_pos _ Hv Hn) as [Hlo Hhi]. rewrite Ev in Hlo, Hhi.
    pose proof (digits_range _ _ _ _ Hlo Hhi) as Hd.
    destruct (binary_round_aux_Exact false (mx * my) (ex + ey) ltac:(lia))
      as (m' & e' & Hr & _ & Hnear & _).
    cbn [SFmul xorb]. rewrite Hr. split; [reflexivity|].
    eapply near_ext; [| |exact Hnear]; [reflexivity|symmetry; exact Ev].
Qed.

(** *** Alignment and normalisation *)
Lemma iter_xO (m n : positive) : Z.pos (Pos.iter xO m n) = Z.pos m * 2 ^ Z.pos n.
Proof.
  induction n as [|n IH] using Pos.peano_ind.
  - cbn [Pos.iter]. change (Z.pos m~0) with (2 * Z.pos m). change (2 ^ 1) with 2. lia.
  - rewrite Pos.iter_succ, Pos2Z.inj_succ, Z.pow_succ_r by lia.
    change (Z.pos (Pos.iter xO m n)~0) with (2 * Z.pos (Pos.iter xO m n)).
    rewrite IH. ring.
Qed.

Lemma shl_align_spec (mx : positive) (ex ez : Z) :
  snd (shl_align mx ex ez) = Z.min ex ez /\
  Z.pos (fst (shl_align mx ex ez)) = Z.pos mx * 2 ^ (ex - Z.min ex ez).
Proof.
  unfold shl_align. destruct (ez - ex) as [|p|p] eqn:E; cbn [fst snd].
  - replace (Z.min ex ez) with ex by lia. rewrite Z.sub_diag. split; [reflexivity|].
    change (2 ^ 0) with 1. lia.
  - replace (Z.min ex ez) with ex by lia. rewrite Z.sub_diag. split; [reflexivity|].
    change (2 ^ 0) with 1. lia.
  - replace (Z.min ex ez) with ez by lia. split; [reflexivity|].
    rewrite iter_xO. f_equal. f_equal. lia.
Qed.

Lemma shl_align_value (mx : positive) (ex ez : Z) :
  (inject_Z (Z.pos (fst (shl_align mx ex ez))) * 2 ^ Z.min ex ez
   == inject_Z (Z.pos mx) * 2 ^ ex)%Q.
Proof.
  rewrite (proj2 (shl_align_spec mx ex ez)), inject_Z_mult, <- pow2_Z by lia.
  rewrite <- Qmult_assoc, <- pow2_add.
  replace (ex - Z.min ex ez + Z.min ex ez) with ex by lia. reflexivity.
Qed.

Lemma digits2_pos_shift (m m' : positive) (k : Z) :
  0 <= k -> Z.pos m' = Z.pos m * 2 ^ k ->
  Z.pos (digits2_pos m') = Z.pos (digits2_pos m) + k.
Proof.
  intros Hk E. apply digits2_pos_unique. rewrite E.
  destruct (digits2_pos_spec m) as [Dlo Dhi].
  replace (Z.pos (digits2_pos m) + k - 1) with (Z.pos (digits2_pos m) - 1 + k) by lia.
  rewrite !Z.pow_add_r by lia.
  assert (0 < 2 ^ k) by (apply Z.pow_pos_nonneg; lia). nia.
Qed.

Lemma binary_round_near (sx : bool) (m : positive) (e : Z) :
  -1000 <= Z.pos (digits2_pos m) + e <= 900 ->
  exists (m' : positive) (e' : Z),
    binary_round prec emax sx m e = S754_finite sx m' e' /\
    bounded prec emax m' e' = true /\
    near (inject_Z (Z.pos m') * 2 ^ e') (inject_Z (Z.pos m) * 2 ^ e) /\
    (Z.pos (digits2_pos m) <= 53 \/
     (exists z : Z, inject_Z (Z.pos m) * 2 ^ e
                    == inject_Z z * 2 ^ (Z.pos (digits2_pos m) + e - 53))%Q ->
     (inject_Z (Z.pos m') * 2 ^ e' == inject_Z (Z.pos m) * 2 ^ e)%Q).
Proof.
  intros He. unfold binary_round. rewrite fexp_normal by lia.
  set (d := Z.pos (digits2_pos m)) in *.
  destruct (shl_align_spec m e (d + e - 53)) as [E2 E1].
  pose proof (shl_align_value m e (d + e - 53)) as Ev.
  destruct (shl_align m e (d + e - 53)) as [mz ez]. cbn [fst snd] in *. subst ez.
  set (ez := Z.min e (d + e - 53)) in *.
  pose proof (digits2_pos_shift m mz (e - ez) ltac:(lia) E1) as Hdz. fold d in Hdz.
  destruct (binary_round_aux_Exact sx mz ez ltac:(lia)) as (m' & e' & Hr & Hb & Hn & Hx).
  exists m', e'. split; [exact Hr|split; [apply Hb; lia|split]].
  - eapply near_ext; [| |exact Hn]; [reflexivity|exact Ev].
  - intros Hz. rewrite <- Ev. apply Hx.
    destruct (Z_le_gt_dec d 53) as [Hd|Hd]; [left; lia|right].
    destruct Hz as [Hz|[z Hz]]; [lia|]. exists z.
    assert (Eez : ez = e) by lia.
    assert (Emz : mz = m).
    { apply Pos2Z.inj. rewrite E1, Eez, Z.sub_diag. change (2 ^ 0) with 1. lia. }
    rewrite Emz. fold d. replace (d + e - 53) with ((d - 53) + e) in Hz by lia.
    rewrite pow2_add, Qmult_assoc in Hz.
    apply Qmult_inj_r in Hz; [exact Hz|]. pose proof (pow2_pos e). lra.
Qed.

(** *** Addition *)
Lemma SFadd_near (x y : spec_float) :
  SF_finite x = true -> SF_finite y = true -> (0 <= SF2Q x)%Q -> (0 <= SF2Q y)%Q ->
  normal (SF2Q x + SF2Q y) ->
  SF_finite (SFadd prec emax x y) = true /\
  near (SF2Q (SFadd prec emax x y)) (SF2Q x + SF2Q y).
Proof.
  intros Fx Fy Hx Hy Hn.
  destruct x as [sx| | |sx mx ex]; try discriminate;
    destruct y as [sy| | |sy my ey]; try discriminate.
  - destruct sx, sy; cbn [SFadd SF_finite SF2Q]; (split; [reflexivity|apply near_zero_zero; ring]).
  - cbn [SFadd]. split; [reflexivity|].
    apply (near_ext (SF2Q (S754_finite sy my ey)) _ (SF2Q (S754_finite sy my ey)) _);
      [reflexivity|cbn [SF2Q]; ring|apply near_refl; exact Hy].
  - cbn [SFadd]. split; [reflexivity|].
    apply (near_ext (SF2Q (S754_finite sx mx ex)) _ (SF2Q (S754_finite sx mx ex)) _);
      [reflexivity|cbn [SF2Q]; ring|apply near_refl; exact Hx].
  - apply SF2Q_finite_nonneg in Hx, Hy. subst sx sy.
    cbn [SFadd cond_Zopp Z.add].
    set (ez := Z.min ex ey).
    set (ax := fst (shl_align mx ex ez)). set (ay := fst (shl_align my ey ez)).
    cbn [binary_normalize].
    assert (Ev : (inject_Z (Z.pos (ax + ay)) * 2 ^ ez
                  == SF2Q (S754_finite false mx ex) + SF2Q (S754_finite false my ey))%Q).
    { cbn [SF2Q]. rewrite Pos2Z.inj_add, inject_Z_plus.
      pose proof (shl_align_value mx ex ez) as E1.
      pose proof (shl_align_value my ey ez) as E2.
      replace (Z.min ex ez) with ez in E1 by (unfold ez; lia).
      replace (Z.min ey ez) with ez in E2 by (unfold ez; lia).
      fold ax in E1. fold ay in E2. rewrite <- E1, <- E2. ring. }
    assert (Hv : (0 < SF2Q (S754_finite false mx ex) + SF2Q (S754_finite false my ey))%Q).
    { pose proof (SF2Q_finite_pos mx ex). pose proof (SF2Q_finite_pos my ey). lra. }
    destruct (normal_pos _ Hv Hn) as [Hlo Hhi]. rewrite <- Ev in Hlo, Hhi.
    pose proof (digits_range _ _ _ _ Hlo Hhi) as Hd.
    destruct (binary_round_near false (ax + ay) ez ltac:(lia))
      as (m' & e' & Hr & _ & Hnear & _).
    change (binary_normalize prec emax (Z.pos ax + Z.pos ay) ez false)
      with (binary_round prec emax false (ax + ay) ez).
    rewrite Hr. split; [reflexivity|].
    eapply near_ext; [| |exact Hnear]; [reflexivity|exact Ev].
Qed.

(** *** Division *)
Lemma inject_Z_lt0 (z : Z) : 0 < z -> (0 < inject_Z z)%Q.
Proof. intros H. change 0%Q with (inject_Z 0). rewrite <- Zlt_Qlt. exact H. Qed.

Lemma inject_Z_le0 (z : Z) : 0 <= z -> (0 <= inject_Z z)%Q.
Proof. intros H. change 0%Q with (inject_Z 0). rewrite <- Zle_Qle. exact H. Qed.

Lemma new_location_located (my q r : Z) (xr : Q) :
  0 <= r < my -> (xr * inject_Z my == inject_Z (my * q + r))%Q ->
  located (shr_record_of_loc q (new_location my r)) xr.
Proof.
  intros Hr E. rewrite inject_Z_plus, inject_Z_mult in E.
  assert (HMY : (0 < inject_Z my)%Q) by (apply inject_Z_lt0; lia).
  assert (HR : (0 <= inject_Z r)%Q) by (apply inject_Z_le0; lia).
  assert (E' : ((xr - inject_Z q) * inject_Z my == inject_Z r)%Q) by lra.
  clear E. set (f := (xr - inject_Z q)%Q) in *.
  assert (Hxr : (xr == inject_Z q + f)%Q) by (unfold f; ring).
  assert (Hcmp : forall c, (2 * r ?= my) = c ->
            match c with
            | Lt => (2 * inject_Z r < inject_Z my)%Q
            | Eq => (2 * inject_Z r == inject_Z my)%Q
            | Gt => (inject_Z my < 2 * inject_Z r)%Q
            end).
  { intros c Hc. change 2%Q with (inject_Z 2). rewrite <- inject_Z_mult. destruct c.
    - apply Z.compare_eq_iff in Hc. rewrite Hc. reflexivity.
    - apply Z.compare_lt_iff in Hc. rewrite <- Zlt_Qlt. exact Hc.
    - apply Z.compare_gt_iff in Hc. rewrite <- Zlt_Qlt. exact Hc. }
  assert (Hlt : (inject_Z r < inject_Z my)%Q) by (rewrite <- Zlt_Qlt; lia).
  assert (Hzero : r = 0 -> (xr == inject_Z q)%Q).
  { intros ->. rewrite Hxr. change (inject_Z 0) with 0%Q in E'.
    assert (Hf : (f == 0)%Q).
    { apply (Qmult_inj_r _ _ (inject_Z my)); [lra|]. rewrite E'. ring. }
    lra. }
  assert (HR' : r <> 0 -> (0 < inject_Z r)%Q) by (intros; apply inject_Z_lt0; lia).
  unfold new_location, new_location_even, new_location_odd.
  destruct (Z.even my) eqn:Ev; cbv beta.
  - destruct (Z.eq_dec r 0) as [Hr0|Hr0].
    + rewrite (proj2 (Z.eqb_eq r 0) Hr0). exact (Hzero Hr0).
    + rewrite (proj2 (Z.eqb_neq r 0) Hr0). specialize (HR' Hr0).
      specialize (Hcmp _ eq_refl).
      destruct (2 * r ?= my); cbn [shr_record_of_loc]; unfold located; cbn [shr_m shr_r shr_s].
      * rewrite Hxr. apply Qplus_inj_l. apply (Qmult_inj_r _ _ (inject_Z my)); [lra|].
        rewrite E'. lra.
      * rewrite Hxr. split; nra.
      * rewrite Hxr. split; nra.
  - destruct (Z.eq_dec r 0) as [Hr0|Hr0].
    + rewrite (proj2 (Z.eqb_eq r 0) Hr0). exact (Hzero Hr0).
    + rewrite (proj2 (Z.eqb_neq r 0) Hr0). specialize (HR' Hr0).
      assert (Hodd : 2 * r <> my).
      { intros E. rewrite <- E, Z.even_mul in Ev. discriminate. }
      pose proof (Hcmp _ eq_refl) as Hc.
      destruct (2 * r + 1 ?= my) eqn:C.
      * apply (proj1 (Z.compare_eq_iff _ _)) in C.
        assert (C2 : (2 * r ?= my) = Lt) by (apply Z.compare_lt_iff; lia).
        rewrite C2 in Hc.
        cbn [shr_record_of_loc]; unfold located; cbn [shr_m shr_r shr_s].
        rewrite Hxr. split; nra.
      * apply (proj1 (Z.compare_lt_iff _ _)) in C.
        assert (C2 : (2 * r ?= my) = Lt) by (apply Z.compare_lt_iff; lia).
        rewrite C2 in Hc.
        cbn [shr_record_of_loc]; unfold located; cbn [shr_m shr_r shr_s].
        rewrite Hxr. split; nra.
      * apply (proj1 (Z.compare_gt_iff _ _)) in C.
        assert (C2 : (2 * r ?= my) = Gt) by (apply Z.compare_gt_iff; lia).
        rewrite C2 in Hc.
        cbn [shr_record_of_loc]; unfold located; cbn [shr_m shr_r shr_s].
        rewrite Hxr. split; nra.
Qed.

Lemma SF2Q_bounds (m : positive) (e : Z) :
  (2 ^ (Z.pos (digits2_pos m) - 1 + e) <= SF2Q (S754_finite false m e) /\
   SF2Q (S754_finite false m e) < 2 ^ (Z.pos (digits2_pos m) + e))%Q.
Proof.
  cbn [SF2Q]. destruct (digits2_pos_Q m). rewrite !pow2_add.
  pose proof (pow2_pos e). split; nra.
Qed.

Lemma shifted_mantissa (mx : positive) (s : Z) :
  0 <= s ->
  match s with
  | Z.pos _ => Z.shiftl (Z.pos mx) s
  | 0 => Z.pos mx
  | Z.neg _ => 0
  end = Z.pos mx * 2 ^ s.
Proof.
  intros Hs. destruct s as [|p|p]; [cbn; lia| |lia].
  rewrite Z.shiftl_mul_pow2 by lia. reflexivity.
Qed.

Lemma Qdiv_spec (a b : Q) : ~ (b == 0)%Q -> (a / b * b == a)%Q.
Proof. intros H. field. exact H. Qed.

Lemma SFdiv_near (x y : spec_float) :
  SF_finite x = true -> SF_finite y = true -> (0 <= SF2Q x)%Q -> (0 < SF2Q y)%Q ->
  normal (SF2Q x / SF2Q y) ->
  SF_finite (SFdiv prec emax x y) = true /\
  near (SF2Q (SFdiv prec emax x y)) (SF2Q x / SF2Q y).
Proof.
  intros Fx Fy Hx Hy Hn.
  destruct x as [sx| | |sx mx ex]; try discriminate;
    destruct y as [sy| | |sy my ey]; try discriminate;
    try (exfalso; cbn [SF2Q] in Hy; lra).
  - cbn [SFdiv]. split; [reflexivity|].
    change (SF2Q (S754_zero (xorb sx sy))) with 0%Q. apply near_zero_zero.
    change (SF2Q (S754_zero sx)) with 0%Q. unfold Qdiv. ring.
  - apply SF2Q_finite_nonneg in Hx. apply Qlt_le_weak in Hy.
    apply SF2Q_finite_nonneg in Hy. subst sx sy.
    set (vx := SF2Q (S754_finite false mx ex)) in *.
    set (vy := SF2Q (S754_finite false my ey)) in *.
    pose proof (SF2Q_finite_pos mx ex) as Hvx. fold vx in Hvx.
    pose proof (SF2Q_finite_pos my ey) as Hvy. fold vy in Hvy.
    destruct (SF2Q_bounds mx ex) as [Xlo Xhi]. fold vx in Xlo, Xhi.
    destruct (SF2Q_bounds my ey) as [Ylo Yhi]. fold vy in Ylo, Yhi.
    set (d1 := Z.pos (digits2_pos mx)) in *. set (d2 := Z.pos (digits2_pos my)) in *.
    assert (Ev : (vx / vy * vy == vx)%Q) by (apply Qdiv_spec; lra).
    set (v := (vx / vy)%Q) in *.
    assert (Hv : (0 < v)%Q) by nra.
    destruct (normal_pos _ Hv Hn) as [Hlo Hhi].
    assert (HD : -21 < d1 + ex - (d2 + ey) < 21).
    { split.
      - assert (-20 + (d2 - 1 + ey) < d1 + ex); [|lia].
        apply pow2_lt_inv. rewrite pow2_add. nra.
      - assert (d1 - 1 + ex < 20 + (d2 + ey)); [|lia].
        apply pow2_lt_inv. rewrite (pow2_add 20). pose proof (pow2_pos 20). nra. }
    cbn [SFdiv xorb]. unfold SFdiv_core_binary. cbn [Zdigits2]. fold d1 d2.
    rewrite (fexp_normal (d1 + ex - (d2 + ey))) by lia.
    set (e' := Z.min (d1 + ex - (d2 + ey) - 53) (ex - ey)).
    set (s := ex - ey - e').
    rewrite (shifted_mantissa mx s) by lia.
    pose proof (Z_div_mod (Z.pos mx * 2 ^ s) (Z.pos my) eq_refl) as Hdiv.
    destruct (Z.div_eucl (Z.pos mx * 2 ^ s) (Z.pos my)) as [q r].
    destruct Hdiv as [Hdiv Hr].
    set (xr := (inject_Z (Z.pos mx * 2 ^ s) / inject_Z (Z.pos my))%Q).
    assert (Exr : (xr * inject_Z (Z.pos my) == inject_Z (Z.pos mx * 2 ^ s))%Q).
    { apply Qdiv_spec. pose proof (inject_Z_pos my). lra. }
    assert (Hloc : located (shr_record_of_loc q (new_location (Z.pos my) r)) xr).
    { apply new_location_located; [exact Hr|]. rewrite <- Hdiv. exact Exr. }
    rewrite inject_Z_mult, <- pow2_Z in Exr by lia.
    destruct (digits2_pos_Q mx) as [Dxlo Dxhi]. fold d1 in Dxlo, Dxhi.
    destruct (digits2_pos_Q my) as [Dylo Dyhi]. fold d2 in Dylo, Dyhi.
    pose proof (inject_Z_pos mx) as HX. pose proof (inject_Z_pos my) as HY.
    pose proof (pow2_pos s) as Hs. pose proof (pow2_pos e') as He'.
    pose proof (pow2_pos d2) as Hd2.
    assert (Hxr0 : (0 < xr)%Q) by nra.
    assert (Hxr : (2 ^ 52 < xr)%Q).
    { assert (H1 : (2 ^ 52 * 2 ^ d2 <= 2 ^ (d1 - 1) * 2 ^ s)%Q).
      { rewrite <- !pow2_add. apply pow2_le. lia. }
      nra. }
    pose proof (located_bounds _ _ Hloc) as [Qlo Qhi].
    rewrite (proj2 (loc_of_shr_record_of_loc _ _)) in Qlo, Qhi.
    assert (Hq : 4503599627370496 <= q).
    { rewrite pow2_52 in Hxr.
      assert (H1 : (inject_Z 4503599627370496 < inject_Z (q + 1))%Q).
      { rewrite inject_Z_plus. change (inject_Z 1) with 1%Q. lra. }
      rewrite <- Zlt_Qlt in H1. lia. }
    destruct q as [|qp|qp]; try lia.
    assert (Hq1 : (1 <= inject_Z (Z.pos qp))%Q).
    { change 1%Q with (inject_Z 1). rewrite <- Zle_Qle. lia. }
    assert (Evq : (v == xr * 2 ^ e')%Q).
    { apply (Qmult_inj_r _ _ vy); [lra|]. rewrite Ev. unfold vx, vy. cbn [SF2Q].
      transitivity (xr * inject_Z (Z.pos my) * (2 ^ e' * 2 ^ ey))%Q; [|ring].
      rewrite Exr, <- pow2_add.
      transitivity (inject_Z (Z.pos mx) * (2 ^ s * 2 ^ (e' + ey)))%Q; [|ring].
      rewrite <- pow2_add. replace (s + (e' + ey)) with ex by (unfold s; lia). reflexivity. }
    assert (Hdq : 53 <= Z.pos (digits2_pos qp)).
    { assert (52 < Z.pos (digits2_pos qp)); [|lia].
      apply digits_lower. rewrite pow2_52, <- Zle_Qle. exact Hq. }
    assert (Hrange : -21 < Z.pos (digits2_pos qp) + e' <= 21).
    { apply (digits_range qp e' (-21) 20).
      - assert (E21 : (2 ^ (-21) == (1 # 2) * 2 ^ (-20))%Q) by reflexivity.
        rewrite E21. nra.
      - nra. }
    destruct (binary_round_aux_rounds false qp e' (new_location (Z.pos my) r) xr
                Hloc Hdq ltac:(lia)) as (m' & e'' & Hres & _ & Hnear & _).
    rewrite Hres. split; [reflexivity|].
    eapply near_ext; [| |exact Hnear]; [reflexivity|symmetry; exact Evq].
Qed.

(** *** The primitive floats *)

(** An integer below 2^53 converts exactly. *)
Lemma of_int_binary64 (z : Z) :
  0 <= z < 9007199254740992 ->
  SF_finite (Prim2SF (@of_int binary64 z)) = true /\
  (@to_Q binary64 (@of_int binary64 z) == inject_Z z)%Q.
Proof.
  intros Hz. cbn [of_int to_Q binary64].
  change (binary_normalize 53 1024 z 0 false) with (binary_normalize prec emax z 0 false).
  destruct z as [|p|p]; [| |lia].
  - cbn [binary_normalize]. rewrite Prim2SF_SF2Prim by reflexivity.
    split; reflexivity.
  - cbn [binary_normalize].
    assert (Hd : Z.pos (digits2_pos p) <= 53).
    { apply digits_upper. rewrite pow2_53, <- Zlt_Qlt. lia. }
    destruct (binary_round_near false p 0 ltac:(lia)) as (m' & e' & Hr & Hb & _ & Hx).
    rewrite Hr, Prim2SF_SF2Prim by exact Hb.
    split; [reflexivity|]. cbn [SF2Q]. rewrite (Hx (or_introl Hd)), pow2_0. ring.
Qed.

(** Binary64 is as accurate as asked. *)
Lemma binary64_accurate : Accurate binary64.
Proof.
  refine {| finite := fun x : @float64 binary64 => SF_finite (Prim2SF x) = true |}.
  - intros z Hz. apply of_int_binary64. lia.
  - intros a b Fa Fb Ha Hb Hn. cbn [fdiv to_Q binary64] in *.
    rewrite div_spec. apply SFdiv_near; assumption.
  - intros a b Fa Fb Ha Hb Hn. cbn [fmul to_Q binary64] in *.
    rewrite mul_spec. apply SFmul_near; assumption.
  - intros a b Fa Fb Ha Hb Hn. cbn [fadd to_Q binary64] in *.
    rewrite add_spec. apply SFadd_near; assumption.
Qed.

(** Exact arithmetic is as accurate as asked. *)
Lemma exact_arith_accurate : Accurate exact_arith.
Proof.
  assert (Hnear : forall e : Q, (0 <= e)%Q -> near e e).
  { intros e He. unfold near, unit_roundoff. split; nra. }
  refine {| finite := fun _ : @float64 exact_arith => True |};
    cbn [float64 to_Q of_int fdiv fmul fadd exact_arith].
  - intros z _. split; [exact I|reflexivity].
  - intros a b _ _ Ha Hb _. split; [exact I|].
    apply Hnear. apply Qle_shift_div_l; [exact Hb|]. lra.
  - intros a b _ _ Ha Hb _. split; [exact I|].
    apply Hnear. apply Qmult_le_0_compat; assumption.
  - intros a b _ _ Ha Hb _. split; [exact I|]. apply Hnear. lra.
Qed.

(** ** The selector mapping (SymNet.py) *)

(** [round] stays within one half, and is the only integer strictly within. *)
Lemma round_half_even_near (q : Q) :
  (inject_Z (round_half_even q) - (1 # 2) <= q)%Q /\
  (q <= inject_Z (round_half_even q) + (1 # 2))%Q.
Proof.
  destruct q as [n d]. unfold round_half_even. cbn [Qnum Qden].
  pose proof (Z.div_mod n (Z.pos d) ltac:(lia)) as Hdm.
  pose proof (Z.mod_pos_bound n (Z.pos d) ltac:(lia)) as Hr.
  set (f := n / Z.pos d) in *. set (r := n mod Z.pos d) in *.
  assert (Hcases : forall z, (z = f \/ z = f + 1) ->
            2 * (z * Z.pos d - n) <= Z.pos d -> 2 * (n - z * Z.pos d) <= Z.pos d ->
            (inject_Z z - (1 # 2) <= n # d)%Q /\ (n # d <= inject_Z z + (1 # 2))%Q).
  { intros z _ H1 H2. unfold Qle, Qminus, Qplus, Qopp, inject_Z. cbn. split; lia. }
  destruct (Z.compare_spec (2 * r) (Z.pos d)) as [E|E|E].
  - destruct (Z.even f); apply Hcases; (try (left; reflexivity)); (try (right; reflexivity)); nia.
  - apply Hcases; [left; reflexivity| |]; nia.
  - apply Hcases; [right; reflexivity| |]; nia.
Qed.

Lemma round_half_even_unique (q : Q) (z : Z) :
  (inject_Z z - (1 # 2) < q)%Q -> (q < inject_Z z + (1 # 2))%Q -> round_half_even q = z.
Proof.
  intros Hlo Hhi. destruct (round_half_even_near q) as [Rlo Rhi].
  assert (H1 : (inject_Z (round_half_even q) < inject_Z (z + 1))%Q)
    by (rewrite inject_Z_plus; change (inject_Z 1) with 1%Q; lra).
  assert (H2 : (inject_Z z < inject_Z (round_half_even q + 1))%Q)
    by (rewrite inject_Z_plus; change (inject_Z 1) with 1%Q; lra).
  rewrite <- Zlt_Qlt in H1, H2. lia.
Qed.

Section RoundTrip.
Local Open Scope Q_scope.

(** Bounds of an exact quotient [e = a / d]. *)
Lemma quotient_bounds (a d e : Q) :
  0 < d -> e * d == a -> 0 <= a -> a <= d -> 0 <= e /\ e <= 1.
Proof. intros. split; nra. Qed.

Lemma quotient_lower (a d e : Q) :
  0 < d -> d <= 65535 -> e * d == a -> 1 <= a -> (1 # 65535) <= e.
Proof. intros. nra. Qed.

Context `{FA : FloatArith} {ACC : Accurate FA}.

Lemma near_nonneg (q e : Q) : 0 <= e -> near q e -> 0 <= q.
Proof. unfold near, unit_roundoff. intros He [Hlo _]. nra. Qed.

Lemma near_zero (q e : Q) : e == 0 -> near q e -> q == 0.
Proof. unfold near, unit_roundoff. intros He [Hlo Hhi]. nra. Qed.

Lemma of_int_small (z : Z) :
  (0 <= z <= 65535)%Z ->
  finite (of_int z) /\
  to_Q (of_int z) == inject_Z z /\ 0 <= inject_Z z /\ inject_Z z <= 65535.
Proof.
  intros Hz. destruct (of_int_exact z Hz) as [Hfin Hex].
  split; [exact Hfin|]. split; [exact Hex|].
  change 0 with (inject_Z 0). change 65535 with (inject_Z 65535).
  rewrite <- !Zle_Qle. lia.
Qed.

Lemma of_int_positive (z : Z) : (1 <= z)%Z -> 1 <= inject_Z z.
Proof. intros Hz. change 1 with (inject_Z 1). rewrite <- Zle_Qle. exact Hz. Qed.

(** The float [(a / d) * 65535] lies within a millionth of [65535 * e] for
    the exact quotient [e = a / d]. *)
Lemma forward_near (a d : Z) :
  (0 <= a <= d)%Z -> (1 <= d <= 65535)%Z ->
  exists e : Q,
    e * inject_Z d == inject_Z a /\ 0 <= e /\ e <= 1 /\
    65535 * e - (1 # 1000000)
      <= to_Q (fmul (fdiv (of_int a) (of_int d)) (of_int 65535%Z)) /\
    to_Q (fmul (fdiv (of_int a) (of_int d)) (of_int 65535%Z))
      <= 65535 * e + (1 # 1000000).
Proof.
  intros Ha Hd.
  destruct (of_int_small a ltac:(lia)) as (Fin_a & HA & HA0 & _).
  destruct (of_int_small d ltac:(lia)) as (Fin_d & HD & _ & HD1).
  destruct (of_int_small 65535 ltac:(lia)) as (Fin_k & HK & _ & _).
  change (inject_Z 65535) with 65535 in HK.
  pose proof (of_int_positive d ltac:(lia)) as HD0.
  assert (Had : inject_Z a <= inject_Z d) by (rewrite <- Zle_Qle; lia).
  set (A := to_Q (of_int a)) in *. set (Dq := to_Q (of_int d)) in *.
  set (K := to_Q (of_int 65535%Z)) in *.
  set (e := A / Dq).
  assert (He : e * Dq == A) by (unfold e; rewrite Qmult_comm; apply Qmult_div_r; lra).
  assert (Hed : e * inject_Z d == inject_Z a) by (rewrite <- HA, <- HD; exact He).
  destruct (quotient_bounds (inject_Z a) (inject_Z d) e) as [He0 He1]; try lra.
  assert (Hnormal : normal e).
  { destruct (Z.eq_dec a 0%Z) as [->|Hne].
    - left. change (inject_Z 0) with 0 in Hed. nra.
    - right. pose proof (of_int_positive a ltac:(lia)).
      pose proof (quotient_lower (inject_Z a) (inject_Z d) e). lra. }
  pose proof (fdiv_near (of_int a) (of_int d)) as H1.
  fold A Dq e in H1. specialize (H1 Fin_a Fin_d ltac:(lra) ltac:(lra) Hnormal).
  destruct H1 as [Fin_1 H1].
  set (q1 := to_Q (fdiv (of_int a) (of_int d))) in *.
  pose proof (near_nonneg q1 e He0 H1) as Hq1.
  assert (HqK : q1 * K == 65535 * q1) by (rewrite HK; ring).
  pose proof (fmul_near (fdiv (of_int a) (of_int d)) (of_int 65535%Z)) as H2.
  fold q1 K in H2.
  assert (Hn2 : normal (q1 * K)).
  { destruct Hnormal as [Hz|[Hlo Hhi]].
    - left. pose proof (near_zero q1 e Hz H1). lra.
    - right. unfold near, unit_roundoff in H1. lra. }
  specialize (H2 Fin_1 Fin_k Hq1 ltac:(lra) Hn2). destruct H2 as [_ H2].
  exists e. unfold near, unit_roundoff in H1, H2.
  repeat split; try assumption; lra.
Qed.

(** The float [r / 65535 * d + 1] lies within a millionth of [t + 1] for
    the exact [t = r * d / 65535]. *)
Lemma backward_near (r d : Z) :
  (0 <= r <= 65535)%Z -> (1 <= d <= 65535)%Z ->
  exists t : Q,
    t * 65535 == inject_Z r * inject_Z d /\
    t + 1 - (1 # 1000000)
      <= to_Q (fadd (fmul (fdiv (of_int r) (of_int 65535%Z)) (of_int d)) (of_int 1%Z)) /\
    to_Q (fadd (fmul (fdiv (of_int r) (of_int 65535%Z)) (of_int d)) (of_int 1%Z))
      <= t + 1 + (1 # 1000000).
Proof.
  intros Hr Hd.
  destruct (of_int_small r ltac:(lia)) as (Fin_r & HR & HR0 & HR1).
  destruct (of_int_small d ltac:(lia)) as (Fin_d & HD & _ & HD1).
  destruct (of_int_small 65535 ltac:(lia)) as (Fin_k & HK & _ & _).
  destruct (of_int_small 1 ltac:(lia)) as (Fin_one & H1' & _ & _).
  change (inject_Z 65535) with 65535 in HK. change (inject_Z 1) with 1 in H1'.
  pose proof (of_int_positive d ltac:(lia)) as HD0.
  set (R := to_Q (of_int r)) in *. set (Dq := to_Q (of_int d)) in *.
  set (K := to_Q (of_int 65535%Z)) in *. set (One := to_Q (of_int 1%Z)) in *.
  set (e3 := R / K).
  assert (He3 : e3 * 65535 == inject_Z r).
  { rewrite <- HR, <- HK. unfold e3. rewrite Qmult_comm. apply Qmult_div_r. lra. }
  assert (He30 : 0 <= e3 /\ e3 <= 1) by (split; lra).
  assert (Hn3 : e3 == 0 \/ (1 # 65535) <= e3).
  { destruct (Z.eq_dec r 0%Z) as [->|Hne].
    - left. change (inject_Z 0) with 0 in He3. lra.
    - right. pose proof (of_int_positive r ltac:(lia)). lra. }
  pose proof (fdiv_near (of_int r) (of_int 65535%Z)) as H3.
  fold R K e3 in H3.
  specialize (H3 Fin_r Fin_k ltac:(lra) ltac:(lra)
                 ltac:(destruct Hn3; [left|right]; lra)).
  destruct H3 as [Fin_3 H3].
  set (q3 := to_Q (fdiv (of_int r) (of_int 65535%Z))) in *.
  pose proof (near_nonneg q3 e3 ltac:(lra) H3) as Hq3.
  set (t := e3 * inject_Z d).
  assert (Ht : t * 65535 == inject_Z r * inject_Z d) by (unfold t; rewrite <- He3; ring).
  assert (Ht0 : 0 <= t /\ t <= 65535) by (unfold t; split; nra).
  assert (Hq3D : q3 * Dq == q3 * inject_Z d) by (rewrite HD; reflexivity).
  assert (Hq3t : (1 - unit_roundoff) * t <= q3 * Dq /\ q3 * Dq <= (1 + unit_roundoff) * t).
  { rewrite Hq3D. unfold t. unfold near in H3. split; nra. }
  pose proof (fmul_near (fdiv (of_int r) (of_int 65535%Z)) (of_int d)) as H4.
  fold q3 Dq in H4.
  assert (Hn4 : normal (q3 * Dq)).
  { destruct Hn3 as [Hz|Hlo].
    - left. pose proof (near_zero q3 e3 Hz H3) as Hq0. rewrite Hq0. ring.
    - right. unfold near, unit_roundoff in H3. unfold unit_roundoff in Hq3t.
      rewrite Hq3D. split; nra. }
  specialize (H4 Fin_3 Fin_d Hq3 ltac:(lra) Hn4). destruct H4 as [Fin_4 H4].
  set (q4 := to_Q (fmul (fdiv (of_int r) (of_int 65535%Z)) (of_int d))) in *.
  pose proof (near_nonneg q4 (q3 * Dq) ltac:(unfold unit_roundoff in Hq3t; lra) H4) as Hq4.
  pose proof (fadd_near (fmul (fdiv (of_int r) (of_int 65535%Z)) (of_int d)) (of_int 1%Z))
    as H5.
  fold q4 One in H5.
  unfold near, unit_roundoff in H4, Hq3t.
  assert (Hn5 : normal (q4 + One)) by (right; lra).
  specialize (H5 Fin_4 Fin_one Hq4 ltac:(lra) Hn5). destruct H5 as [_ H5].
  exists t. unfold near, unit_roundoff in H5.
  repeat split; try assumption; lra.
Qed.


(** The mapping and its inverse, on accurate arithmetic. *)
Lemma round_trip_of_the_mapping (count position : Z) :
  (2 <= count <= 65536)%Z -> (1 <= position <= count)%Z ->
  exists raw : Z,
    raw_of_position position count = Ok raw /\ (0 <= raw <= 65535)%Z /\
    position_of_raw raw count = position.
Proof.
  intros Hc Hp. unfold raw_of_position, position_of_raw, py_round.
  rewrite (proj2 (Z.eqb_neq (count - 1) 0)) by lia.
  set (d := (count - 1)%Z). set (a := (position - 1)%Z).
  destruct (forward_near a d ltac:(lia) ltac:(lia)) as (e & Hed & He0 & He1 & Hlo & Hhi).
  set (q2 := to_Q (fmul (fdiv (of_int a) (of_int d)) (of_int 65535%Z))) in *.
  set (r := round_half_even q2).
  destruct (round_half_even_near q2) as [Rlo Rhi]. fold r in Rlo, Rhi.
  assert (Hr : (0 <= r <= 65535)%Z).
  { assert (H1 : inject_Z (-1) < inject_Z r) by (change (inject_Z (-1)) with (-1); lra).
    assert (H2 : inject_Z r < inject_Z 65536) by (change (inject_Z 65536) with 65536; lra).
    rewrite <- Zlt_Qlt in H1, H2. lia. }
  exists r. split; [reflexivity|]. split; [exact Hr|].
  destruct (backward_near r d Hr ltac:(lia)) as (t & Ht & Tlo & Thi).
  set (q5 := to_Q (fadd (fmul (fdiv (of_int r) (of_int 65535%Z)) (of_int d)) (of_int 1%Z)))
    in *.
  assert (Hpos : inject_Z position == inject_Z a + 1).
  { unfold a. change 1 with (inject_Z 1). rewrite <- inject_Z_plus.
    replace (position - 1 + 1)%Z with position by lia. reflexivity. }
  assert (Hd1 : 1 <= inject_Z d) by (apply of_int_positive; lia).
  assert (Hclose : inject_Z a + 1 - (1 # 2) < q5 /\ q5 < inject_Z a + 1 + (1 # 2)).
  { destruct (Z.eq_dec d 65535%Z) as [Ed|Ed].
    - rewrite Ed in Hed, Ht. change (inject_Z 65535) with 65535 in Hed, Ht.
      assert (Hra : r = a).
      { assert (H1 : inject_Z (a + -1) < inject_Z r)
          by (rewrite inject_Z_plus; change (inject_Z (-1)) with (-1); lra).
        assert (H2 : inject_Z r < inject_Z (a + 1))
          by (rewrite inject_Z_plus; change (inject_Z 1) with 1; lra).
        rewrite <- Zlt_Qlt in H1, H2. lia. }
      rewrite Hra in Ht. lra.
    - assert (Hd2 : inject_Z d <= 65534)
        by (change 65534 with (inject_Z 65534); rewrite <- Zle_Qle; lia).
      assert (Hta : 65535 * (t - inject_Z a) == (inject_Z r - 65535 * e) * inject_Z d)
        by nra.
      split; nra. }
  apply round_half_even_unique; rewrite Hpos; lra.
Qed.

End RoundTrip.

(** *** [set_position] and [get_position] on the cache *)

Lemma position_in_range (position count : Z) :
  1 <= position <= count -> negb ((1 <=? position) && (position <=? count)) = false.
Proof.
  intros [H1 H2]. apply Z.leb_le in H1, H2. rewrite H1, H2. reflexivity.
Qed.

(** [set_position] up to its [await], on a selector of the device and on
    the dummy. *)
Lemma set_position_on_selector `{FloatArith} (cn position count raw : Z)
    (c : SymNetController) (w : world) :
  controllers w !! cn = Some c -> controller_number c = cn ->
  class_of c = SymNetSelectorController_class count ->
  1 <= position <= count -> raw_of_position position count = Ok raw ->
  set_position cn position w
  = (Ok (Awaiting (length (futures w))), after_set_position c raw w).
Proof.
  intros Hc Hn Hclass Hp Hraw. unfold set_position.
  unfold bind at 1. unfold get_controller at 1. rewrite Hc.
  unfold bind at 1. unfold position_count. rewrite Hclass. unfold lift at 1.
  rewrite position_in_range by assumption.
  unfold bind at 1. rewrite Hraw. unfold lift at 1.
  unfold bind at 1. rewrite (_set_raw_value_spec cn raw c) by assumption.
  unfold _assure_current_state, bind, get_controller.
  cbn [controllers set_tasks set_controllers]. rewrite lookup_insert_eq.
  cbn [class_of cached]. rewrite Hclass. subst cn. reflexivity.
Qed.

Lemma set_position_on_dummy `{FloatArith} (cn position count raw : Z)
    (c : SymNetController) (w : world) :
  controllers w !! cn = Some c -> controller_number c = cn ->
  class_of c = SymNetSelectorControllerDummy_class count ->
  1 <= position <= count -> raw_of_position position count = Ok raw ->
  set_position cn position w
  = (Ok (Returned tt),
     set_tasks (fun ts => ts ++ notifications c raw)
       (set_controllers <[cn := cached c raw (loop_time w)]> w)).
Proof.
  intros Hc Hn Hclass Hp Hraw. unfold set_position.
  unfold bind at 1. unfold get_controller at 1. rewrite Hc.
  unfold bind at 1. unfold position_count. rewrite Hclass. unfold lift at 1.
  rewrite position_in_range by assumption.
  unfold bind at 1. rewrite Hraw. unfold lift at 1.
  unfold bind at 1. rewrite (_set_raw_value_spec cn raw c) by assumption.
  reflexivity.
Qed.

(** A selector whose cached value is fresh answers [get_position] from the
    cache, without a request; the dummy always does. *)
Lemma get_position_from_cache `{FloatArith} (cn count : Z) (c : SymNetController)
    (w : world) :
  controllers w !! cn = Some c ->
  class_of c = SymNetSelectorControllerDummy_class count \/
  (class_of c = SymNetSelectorController_class count /\
   (loop_time w - raw_value_time c <= value_timeout)%Q) ->
  get_position cn w = (Ok (Returned (position_of_raw (raw_value c) count)), w).
Proof.
  intros Hc Hclass. unfold get_position, bind, get_controller, _get_raw_value.
  rewrite Hc. unfold position_count, lift, bind, get_controller, read. rewrite Hc.
  destruct Hclass as [-> | [-> Hfresh]]; [reflexivity|].
  apply Qle_bool_iff in Hfresh. rewrite Hfresh. reflexivity.
Qed.

Section SelectorRoundTrip.
Context `{FA : FloatArith} {ACC : Accurate FA}.

(** The round trip on accurate arithmetic: the raw value [set_position]
    computes is within 0..65535, [get_position] computes the position back
    from it, and answers so from the cache. *)
Lemma round_trip_on_accurate_arithmetic (cn count position : Z) (c : SymNetController)
    (w : world) :
  controllers w !! cn = Some c -> controller_number c = cn ->
  class_of c = SymNetSelectorController_class count \/
  class_of c = SymNetSelectorControllerDummy_class count ->
  2 <= count <= 65536 -> 1 <= position <= count ->
  exists raw : Z,
    raw_of_position position count = Ok raw /\ 0 <= raw <= 65535 /\
    position_of_raw raw count = position /\
    get_position cn (snd (set_position cn position w))
    = (Ok (Returned position), snd (set_position cn position w)).
Proof.
  intros Hc Hn Hclass Hcount Hp.
  destruct (round_trip_of_the_mapping count position Hcount Hp) as (raw & Hraw & Hr & Hback).
  exists raw. repeat split; try assumption; try lia.
  destruct Hclass as [Hclass|Hclass].
  - rewrite (set_position_on_selector cn position count raw c w) by assumption.
    cbn [snd]. rewrite <- Hback at 1.
    apply (get_position_from_cache cn count (cached c raw (loop_time w))).
    + unfold after_set_position. cbn [controllers set_sent set_callback_queue set_futures
        set_tasks set_controllers]. rewrite Hn. apply lookup_insert_eq.
    + right. split; [exact Hclass|].
      unfold after_set_position, value_timeout.
      cbn [loop_time set_sent set_callback_queue set_futures set_tasks set_controllers
           raw_value_time cached]. lra.
  - rewrite (set_position_on_dummy cn position count raw c w) by assumption.
    cbn [snd]. rewrite <- Hback at 1.
    apply (get_position_from_cache cn count (cached c raw (loop_time w))).
    + cbn [controllers set_tasks set_controllers]. apply lookup_insert_eq.
    + left. exact Hclass.
Qed.

End SelectorRoundTrip.

(** C4 (amended).  For a selector with 2 <= position_count <= 65536 and a
    position p with 1 <= p <= position_count, in binary64, the arithmetic of
    Python floats: the raw value [set_position] computes is within 0..65535
    and the position [get_position] computes from it is p; so
    [get_position] right after [set_position(p)], answered from the cache,
    returns p. *)
Theorem selector_position_round_trip (cn count position : Z) (c : SymNetController)
    (w : world) :
  controllers w !! cn = Some c -> controller_number c = cn ->
  class_of c = SymNetSelectorController_class count \/
  class_of c = SymNetSelectorControllerDummy_class count ->
  2 <= count <= 65536 -> 1 <= position <= count ->
  exists raw : Z,
    raw_of_position (H := binary64) position count = Ok raw /\ 0 <= raw <= 65535 /\
    position_of_raw (H := binary64) raw count = position /\
    get_position (H := binary64) cn (snd (set_position (H := binary64) cn position w))
    = (Ok (Returned position), snd (set_position (H := binary64) cn position w)).
Proof.
  exact (round_trip_on_accurate_arithmetic (FA := binary64) (ACC := binary64_accurate)
           cn count position c w).
Qed.

Lemma selector_position_round_trip_witness :
  exists raw : Z,
    raw_of_position (H := binary64) 3 4 = Ok raw /\ 0 <= raw <= 65535 /\
    position_of_raw (H := binary64) raw 4 = 3 /\
    get_position (H := binary64) 7
      (snd (set_position (H := binary64) 7 3 observed_world))
    = (Ok (Returned 3), snd (set_position (H := binary64) 7 3 observed_world)).
Proof.
  exact (selector_position_round_trip 7 4 3 observed_selector observed_world
           eq_refl eq_refl (or_introl eq_refl) ltac:(lia) ltac:(lia)).
Defined.

(** The same holds of the exact rationals. *)
Lemma selector_position_round_trip_exactly (count position : Z) :
  2 <= count <= 65536 -> 1 <= position <= count ->
  exists raw : Z,
    raw_of_position (H := exact_arith) position count = Ok raw /\ 0 <= raw <= 65535 /\
    position_of_raw (H := exact_arith) raw count = position.
Proof.
  exact (round_trip_of_the_mapping (FA := exact_arith) (ACC := exact_arith_accurate)
           count position).
Qed.

(** C4 (as stated) fails for position_count = 65537 and p = 32769, in
    binary64: [set_position] stores raw 32768 (the exact 32767.5 goes to the
    even neighbour) and [get_position] answers 32770. *)
Lemma selector_round_trip_fails_with_65537_positions :
  raw_of_position (H := binary64) 32769 65537 = Ok 32768 /\
  position_of_raw (H := binary64) 32768 65537 = 32770 /\
  fst (get_position (H := binary64) 7
         (snd (set_position (H := binary64) 7 32769 wide_world)))
  = Ok (Returned 32770).
Proof. vm_compute. repeat split; reflexivity. Qed.

(** The same in exact arithmetic, and further out. *)
Example selector_round_trip_fails_exactly :
  raw_of_position (H := exact_arith) 32769 65537 = Ok 32768 /\
  position_of_raw (H := exact_arith) 32768 65537 = 32770 /\
  raw_of_position (H := binary64) 2 200001 = Ok 0 /\
  position_of_raw (H := binary64) 0 200001 = 1.
Proof. vm_compute. repeat split; reflexivity. Qed.

(** Within the bound binary64 itself round-trips: every position of every
    selector with 2 to 100 positions, and the ends and the middle of the
    largest one. *)
Example selector_round_trip_binary64_checked :
  forallb (fun n => forallb (round_trips (H := binary64) (n + 1)) (upto (n + 1))) (upto 99)
  = true /\
  forallb (round_trips (H := binary64) 65536) [1; 2; 32768; 32769; 65535; 65536] = true.
Proof. vm_compute. split; reflexivity. Qed.

(** ** [set_position] and its acknowledgement (SymNet.py) *)





(** * Further properties *)

(** ** What the callbacks leave alone *)

(** [_set_raw_value] touches the controllers and the tasks only, and only
    adds tasks. *)
Lemma _set_raw_value_frame (cn value : Z) (w : world) :
  let w' := snd (_set_raw_value cn value w) in
  loop_time w' = loop_time w /\ futures w' = futures w /\ log w' = log w /\
  callback_queue w' = callback_queue w /\ state_queue w' = state_queue w /\
  sent w' = sent w /\ exists more, tasks w' = tasks w ++ more.
Proof.
  unfold _set_raw_value, bind, get_controller.
  destruct (controllers w !! cn) as [c|].
  - unfold read, modify. destruct (bool_decide (raw_value c <> value)).
    + rewrite create_tasks_spec. cbn. repeat split. eexists. reflexivity.
    + cbn. repeat split. exists []. symmetry. apply app_nil_r.
  - cbn. repeat split. exists []. symmetry. apply app_nil_r.
Qed.

(** A protocol callback touches the controllers and the tasks only. *)
Lemma call_frame (f : callback_fn) (data : string) (m : option Match) (w : world) :
  let w' := snd (call f data m w) in
  loop_time w' = loop_time w /\ futures w' = futures w /\ log w' = log w /\
  callback_queue w' = callback_queue w /\ state_queue w' = state_queue w /\
  sent w' = sent w /\ exists more, tasks w' = tasks w ++ more.
Proof.
  assert (Hsame : forall (r : result unit),
            let w' := snd (r, w) in
            loop_time w' = loop_time w /\ futures w' = futures w /\ log w' = log w /\
            callback_queue w' = callback_queue w /\ state_queue w' = state_queue w /\
            sent w' = sent w /\ exists more, tasks w' = tasks w ++ more).
  { intros r. cbn. repeat split. exists []. symmetry. apply app_nil_r. }
  destruct f as [cn|cn]; unfold call.
  - unfold _assure_callback. destruct m as [m|]; [|apply Hsame].
    destruct (bool_decide _); apply Hsame.
  - unfold _retrieve_callback. destruct m as [m|]; [|apply Hsame].
    unfold bind, lift. destruct (int_group m 1) as [value|e]; [|apply Hsame].
    apply _set_raw_value_frame.
Qed.

(** ** The datagram handler never sends, and takes out one callback at most *)

Lemma stable_refl (w : world) : stable w w.
Proof.
  repeat split; exists []; symmetry; apply app_nil_r.
Qed.

Lemma stable_trans (w1 w2 w3 : world) : stable w1 w2 -> stable w2 w3 -> stable w1 w3.
Proof.
  intros (Ht & Hs & Hq & Hf & [mt Hmt] & [ml Hml]) (Ht' & Hs' & Hq' & Hf' & [mt' Hmt'] & [ml' Hml']).
  repeat split; try congruence.
  - exists (mt ++ mt'). rewrite Hmt', Hmt, app_assoc. reflexivity.
  - exists (ml ++ ml'). rewrite Hml', Hml, app_assoc. reflexivity.
Qed.

Lemma callback_stable (callback_obj : SymNetRawProtocolCallback) (data : string)
    (m : option Match) (w : world) :
  let w' := snd (callback callback_obj data m w) in
  stable w w' /\ callback_queue w' = callback_queue w.
Proof.
  destruct (call_frame (_callback callback_obj) data m w)
    as (Ht & Hf & Hl & Hq & Hs & Hsent & Hmore).
  assert (Hout : forall o w1, let w' := snd (set_outcome (future callback_obj) o w1) in
            stable w1 w' /\ callback_queue w' = callback_queue w1).
  { intros o w1. unfold set_outcome.
    destruct (futures w1 !! future callback_obj) as [[|]|]; cbn;
      try (split; [apply stable_refl|reflexivity]).
    split; [|reflexivity]. repeat split; try (exists []; symmetry; apply app_nil_r).
    cbn. apply length_insert. }
  unfold callback, try_except, bind.
  destruct (call (_callback callback_obj) data m w) as [[[]|e] w1] eqn:E; cbn [snd] in *.
  - unfold set_result.
    destruct (Hout (Ok tt) w1) as [Hst Hqq].
    destruct (set_outcome (future callback_obj) (Ok ()) w1) as [[[]|e'] w2] eqn:E2;
      cbn [snd] in *.
    + split; [|congruence].
      eapply stable_trans; [|exact Hst]. repeat split; try congruence. exists []. rewrite Hl. symmetry. apply app_nil_r.
    + unfold set_exception. destruct (Hout (Raise e') w2) as [Hst2 Hqq2].
      split; [|congruence].
      eapply stable_trans; [|exact Hst2]. eapply stable_trans; [|exact Hst].
      repeat split; try congruence. exists []. rewrite Hl. symmetry. apply app_nil_r.
  - unfold set_exception. destruct (Hout (Raise e) w1) as [Hst Hqq].
    split; [|congruence].
    eapply stable_trans; [|exact Hst].
    repeat split; try congruence. exists []. rewrite Hl. symmetry. apply app_nil_r.
Qed.

Lemma list_remove_one (fut : nat) (queue queue' : list SymNetRawProtocolCallback) :
  list_remove fut queue = Some queue' -> one_removed queue queue'.
Proof.
  revert queue'. induction queue as [|c queue IH]; intros queue' H; [discriminate|].
  cbn [list_remove] in H. destruct (Nat.eqb (future c) fut).
  - injection H as <-. exists [], c, queue. split; reflexivity.
  - destruct (list_remove fut queue) as [rest|]; [|discriminate].
    injection H as <-. destruct (IH rest eq_refl) as (pre & x & post & -> & ->).
    exists (c :: pre), x, post. split; reflexivity.
Qed.

Lemma remove_stable (callback_obj : SymNetRawProtocolCallback) (w : world) :
  let w' := snd (remove callback_obj w) in
  stable w w' /\
  (callback_queue w' = callback_queue w \/ one_removed (callback_queue w) (callback_queue w')).
Proof.
  unfold remove.
  destruct (list_remove (future callback_obj) (callback_queue w)) as [queue'|] eqn:E; cbn.
  - split; [|right; apply list_remove_one in E; exact E].
    repeat split; exists []; symmetry; apply app_nil_r.
  - split; [apply stable_refl|]. left. reflexivity.
Qed.

(** Delivering to a callback and removing it. *)
Lemma deliver_stable (callback_obj : SymNetRawProtocolCallback) (data : string)
    (m : option Match) (w : world) :
  let w' := snd ((callback callback_obj data m ;;; remove callback_obj ;;; ret true) w) in
  stable w w' /\
  (callback_queue w' = callback_queue w \/ one_removed (callback_queue w) (callback_queue w')).
Proof.
  destruct (callback_stable callback_obj data m w) as [Hst Hq].
  unfold bind at 1.
  destruct (callback callback_obj data m w) as [[[]|e] w1]; cbn [snd] in *.
  - destruct (remove_stable callback_obj w1) as [Hst1 Hq1].
    unfold bind. destruct (remove callback_obj w1) as [[[]|e] w2]; cbn [snd ret] in *.
    + split; [eapply stable_trans; eassumption|]. rewrite <- Hq. exact Hq1.
    + split; [eapply stable_trans; eassumption|]. rewrite <- Hq. exact Hq1.
  - split; [exact Hst|]. left. exact Hq.
Qed.

Lemma iterate_callbacks_stable (data_str : string) (lines : list string)
    (queue : list SymNetRawProtocolCallback) (w : world) :
  let w' := snd (iterate_callbacks data_str lines queue w) in
  stable w w' /\
  (callback_queue w' = callback_queue w \/ one_removed (callback_queue w) (callback_queue w')).
Proof.
  induction queue as [|callback_obj queue IH]; cbn [iterate_callbacks].
  - split; [apply stable_refl|]. left. reflexivity.
  - destruct (lone "NAK" lines); [apply deliver_stable|].
    destruct (regex callback_obj) as [r|].
    + destruct (re_match r data_str); [apply deliver_stable|exact IH].
    + destruct (bool_decide _); [apply deliver_stable|exact IH].
Qed.

Lemma push_lines_stable (lines : list string) (w : world) :
  let w' := snd (push_lines lines w) in
  stable w w' /\ callback_queue w' = callback_queue w.
Proof.
  rewrite push_lines_spec. cbn. split; [|reflexivity].
  repeat split; eexists; reflexivity.
Qed.

(** X1.  Whatever the datagram and the state of the protocol,
    [datagram_received] never writes to the transport, never touches the
    push channel itself or the clock, creates and drops no future, and only
    adds tasks and log records; the queue of pending callbacks stays as it
    is or loses exactly one entry, the others keeping their order. *)
Theorem datagram_received_takes_one_callback_at_most (data_str : string) (w : world) :
  let w' := snd (datagram_received data_str w) in
  stable w w' /\
  (callback_queue w' = callback_queue w \/ one_removed (callback_queue w) (callback_queue w')).
Proof.
  pose proof (iterate_callbacks_stable data_str (nonempty_lines data_str)
                (callback_queue w) w) as Hit.
  pose proof (push_lines_stable (nonempty_lines data_str)) as Hpush.
  destruct (datagram_received data_str w) as [r w'] eqn:E. cbn [snd] in *.
  unfold datagram_received in E. cbv zeta in E. unfold bind at 1 in E.
  unfold read at 1 in E. cbv beta iota in E. unfold bind at 1 in E.
  destruct (bool_decide (0 < length (callback_queue w))%nat).
  - destruct (iterate_callbacks data_str (nonempty_lines data_str) (callback_queue w) w)
      as [[taken|e] w1]; cbn [snd] in Hit; [|injection E as <- <-; exact Hit].
    destruct Hit as [Hst Hq]. destruct taken; [injection E as <- <-; split; assumption|].
    destruct (lone "NAK" (nonempty_lines data_str)).
    + injection E as <- <-. split; [|exact Hq]. eapply stable_trans; [exact Hst|].
      repeat split; try (exists []; symmetry; apply app_nil_r). eexists. reflexivity.
    + destruct (lone "ACK" (nonempty_lines data_str)); [injection E as <- <-; split; assumption|].
      specialize (Hpush w1). rewrite E in Hpush. cbn [snd] in Hpush. destruct Hpush as [Hst2 Hq2].
      split; [eapply stable_trans; eassumption|]. rewrite Hq2. exact Hq.
  - cbn [ret] in E. destruct (lone "NAK" (nonempty_lines data_str)).
    + injection E as <- <-. split; [|left; reflexivity].
      repeat split; try (exists []; symmetry; apply app_nil_r). eexists. reflexivity.
    + destruct (lone "ACK" (nonempty_lines data_str));
        [injection E as <- <-; split; [apply stable_refl|left; reflexivity]|].
      specialize (Hpush w). rewrite E in Hpush. cbn [snd] in Hpush. destruct Hpush as [Hst2 Hq2].
      split; [assumption|]. left. exact Hq2.
Qed.

(** ** Responses are correlated in queue order *)

Lemma iterate_callbacks_skips (data_str : string) (lines : list string)
    (pre rest : list SymNetRawProtocolCallback) (w : world) :
  lone "NAK" lines = false ->
  forallb (declines data_str lines) pre = true ->
  iterate_callbacks data_str lines (pre ++ rest) w
  = iterate_callbacks data_str lines rest w.
Proof.
  intros Hnak. induction pre as [|c pre IH]; intros Hall; [reflexivity|].
  cbn [forallb] in Hall. apply andb_prop in Hall as [Hd Hrest].
  cbn [app iterate_callbacks]. rewrite Hnak. unfold declines in Hd.
  destruct (regex c) as [r|].
  - destruct (re_match r data_str); [discriminate|]. apply IH, Hrest.
  - destruct (bool_decide _); [discriminate|]. apply IH, Hrest.
Qed.

(** A callback whose future is pending stores the outcome of its function
    there, and never raises itself. *)
Lemma callback_pending (callback_obj : SymNetRawProtocolCallback) (data : string)
    (m : option Match) (w : world) :
  futures w !! future callback_obj = Some PENDING ->
  callback callback_obj data m w
  = let (o, w1) := call (_callback callback_obj) data m w in
    (Ok tt, set_futures <[future callback_obj := FINISHED o]> w1).
Proof.
  intros Hp.
  destruct (call_frame (_callback callback_obj) data m w) as (_ & Hf & _).
  unfold callback, try_except, bind.
  destruct (call (_callback callback_obj) data m w) as [[[]|e] w1]; cbn [snd] in Hf.
  - unfold set_result, set_outcome. rewrite Hf, Hp. reflexivity.
  - unfold set_exception, set_outcome. rewrite Hf, Hp. reflexivity.
Qed.

Lemma list_remove_middle (pre post : list SymNetRawProtocolCallback)
    (callback_obj : SymNetRawProtocolCallback) :
  forallb (fun c => negb (Nat.eqb (future c) (future callback_obj))) pre = true ->
  list_remove (future callback_obj) (pre ++ callback_obj :: post) = Some (pre ++ post).
Proof.
  induction pre as [|c pre IH]; intros Hall; cbn [app list_remove].
  - rewrite Nat.eqb_refl. reflexivity.
  - cbn [forallb] in Hall. apply andb_prop in Hall as [Hc Hrest].
    apply negb_true_iff in Hc. rewrite Hc, (IH Hrest). reflexivity.
Qed.

(** The datagram stored in a pending callback that is in the queue... *)
Lemma deliver_pending (data_str : string) (m : option Match)
    (pre post : list SymNetRawProtocolCallback) (callback_obj : SymNetRawProtocolCallback)
    (w : world) :
  callback_queue w = pre ++ callback_obj :: post ->
  forallb (fun c => negb (Nat.eqb (future c) (future callback_obj))) pre = true ->
  futures w !! future callback_obj = Some PENDING ->
  (callback callback_obj data_str m ;;; remove callback_obj ;;; ret true) w
  = let (o, w1) := call (_callback callback_obj) data_str m w in
    (Ok true, set_callback_queue (fun _ => pre ++ post)
                (set_futures <[future callback_obj := FINISHED o]> w1)).
Proof.
  intros Hq Hfresh Hp.
  unfold bind at 1. rewrite callback_pending by assumption.
  destruct (call_frame (_callback callback_obj) data_str m w) as (_ & _ & _ & Hcq & _).
  destruct (call (_callback callback_obj) data_str m w) as [o w1]; cbn [snd] in Hcq.
  unfold bind at 1. unfold remove. cbn [callback_queue set_futures].
  rewrite Hcq, Hq, list_remove_middle by assumption. reflexivity.
Qed.

(** ... by the loop over the queue ... *)
Lemma iterate_callbacks_first_willing (data_str : string)
    (pre post : list SymNetRawProtocolCallback) (callback_obj : SymNetRawProtocolCallback)
    (w : world) :
  callback_queue w = pre ++ callback_obj :: post ->
  lone "NAK" (nonempty_lines data_str) = false ->
  forallb (declines data_str (nonempty_lines data_str)) pre = true ->
  declines data_str (nonempty_lines data_str) callback_obj = false ->
  forallb (fun c => negb (Nat.eqb (future c) (future callback_obj))) pre = true ->
  futures w !! future callback_obj = Some PENDING ->
  iterate_callbacks data_str (nonempty_lines data_str) (callback_queue w) w
  = let (o, w1) := call (_callback callback_obj) data_str (offered data_str callback_obj) w in
    (Ok true, set_callback_queue (fun _ => pre ++ post)
                (set_futures <[future callback_obj := FINISHED o]> w1)).
Proof.
  intros Hq Hnak Hpre Htakes Hfresh Hp.
  rewrite <- (deliver_pending data_str _ pre post callback_obj w) by assumption.
  rewrite Hq, iterate_callbacks_skips by assumption.
  cbn [iterate_callbacks]. rewrite Hnak.
  unfold declines in Htakes. unfold offered.
  destruct (regex callback_obj) as [r|].
  - destruct (re_match r data_str); [reflexivity|discriminate].
  - destruct (bool_decide _); [reflexivity|discriminate].
Qed.

(** ... ends the handling of the datagram. *)
Lemma datagram_received_taken (data_str : string) (w w' : world) :
  iterate_callbacks data_str (nonempty_lines data_str) (callback_queue w) w = (Ok true, w') ->
  datagram_received data_str w = (Ok tt, w').
Proof.
  intros Hit. unfold datagram_received. cbv zeta.
  unfold bind at 1. unfold read at 1. cbv beta iota. unfold bind at 1.
  destruct (callback_queue w) as [|c queue] eqn:Hq; [discriminate|].
  change (bool_decide (0 < length (c :: queue))%nat) with true. cbv beta iota.
  rewrite Hit. reflexivity.
Qed.

(** X2.  A datagram that is not a lone NAK goes to the first pending callback
    that does not decline it, however many declining ones are queued before
    it: that callback's function runs on the match, its outcome is stored in
    the callback's future, and the callback alone leaves the queue, the
    others keeping their places. *)
Theorem first_willing_callback_takes_the_datagram (data_str : string)
    (pre post : list SymNetRawProtocolCallback) (callback_obj : SymNetRawProtocolCallback)
    (w : world) :
  callback_queue w = pre ++ callback_obj :: post ->
  lone "NAK" (nonempty_lines data_str) = false ->
  forallb (declines data_str (nonempty_lines data_str)) pre = true ->
  declines data_str (nonempty_lines data_str) callback_obj = false ->
  forallb (fun c => negb (Nat.eqb (future c) (future callback_obj))) pre = true ->
  futures w !! future callback_obj = Some PENDING ->
  datagram_received data_str w
  = let (o, w1) := call (_callback callback_obj) data_str (offered data_str callback_obj) w in
    (Ok tt, set_callback_queue (fun _ => pre ++ post)
              (set_futures <[future callback_obj := FINISHED o]> w1)).
Proof.
  intros Hq Hnak Hpre Htakes Hfresh Hp.
  pose proof (iterate_callbacks_first_willing data_str pre post callback_obj w
                Hq Hnak Hpre Htakes Hfresh Hp) as Hit.
  destruct (call (_callback callback_obj) data_str (offered data_str callback_obj) w)
    as [o w1].
  apply datagram_received_taken, Hit.
Qed.

Lemma first_willing_callback_takes_the_datagram_witness :
  datagram_received ("ACK" +:+ cr) two_requests_world
  = (Ok tt,
     World 0 [] [PENDING; FINISHED (Ok tt)] [] [pending_request] []
       ["GS2 42" +:+ cr; "CS 7 0" +:+ cr] ∅).
Proof.
  exact (first_willing_callback_takes_the_datagram ("ACK" +:+ cr)
           [pending_request] [] assure_request two_requests_world
           eq_refl eq_refl eq_refl eq_refl eq_refl eq_refl).
Defined.

(** ** What counts as an acknowledgement *)

(** The first line of a datagram that begins with another character than
    the carriage return begins with that character. *)
Lemma nonempty_lines_head (c : ascii) (s : string) :
  Ascii.eqb c CR = false ->
  exists piece pieces, nonempty_lines (String c s) = String c piece :: pieces.
Proof.
  intros Hc. unfold nonempty_lines. cbn [str_split]. rewrite Hc.
  destruct (str_split CR s) as [|piece pieces]; cbn; eauto.
Qed.

Lemma take_str_prefix (s rest : string) :
  take_str (String.length (s +:+ rest) - String.length rest) (s +:+ rest) = s.
Proof.
  replace (String.length (s +:+ rest) - String.length rest)%nat with (String.length s).
  - induction s as [|c s IH]; simpl; [destruct rest; reflexivity|].
    f_equal. exact IH.
  - assert (L : String.length (s +:+ rest) = (String.length s + String.length rest)%nat).
    { induction s as [|c s IH]; simpl; [reflexivity|]. rewrite IH. reflexivity. }
    rewrite L. lia.
Qed.

(** The bar of ['^(ACK)|(NAK)\r$'] separates [^(ACK)] from [(NAK)\r$]: the
    pattern accepts whatever begins with ACK. *)
Lemma assure_regex_ACK (rest : string) :
  re_match assure_regex ("ACK" +:+ rest) = Some [(1%nat, "ACK")].
Proof.
  pose proof (take_str_prefix "ACK" rest) as T.
  change ("ACK" +:+ rest) with (String "A" (String "C" (String "K" rest))) in *.
  unfold re_match, assure_regex. cbn [run Str Ascii.eqb Bool.eqb].
  rewrite T. reflexivity.
Qed.

(** X3.  A datagram that begins with ACK, whatever follows, acknowledges
    the oldest CS request that is pending behind requests which decline the
    datagram: the future of the request is resolved without exception and
    the request leaves the queue.  Nothing else happens: lines that follow
    the ACK in the same datagram are not handed on as pushed states. *)
Theorem datagram_beginning_with_ACK_acknowledges (rest : string) (cn expected : Z)
    (fut : nat) (pre post : list SymNetRawProtocolCallback) (w : world) :
  let callback_obj := Callback (assure_callback_of cn) expected (Some assure_regex) fut in
  callback_queue w = pre ++ callback_obj :: post ->
  forallb (declines ("ACK" +:+ rest) (nonempty_lines ("ACK" +:+ rest))) pre = true ->
  forallb (fun c => negb (Nat.eqb (future c) fut)) pre = true ->
  futures w !! fut = Some PENDING ->
  datagram_received ("ACK" +:+ rest) w
  = (Ok tt, set_callback_queue (fun _ => pre ++ post)
              (set_futures <[fut := FINISHED (Ok tt)]> w)).
Proof.
  intros callback_obj Hq Hpre Hfresh Hp.
  apply datagram_received_taken.
  assert (Hnak : lone "NAK" (nonempty_lines ("ACK" +:+ rest)) = false).
  { destruct (nonempty_lines_head "A" ("CK" +:+ rest) eq_refl) as (piece & pieces & E).
    change ("ACK" +:+ rest) with (String "A" ("CK" +:+ rest)). rewrite E.
    apply bool_decide_eq_false. intros [=]. }
  rewrite (iterate_callbacks_first_willing ("ACK" +:+ rest) pre post callback_obj w);
    try assumption.
  - unfold offered. cbn [regex callback_obj]. rewrite assure_regex_ACK. reflexivity.
  - unfold declines. cbn [regex callback_obj]. rewrite assure_regex_ACK. reflexivity.
Qed.

Lemma datagram_beginning_with_ACK_acknowledges_witness :
  datagram_received ("ACK" +:+ cr +:+ "#00007=00003" +:+ cr) two_requests_world
  = (Ok tt,
     World 0 [] [PENDING; FINISHED (Ok tt)] [] [pending_request] []
       ["GS2 42" +:+ cr; "CS 7 0" +:+ cr] ∅).
Proof.
  exact (datagram_beginning_with_ACK_acknowledges (cr +:+ "#00007=00003" +:+ cr) 7 1 1
           [pending_request] [] two_requests_world eq_refl eq_refl eq_refl eq_refl).
Defined.

(** ** The lines of a datagram *)

Lemma str_split_pieces (sep : ascii) (s : string) :
  Forall (fun piece => has_char sep piece = false) (str_split sep s) /\
  join (str_split sep s) = remove_char sep s.
Proof.
  induction s as [|c s [IHf IHj]]; cbn [str_split remove_char].
  - split; [repeat constructor|reflexivity].
  - destruct (Ascii.eqb c sep) eqn:E.
    + split; [constructor; [reflexivity|exact IHf]|exact IHj].
    + destruct (str_split sep s) as [|piece pieces].
      * split; [repeat constructor; cbn; rewrite E; reflexivity|].
        cbn in IHj. rewrite <- IHj. reflexivity.
      * inversion IHf as [|? ? Hp Hps]; subst. split.
        -- constructor; [cbn; rewrite E; exact Hp|exact Hps].
        -- unfold join in *. cbn [fold_right] in *.
           change (String c piece +:+ fold_right append "" pieces)
             with (String c (piece +:+ fold_right append "" pieces)).
           rewrite IHj. reflexivity.
Qed.

Lemma join_nonempty (pieces : list string) :
  join (List.filter nonempty pieces) = join pieces.
Proof.
  induction pieces as [|piece pieces IH]; [reflexivity|].
  cbn [List.filter]. destruct piece as [|c piece]; cbn [nonempty String.length Nat.eqb negb].
  - exact IH.
  - unfold join in *. cbn [fold_right]. rewrite IH. reflexivity.
Qed.

(** X4.  The lines [datagram_received] works on are never empty and hold no
    carriage return, and nothing else of the datagram is lost: one after
    the other they are the datagram without its carriage returns. *)
Theorem nonempty_lines_spec (data_str : string) :
  Forall (fun line => line <> EmptyString /\ has_char CR line = false)
         (nonempty_lines data_str) /\
  join (nonempty_lines data_str) = remove_char CR data_str.
Proof.
  destruct (str_split_pieces CR data_str) as [Hf Hj]. unfold nonempty_lines. split.
  - apply List.Forall_forall. intros line Hin. apply List.filter_In in Hin as [Hin Hne].
    split; [intros ->; discriminate|].
    rewrite List.Forall_forall in Hf. apply Hf, Hin.
  - rewrite join_nonempty. exact Hj.
Qed.

Lemma has_char_remove (c sep : ascii) (s : string) :
  Ascii.eqb sep c = false -> has_char c (remove_char sep s) = has_char c s.
Proof.
  intros Hc. induction s as [|c' s IH]; [reflexivity|].
  cbn [remove_char has_char]. destruct (Ascii.eqb c' sep) eqn:E.
  - apply Ascii.eqb_eq in E. subst c'. rewrite Hc. exact IH.
  - cbn [has_char]. rewrite IH. reflexivity.
Qed.

Lemma has_char_app (c : ascii) (s1 s2 : string) :
  has_char c (s1 +:+ s2) = has_char c s1 || has_char c s2.
Proof.
  induction s1 as [|c' s1 IH]; [reflexivity|].
  change (String c' s1 +:+ s2) with (String c' (s1 +:+ s2)). cbn [has_char].
  rewrite IH, orb_assoc. reflexivity.
Qed.

(** A datagram with a character that is neither the separator nor in the
    word is not that word alone. *)
Lemma not_lone (word data_str : string) (c : ascii) :
  Ascii.eqb CR c = false -> has_char c data_str = true -> has_char c word = false ->
  lone word (nonempty_lines data_str) = false.
Proof.
  intros Hc Hin Hout. apply bool_decide_eq_false. intros Hl.
  pose proof (str_split_pieces CR data_str) as [_ Hj].
  rewrite <- join_nonempty in Hj. fold (nonempty_lines data_str) in Hj.
  rewrite Hl in Hj. cbn in Hj.
  assert (has_char c (remove_char CR data_str) = true) by (rewrite has_char_remove; assumption).
  rewrite <- Hj in H.
  replace (word +:+ "") with word in H; [congruence|].
  clear. induction word as [|a word IH]; [reflexivity|].
  change (String a word +:+ "") with (String a (word +:+ "")). rewrite <- IH. reflexivity.
Qed.

(** ** A stale value is fetched from the device *)

Lemma is_digit_in_range (c : ascii) : is_digit c = true -> in_range "0" "9" c = true.
Proof.
  unfold is_digit, in_range.
  change (nat_of_ascii "0") with 48%nat. change (nat_of_ascii "9") with 57%nat.
  intros H. apply andb_prop in H as [H1 H2].
  apply Z.leb_le in H1. apply Z.leb_le in H2.
  apply andb_true_intro. split; apply Nat.leb_le; lia.
Qed.

Lemma run_Str (s rest : string) (start : bool) (m : Match)
    (k : bool -> string -> Match -> option Match) :
  run (Str s) start (s +:+ rest) m k
  = k (match s with EmptyString => start | _ => false end) rest m.
Proof.
  revert start. induction s as [|c s IH]; intros start; [reflexivity|].
  destruct s as [|c' s].
  - change (String c "" +:+ rest) with (String c rest). cbn [Str run].
    rewrite Ascii.eqb_refl. reflexivity.
  - change (Str (String c (String c' s))) with (Seq (Lit c) (Str (String c' s))).
    cbn [run]. change (String c (String c' s) +:+ rest) with (String c (String c' s +:+ rest)).
    cbv beta iota. rewrite Ascii.eqb_refl. rewrite IH. reflexivity.
Qed.

Lemma retrieve_regex_match (cn : Z) (ds : string) :
  all_digits ds = true -> (1 <= String.length ds <= 5)%nat ->
  re_match (retrieve_regex cn) (pretty cn +:+ " " +:+ ds +:+ cr) = Some [(1%nat, ds)].
Proof.
  intros Hd Hl. unfold re_match, retrieve_regex. cbn [run].
  rewrite run_Str.
  change (" " +:+ ds +:+ cr) with (String " " (ds +:+ cr)). cbv beta iota.
  change (Ascii.eqb " " " ") with true. cbv beta iota.
  destruct ds as [|c1 [|c2 [|c3 [|c4 [|c5 [|c6 ds]]]]]]; cbn [String.length] in Hl; try lia;
    cbn [all_digits] in Hd;
    repeat match goal with
           | H : _ && _ = true |- _ => apply andb_prop in H as [? ?]
           end;
    repeat match goal with
           | H : is_digit _ = true |- _ => apply is_digit_in_range in H
           end.
  all: repeat match goal with
             | |- context [String ?c ?s +:+ ?r] =>
                 change (String c s +:+ r) with (String c (s +:+ r))
             end;
       change (EmptyString +:+ cr) with cr; unfold cr.
  all: cbn [run Nat.eqb Nat.pred].
  all: repeat match goal with H : in_range _ _ _ = true |- _ => rewrite H; clear H end.
  all: change (in_range "0" "9" CR) with false; cbv beta iota.
  all: change (Ascii.eqb CR CR) with true; cbv beta iota.
  all: cbn [take_str String.length Nat.sub]; reflexivity.
Qed.

Lemma digits_value_digits (s : string) (acc v : Z) :
  digits_value acc s = Some v -> all_digits s = true.
Proof.
  revert acc. induction s as [|c s IH]; intros acc H; [reflexivity|].
  cbn [digits_value] in H. cbn [all_digits]. destruct (is_digit c); [|discriminate].
  exact (IH _ H).
Qed.

Lemma py_int_digits_value (s : string) (v : Z) :
  digits_value 0 s = Some v -> (1 <= String.length s)%nat -> py_int s = Ok v.
Proof.
  intros Hv Hl. destruct s as [|c s]; [cbn in Hl; lia|].
  unfold py_int. destruct (Ascii.eqb c "-") eqn:E.
  - apply Ascii.eqb_eq in E. subst c. discriminate Hv.
  - rewrite Hv. reflexivity.
Qed.

(** The part of [_get_raw_value] before its [await] when the cache is
    stale. *)
Lemma _get_raw_value_stale (cn : Z) (c : SymNetController) (w : world) :
  controllers w !! cn = Some c -> on_device c = true ->
  Qle_bool (loop_time w - raw_value_time c) value_timeout = false ->
  _get_raw_value cn w
  = (Ok (Awaiting (length (futures w))),
     set_sent (fun out => out ++ ["GS2 " +:+ pretty (controller_number c) +:+ cr])
       (set_callback_queue
          (fun q => q ++ [Callback (retrieve_callback_of cn) 1
                            (Some (retrieve_regex (controller_number c)))
                            (length (futures w))])
          (set_futures (fun fs => fs ++ [PENDING]) w))).
Proof.
  intros Hc Hdev Hstale. unfold _get_raw_value, bind, get_controller, read. rewrite Hc.
  unfold on_device in Hdev.
  destruct (class_of c) eqn:Hclass; try discriminate; rewrite Hstale; cbn [negb];
    unfold _retrieve_current_state, bind, get_controller; cbn; rewrite Hc, Hclass; reflexivity.
Qed.

(** X5.  [_get_raw_value] on a controller of the device whose cached value
    is older than ten seconds sends [GS2 <number>] and waits.  The answer
    [<number> <one to five digits>], with the requests queued before
    declining it, ends the wait without exception, stores the number read
    as the raw value at the current loop time, schedules the observers as
    [_set_raw_value] does, takes the request out of the queue and sends
    nothing; the resumed [_get_raw_value] returns the number. *)
Theorem stale_value_is_fetched_from_the_device (cn v : Z) (ds : string)
    (c : SymNetController) (w : world) :
  controllers w !! cn = Some c -> controller_number c = cn -> on_device c = true ->
  Qle_bool (loop_time w - raw_value_time c) value_timeout = false ->
  digits_value 0 ds = Some v -> (1 <= String.length ds <= 5)%nat ->
  let data_str := pretty cn +:+ " " +:+ ds +:+ cr in
  forallb (declines data_str (nonempty_lines data_str)) (callback_queue w) = true ->
  forallb (fun cb => future cb <? length (futures w))%nat (callback_queue w) = true ->
  let fut := length (futures w) in
  let w1 := snd (_get_raw_value cn w) in
  let w2 := snd (datagram_received data_str w1) in
  fst (_get_raw_value cn w) = Ok (Awaiting fut) /\
  sent w1 = sent w ++ ["GS2 " +:+ pretty cn +:+ cr] /\
  fst (datagram_received data_str w1) = Ok tt /\
  sent w2 = sent w1 /\
  futures w2 = futures w ++ [FINISHED (Ok tt)] /\
  callback_queue w2 = callback_queue w /\
  controllers w2 = <[cn := cached c v (loop_time w)]> (controllers w) /\
  tasks w2 = tasks w ++ notifications c v /\
  _get_raw_value_resumed cn w2 = (Ok v, w2).
Proof.
  intros Hc Hn Hdev Hstale Hv Hl data_str Hpre Hold fut w1 w2.
  pose proof (_get_raw_value_stale cn c w Hc Hdev Hstale) as E. rewrite Hn in E.
  set (callback_obj := Callback (retrieve_callback_of cn) 1 (Some (retrieve_regex cn)) fut).
  assert (Hw1 : w1 = set_sent (fun out => out ++ ["GS2 " +:+ pretty cn +:+ cr])
                       (set_callback_queue (fun q => q ++ [callback_obj])
                          (set_futures (fun fs => fs ++ [PENDING]) w)))
    by (unfold w1; rewrite E; reflexivity).
  assert (Hm : re_match (retrieve_regex cn) data_str = Some [(1%nat, ds)]).
  { apply retrieve_regex_match; [eapply digits_value_digits; eassumption|assumption]. }
  assert (Hcall : call (retrieve_callback_of cn) data_str (Some [(1%nat, ds)]) w1
                  = (Ok tt, set_tasks (fun ts => ts ++ notifications c v)
                              (set_controllers <[cn := cached c v (loop_time w1)]> w1))).
  { cbn [call]. unfold _retrieve_callback, bind, lift.
    change (int_group [(1%nat, ds)] 1) with (py_int ds).
    rewrite (py_int_digits_value ds v) by (assumption || lia).
    apply _set_raw_value_spec; [rewrite Hw1; exact Hc|exact Hn]. }
  assert (Hd : datagram_received data_str w1
               = (Ok tt, set_callback_queue (fun _ => callback_queue w ++ [])
                           (set_futures <[fut := FINISHED (Ok tt)]>
                              (set_tasks (fun ts => ts ++ notifications c v)
                                 (set_controllers <[cn := cached c v (loop_time w1)]> w1))))).
  { apply datagram_received_taken.
    rewrite (iterate_callbacks_first_willing data_str (callback_queue w) [] callback_obj w1).
    - unfold offered. cbn [regex _callback callback_obj]. rewrite Hm, Hcall. reflexivity.
    - rewrite Hw1. reflexivity.
    - apply (not_lone "NAK" data_str " "); [reflexivity| |reflexivity].
      unfold data_str. rewrite has_char_app.
      change (" " +:+ ds +:+ cr) with (String " " (ds +:+ cr)). cbn [has_char].
      change (Ascii.eqb " " " ") with true. apply orb_true_r.
    - exact Hpre.
    - unfold declines. cbn [regex callback_obj]. rewrite Hm. reflexivity.
    - cbn [future callback_obj]. clear -Hold.
      induction (callback_queue w) as [|cb q IH]; [reflexivity|].
      cbn [forallb] in *. apply andb_prop in Hold as [H1 H2].
      rewrite (IH H2), andb_true_r. apply negb_true_iff, Nat.eqb_neq.
      apply Nat.ltb_lt in H1. unfold fut. lia.
    - rewrite Hw1. cbn [futures set_sent set_callback_queue set_futures future callback_obj].
      unfold fut. rewrite lookup_app_r by lia. rewrite Nat.sub_diag. reflexivity. }
  assert (Hw2 : w2 = set_callback_queue (fun _ => callback_queue w ++ [])
                           (set_futures <[fut := FINISHED (Ok tt)]>
                              (set_tasks (fun ts => ts ++ notifications c v)
                                 (set_controllers <[cn := cached c v (loop_time w1)]> w1))))
    by (unfold w2; rewrite Hd; reflexivity).
  split; [rewrite E; reflexivity|].
  split; [rewrite Hw1; reflexivity|].
  split; [rewrite Hd; reflexivity|].
  split; [rewrite Hw2; reflexivity|].
  split.
  { rewrite Hw2, Hw1. cbn. unfold fut.
    rewrite insert_app_r_alt by lia. rewrite Nat.sub_diag. reflexivity. }
  split; [rewrite Hw2; cbn; apply app_nil_r|].
  split; [rewrite Hw2, Hw1; reflexivity|].
  split; [rewrite Hw2, Hw1; reflexivity|].
  unfold _get_raw_value_resumed, bind, get_controller.
  replace (controllers w2 !! cn) with (Some (cached c v (loop_time w))).
  - reflexivity.
  - rewrite Hw2, Hw1. cbn. rewrite lookup_insert_eq. reflexivity.
Qed.

Lemma stale_value_is_fetched_from_the_device_witness :
  let w1 := snd (_get_raw_value 7 stale_world) in
  let w2 := snd (datagram_received ("7 123" +:+ cr) w1) in
  sent w1 = ["GS2 7" +:+ cr] /\ fst (_get_raw_value_resumed 7 w2) = Ok 123.
Proof.
  pose proof (stale_value_is_fetched_from_the_device 7 123 "123" observed_selector
                stale_world eq_refl eq_refl eq_refl eq_refl eq_refl
                ltac:(simpl; lia) eq_refl eq_refl) as H.
  cbv zeta in H. destruct H as (_ & Hsent & _ & _ & _ & _ & _ & _ & Hres).
  split; [exact Hsent|].
  change (pretty 7 +:+ " " +:+ "123" +:+ cr) with ("7 123" +:+ cr) in Hres.
  rewrite Hres. reflexivity.
Defined.

(** ** Pushed states of controllers nobody defined *)

(** X6.  One turn of [_process_push_messages] never raises.  With nothing on
    the push channel it waits and changes nothing; otherwise it consumes the
    oldest state, and when no controller with that number is defined it
    does nothing else: no task, no log record, no exception. *)
Theorem _process_push_messages_drops_unknown_controllers (w : world) :
  match state_queue w with
  | [] => _process_push_messages w = (Ok None, w)
  | ControllerState number value :: q =>
      fst (_process_push_messages w) = Ok (Some tt) /\
      state_queue (snd (_process_push_messages w)) = q /\
      (controllers w !! number = None ->
       snd (_process_push_messages w) = set_state_queue (fun _ => q) w)
  end.
Proof.
  destruct (state_queue w) as [|[number value] q] eqn:Hq.
  - unfold _process_push_messages, bind, read. rewrite Hq. reflexivity.
  - destruct (controllers w !! number) as [c|] eqn:Hc.
    + unfold _process_push_messages, bind, read. rewrite Hq. unfold modify.
      cbn [controllers set_state_queue]. rewrite Hc.
      rewrite bool_decide_eq_true_2 by eauto.
      destruct (_set_raw_value_frame number value (set_state_queue (fun _ => q) w))
        as (_ & _ & _ & _ & Hs & _).
      assert (Hok : fst (_set_raw_value number value (set_state_queue (fun _ => q) w)) = Ok tt).
      { unfold _set_raw_value, bind, get_controller. cbn [controllers set_state_queue].
        rewrite Hc. unfold read, modify.
        destruct (bool_decide _); [rewrite create_tasks_spec|]; reflexivity. }
      destruct (_set_raw_value number value (set_state_queue (fun _ => q) w)) as [r w1].
      cbn [fst snd] in *. subst r. cbn [ret fst snd].
      split; [reflexivity|]. split; [rewrite Hs; reflexivity|]. intros [=].
    + unfold _process_push_messages, bind, read. rewrite Hq. unfold modify.
      cbn [controllers set_state_queue]. rewrite Hc.
      rewrite bool_decide_eq_false_2 by (intros [? [=]]).
      cbn. repeat split.
Qed.

(** ** The button controller *)

Lemma Qle_bool_age_zero (now : Q) : Qle_bool (now - now) value_timeout = true.
Proof.
  apply Qle_bool_iff. unfold value_timeout.
  assert (E : (now - now == 0)%Q) by (unfold Qminus; apply Qplus_opp_r).
  rewrite E. discriminate.
Qed.

(** [on] and [off] up to their [await]. *)
Lemma Button_write (cn value : Z) (c : SymNetController) (w : world) :
  controllers w !! cn = Some c -> controller_number c = cn ->
  class_of c = SymNetButtonController_class ->
  (_ <- as_button cn ;;
   _set_raw_value cn value ;;;
   callback_obj <- _assure_current_state cn ;;
   ret (Awaiting (A := unit) (future callback_obj))) w
  = (Ok (Awaiting (length (futures w))), after_set_position c value w).
Proof.
  intros Hc Hn Hclass.
  unfold bind at 1. unfold as_button, bind at 1, get_controller at 1. rewrite Hc, Hclass.
  cbn [ret]. unfold bind at 1. rewrite (_set_raw_value_spec cn value c) by assumption.
  unfold _assure_current_state, bind, get_controller.
  cbn [controllers set_tasks set_controllers]. rewrite lookup_insert_eq.
  cbn [class_of cached]. rewrite Hclass. subst cn. reflexivity.
Qed.

(** X7.  [set(state)] on a button stores 65535 for on and 0 for off, stamps
    the value, schedules the observers and sends [CS <number> <value>]
    before it waits for the acknowledgement; [pressed] asked before the
    device has answered reads the state back from the cache and sends
    nothing. *)
Theorem button_reads_back_what_was_set (cn : Z) (state : bool) (c : SymNetController)
    (w : world) :
  controllers w !! cn = Some c -> controller_number c = cn ->
  class_of c = SymNetButtonController_class ->
  let value := if state then 65535 else 0 in
  let w1 := snd (Button_set cn state w) in
  fst (Button_set cn state w) = Ok (Awaiting (length (futures w))) /\
  controllers w1 !! cn = Some (cached c value (loop_time w)) /\
  tasks w1 = tasks w ++ notifications c value /\
  sent w1 = sent w ++ ["CS " +:+ pretty cn +:+ " " +:+ pretty value +:+ cr] /\
  Button_pressed cn w1 = (Ok (Returned state), w1).
Proof.
  intros Hc Hn Hclass value w1.
  assert (E : Button_set cn state w
              = (Ok (Awaiting (length (futures w))), after_set_position c value w)).
  { unfold Button_set, value. destruct state; [unfold Button_on|unfold Button_off];
      apply Button_write; assumption. }
  assert (Hw1 : w1 = after_set_position c value w) by (unfold w1; rewrite E; reflexivity).
  assert (Hc1 : controllers w1 !! cn = Some (cached c value (loop_time w))).
  { rewrite Hw1. unfold after_set_position. cbn. rewrite Hn. apply lookup_insert_eq. }
  split; [rewrite E; reflexivity|]. split; [exact Hc1|].
  split; [rewrite Hw1; reflexivity|].
  split; [rewrite Hw1; unfold after_set_position; cbn; rewrite Hn; reflexivity|].
  unfold Button_pressed. unfold bind at 1. unfold as_button, bind at 1, get_controller at 1.
  rewrite Hc1. cbn [class_of cached]. rewrite Hclass. cbn [ret].
  unfold bind at 1. unfold _get_raw_value, bind, get_controller, read. rewrite Hc1.
  cbn [class_of cached raw_value_time raw_value]. rewrite Hclass.
  replace (loop_time w1) with (loop_time w) by (rewrite Hw1; reflexivity).
  rewrite Qle_bool_age_zero. cbn [negb ret]. unfold value. destruct state; reflexivity.
Qed.

Lemma button_reads_back_what_was_set_witness :
  let w1 := snd (Button_set 9 true button_world) in
  sent w1 = ["CS 9 65535" +:+ cr] /\ fst (Button_pressed 9 w1) = Ok (Returned true).
Proof.
  pose proof (button_reads_back_what_was_set 9 true observed_button button_world
                eq_refl eq_refl eq_refl) as H.
  cbv zeta in H. destruct H as (_ & _ & _ & Hsent & Hpressed).
  split; [exact Hsent|]. rewrite Hpressed. reflexivity.
Defined.

(** ** Observers *)

Lemma remove_first_last (clb : callable) (l : list callable) :
  forallb (fun clb' => negb (bool_decide (clb' = clb))) l = true ->
  remove_first clb l = None /\ remove_first clb (l ++ [clb]) = Some l.
Proof.
  induction l as [|clb' l IH]; intros Hl; cbn [app remove_first].
  - rewrite bool_decide_eq_true_2 by reflexivity. split; reflexivity.
  - cbn [forallb] in Hl. apply andb_prop in Hl as [Hne Hrest].
    apply negb_true_iff in Hne. rewrite Hne.
    destruct (IH Hrest) as [-> ->]. split; reflexivity.
Qed.

(** X8.  Observers are removed the way [list.remove] does it.  Removing a
    callable that is not registered raises ValueError and changes nothing;
    registering such a callable and removing it again leaves the world as
    it was. *)
Theorem observer_added_and_removed (cn : Z) (clb : callable) (c : SymNetController)
    (w : world) :
  controllers w !! cn = Some c ->
  forallb (fun clb' => negb (bool_decide (clb' = clb))) (observer c) = true ->
  remove_observer cn clb w = (Raise ValueError, w) /\
  (add_observer cn clb ;;; remove_observer cn clb) w = (Ok tt, w).
Proof.
  intros Hc Hnew. destruct (remove_first_last clb (observer c) Hnew) as [Hnone Hlast].
  split.
  - unfold remove_observer, bind, get_controller. rewrite Hc, Hnone. reflexivity.
  - unfold bind at 1. unfold add_observer, bind, get_controller. rewrite Hc.
    unfold modify. unfold remove_observer, bind, get_controller.
    cbn [controllers set_controllers]. rewrite lookup_insert_eq.
    cbn [observer class_of controller_number raw_value raw_value_time].
    rewrite Hlast. unfold modify. f_equal.
    destruct w as [t ts fs lg cq sq st cs]. unfold set_controllers. cbn in *. f_equal.
    rewrite insert_insert_eq. destruct c. apply insert_id. exact Hc.
Qed.

Lemma observer_added_and_removed_witness :
  remove_observer 9 (foreign_callable 2) button_world = (Raise ValueError, button_world).
Proof.
  exact (proj1 (observer_added_and_removed 9 (foreign_callable 2) observed_button
                  button_world eq_refl eq_refl)).
Defined.

(** ** The next occurrence of a minute and second (dispatcher) *)

(** *** Exact results *)

(** A float that is the integer [z]. *)
Lemma SF2Q_neg (m : positive) (e : Z) :
  (SF2Q (S754_finite true m e) == - SF2Q (S754_finite false m e))%Q.
Proof. cbn [SF2Q]. ring. Qed.















(** With a microsecond the rounding shows.  At 00:16:40.000001 on
    1970-01-01 (UTC), asked for minute 16 and second 40, the float
    difference to the same instant one hour later exceeds 3600, and the
    code returns a timestamp within a second of [now], not one hour later;
    counted exactly, the answer is one hour later. *)
Example calc_next_hour_timestamp_float_rounds_across_the_hour :
  let now := mkDatetime 719163 0 16 40 1 in
  exists f : float,
    calc_next_hour_timestamp_float 0 last_moment 16 40 (Some now) = Ok f /\
    (timestamp_float 0 now <? f)%float = true /\
    (f <? timestamp_float 0 now + @of_int binary64 1)%float = true /\
    calc_next_hour_timestamp 0 last_moment 16 40 (Some now)
    = Ok (timestamp 0 now + 3600 * 1000000).
Proof. eexists. vm_compute. repeat split; reflexivity. Qed.

(** X10.  [calc_next_hour_timestamp] raises instead of returning a time in
    two cases: ValueError when the minute or the second is outside 0..59,
    whatever [now] is, and OverflowError when [now] lies in the last hour of
    the last day a datetime can hold. *)
Theorem calc_next_hour_timestamp_raises
    (utcoffset : Z) (clock now : datetime) (minutes seconds : Z) :
  (~ (0 <= minutes < 60 /\ 0 <= seconds < 60) ->
   calc_next_hour_timestamp utcoffset clock minutes seconds (Some now) = Raise ValueError) /\
  (0 <= minutes < 60 -> 0 <= seconds < 60 ->
   ordinal now = MAXORDINAL -> hour now = 23 ->
   calc_next_hour_timestamp utcoffset clock minutes seconds (Some now)
   = Raise OverflowError).
Proof.
  unfold calc_next_hour_timestamp, replace. split.
  - intros Hbad.
    destruct ((0 <=? minutes) && (minutes <? 60) && (0 <=? seconds) && (seconds <? 60))
      eqn:E; [|reflexivity].
    exfalso. apply Hbad.
    repeat match type of E with _ && _ = true => apply andb_prop in E as [E ?] end.
    repeat match goal with
           | H : (_ <=? _) = true |- _ => apply Z.leb_le in H
           | H : (_ <? _) = true |- _ => apply Z.ltb_lt in H
           end.
    lia.
  - intros Hm Hs Hday Hhour.
    replace ((0 <=? minutes) && (minutes <? 60) && (0 <=? seconds) && (seconds <? 60))
      with true.
    2:{ symmetry. repeat (apply andb_true_intro; split);
          first [apply Z.leb_le | apply Z.ltb_lt]; lia. }
    cbv beta iota zeta. unfold add_hours. cbn [ordinal hour minute second microsecond].
    rewrite Hday, Hhour. reflexivity.
Qed.

(** ** Timers and studios across a change of state (dispatcher) *)

Lemma _stop_next_hour_timer_spec (d : Dispatcher) (w : world) :
  _stop_next_hour_timer (d, w)
  = (Ok tt, (set_next_hour_timer None d, set_tasks (cancelled (_next_hour_timer d)) w)).
Proof.
  unfold _stop_next_hour_timer, bind, self, read. cbn [fst snd].
  destruct d as [? ? [t|] ? ? ? ? ? ? ? ? ? ?]; destruct w; reflexivity.
Qed.

Lemma _stop_immediate_state_timer_spec (d : Dispatcher) (w : world) :
  _stop_immediate_state_timer (d, w)
  = (Ok tt, (set_immediate_state_timer None d,
             set_tasks (cancelled (_immediate_state_timer d)) w)).
Proof.
  unfold _stop_immediate_state_timer, bind, self, read. cbn [fst snd].
  destruct d as [? ? ? [t|] ? ? ? ? ? ? ? ? ?]; destruct w; reflexivity.
Qed.

Lemma _stop_immediate_release_timer_spec (d : Dispatcher) (w : world) :
  _stop_immediate_release_timer (d, w)
  = (Ok tt, (set_immediate_release_timer None d,
             set_tasks (cancelled (_immediate_release_timer d)) w)).
Proof.
  unfold _stop_immediate_release_timer, bind, self, read. cbn [fst snd].
  destruct d as [? ? ? ? [t|] ? ? ? ? ? ? ? ?]; destruct w; reflexivity.
Qed.

Lemma _start_next_hour_timer_spec (d : Dispatcher) (w : world) :
  _start_next_hour_timer (d, w)
  = (Ok tt,
     if running (_next_hour_timer d) (tasks w) then (d, w)
     else (set_next_hour_timer (Some (length (tasks w))) d,
           set_tasks (fun ts => ts ++ [Task Dispatcher_hour_timer Scheduled]) w)).
Proof.
  unfold _start_next_hour_timer, task_done, bind, self, read, ret, running. cbn [fst snd].
  destruct (_next_hour_timer d) as [t|]; [|reflexivity].
  cbn [fst snd]. destruct (negb _); reflexivity.
Qed.

Lemma _start_immediate_state_timer_spec (d : Dispatcher) (w : world) :
  _start_immediate_state_timer (d, w)
  = (Ok tt,
     if running (_immediate_state_timer d) (tasks w) then (d, w)
     else (set_immediate_state_timer (Some (length (tasks w))) d,
           set_tasks (fun ts => ts ++ [Task Dispatcher_immediate_state_timer Scheduled]) w)).
Proof.
  unfold _start_immediate_state_timer, task_done, bind, self, read, ret, running.
  cbn [fst snd]. destruct (_immediate_state_timer d) as [t|]; [|reflexivity].
  cbn [fst snd]. destruct (negb _); reflexivity.
Qed.

Lemma _start_immediate_release_timer_spec (d : Dispatcher) (w : world) :
  _start_immediate_release_timer (d, w)
  = (Ok tt,
     if completed (_immediate_release_timer d) (tasks w) then (d, w)
     else (set_immediate_release_timer (Some (length (tasks w))) d,
           set_tasks (fun ts => ts ++ [Task Dispatcher_immediate_release_timer Scheduled]) w)).
Proof.
  unfold _start_immediate_release_timer, task_done, bind, self, read, ret, completed.
  cbn [fst snd]. destruct (_immediate_release_timer d) as [t|]; [|reflexivity].
  cbn [fst snd].
  destruct (match tasks w !! t with Some tk => done tk | None => false end); reflexivity.
Qed.

(** The first step of [_before_state_change] sets a studio and nothing
    else. *)
Lemma studio_of_the_event (event_name : string) (button_event : option ButtonEvent)
    (d : Dispatcher) (w : world) :
  exists d0,
    match button_event with
    | Some be =>
        if str_in "X" event_name then update (set_x (Some (studio be)))
        else if str_in "Y" event_name then update (set_y (Some (studio be)))
        else ret tt
    | None => ret tt
    end (d, w) = (Ok tt, (d0, w)) /\
    _next_hour_timer d0 = _next_hour_timer d /\
    _immediate_state_timer d0 = _immediate_state_timer d /\
    _immediate_release_timer d0 = _immediate_release_timer d.
Proof.
  destruct button_event as [be|]; [|exists d; repeat split].
  destruct (str_in "X" event_name); [eexists; repeat split|].
  destruct (str_in "Y" event_name); eexists; repeat split.
Qed.

(** [_before_state_change] as the chain of its steps. *)
Lemma _before_state_change_spec (event_name : string) (button_event : option ButtonEvent)
    (dest : string) (d : Dispatcher) (w : world) :
  exists d0,
    _next_hour_timer d0 = _next_hour_timer d /\
    _immediate_state_timer d0 = _immediate_state_timer d /\
    _immediate_release_timer d0 = _immediate_release_timer d /\
    _before_state_change event_name button_event (Some dest) (d, w)
    = (Ok tt,
       let s1 := if str_in "next_hour" dest then (d0, w)
                 else (set_next_hour_timer None d0,
                       set_tasks (cancelled (_next_hour_timer d0)) w) in
       let s2 := if str_in "immediate_state" dest then s1
                 else (set_immediate_state_timer None (fst s1),
                       set_tasks (cancelled (_immediate_state_timer (fst s1))) (snd s1)) in
       if str_in "immediate_release" dest then s2
       else (set_immediate_release_timer None (fst s2),
             set_tasks (cancelled (_immediate_release_timer (fst s2))) (snd s2))).
Proof.
  destruct (studio_of_the_event event_name button_event d w) as (d0 & E & H1 & H2 & H3).
  exists d0. split; [exact H1|]. split; [exact H2|]. split; [exact H3|].
  unfold _before_state_change. unfold bind at 1. unfold D in E. rewrite E.
  destruct (str_in "next_hour" dest), (str_in "immediate_state" dest),
    (str_in "immediate_release" dest); cbn [negb]; unfold bind, ret;
    rewrite ?_stop_next_hour_timer_spec, ?_stop_immediate_state_timer_spec,
      ?_stop_immediate_release_timer_spec; reflexivity.
Qed.

(** [_after_state_change] as the chain of its steps. *)
Lemma _after_state_change_spec (dest : string) (d : Dispatcher) (w : world) :
  exists d2,
    _next_hour_timer d2 = _next_hour_timer d /\
    _immediate_state_timer d2 = _immediate_state_timer d /\
    _immediate_release_timer d2 = _immediate_release_timer d /\
    _x d2 = (if nonempty dest && negb (str_in "X" dest) then None else _x d) /\
    _y d2 = (if nonempty dest && negb (str_in "Y" dest) then None else _y d) /\
    _after_state_change (Some dest) (d, w)
    = (Ok tt,
       let s1 := if str_in "next_hour" dest && negb (running (_next_hour_timer d2) (tasks w))
                 then (set_next_hour_timer (Some (length (tasks w))) d2,
                       set_tasks (fun ts => ts ++ [Task Dispatcher_hour_timer Scheduled]) w)
                 else (d2, w) in
       let s2 := if str_in "immediate_state" dest
                    && negb (running (_immediate_state_timer (fst s1)) (tasks (snd s1)))
                 then (set_immediate_state_timer (Some (length (tasks (snd s1)))) (fst s1),
                       set_tasks
                         (fun ts => ts ++ [Task Dispatcher_immediate_state_timer Scheduled])
                         (snd s1))
                 else s1 in
       if str_in "immediate_release" dest
          && negb (completed (_immediate_release_timer (fst s2)) (tasks (snd s2)))
       then (set_immediate_release_timer (Some (length (tasks (snd s2)))) (fst s2),
             set_tasks (fun ts => ts ++ [Task Dispatcher_immediate_release_timer Scheduled])
               (snd s2))
       else s2).
Proof.
  set (d1 := if nonempty dest && negb (str_in "X" dest) then set_x None d else d).
  set (d2 := if nonempty dest && negb (str_in "Y" dest) then set_y None d1 else d1).
  assert (E1 : (if nonempty dest && negb (str_in "X" dest)
                then update (set_x None) else ret tt) (d, w) = (Ok tt, (d1, w)))
    by (unfold d1; destruct (nonempty dest && negb (str_in "X" dest)); reflexivity).
  assert (E2 : (if nonempty dest && negb (str_in "Y" dest)
                then update (set_y None) else ret tt) (d1, w) = (Ok tt, (d2, w)))
    by (unfold d2; destruct (nonempty dest && negb (str_in "Y" dest)); reflexivity).
  exists d2.
  assert (F : _next_hour_timer d2 = _next_hour_timer d /\
              _immediate_state_timer d2 = _immediate_state_timer d /\
              _immediate_release_timer d2 = _immediate_release_timer d /\
              _x d2 = (if nonempty dest && negb (str_in "X" dest) then None else _x d) /\
              _y d2 = (if nonempty dest && negb (str_in "Y" dest) then None else _y d)).
  { unfold d2, d1.
    destruct (nonempty dest && negb (str_in "X" dest)),
      (nonempty dest && negb (str_in "Y" dest)); repeat split. }
  destruct F as (F1 & F2 & F3 & F4 & F5).
  split; [exact F1|]. split; [exact F2|]. split; [exact F3|].
  split; [exact F4|]. split; [exact F5|].
  unfold _after_state_change.
  unfold bind at 1. unfold D in E1. rewrite E1. unfold bind at 1.
  unfold D in E2. rewrite E2. clearbody d2. clear E1 E2 d1 F1 F2 F3 F4 F5.
  unfold bind at 1.
  destruct (str_in "next_hour" dest); cbn [andb];
    [rewrite _start_next_hour_timer_spec;
     destruct (running (_next_hour_timer d2) (tasks w)); cbn [negb]|cbn [ret]].
  all: unfold bind at 1.
  all: destruct (str_in "immediate_state" dest); cbn [andb];
    [rewrite _start_immediate_state_timer_spec; cbn [fst snd];
     destruct (running _ _); cbn [negb fst snd]|cbn [ret fst snd]].
  all: destruct (str_in "immediate_release" dest); cbn [andb];
    [rewrite _start_immediate_release_timer_spec; cbn [fst snd];
     destruct (completed _ _); cbn [negb]; reflexivity|reflexivity].
Qed.

Lemma state_change_callbacks_spec (event_name : string) (button_event : option ButtonEvent)
    (dest : string) (d : Dispatcher) (w : world) :
  state_change_callbacks event_name button_event dest (d, w)
  = _after_state_change (Some dest)
      (snd (_before_state_change event_name button_event (Some dest) (d, w))) /\
  fst (state_change_callbacks event_name button_event dest (d, w)) = Ok tt.
Proof.
  unfold state_change_callbacks, bind.
  destruct (_before_state_change_spec event_name button_event dest d w)
    as (d0 & _ & _ & _ & E).
  rewrite E. cbn [snd]. cbv beta iota.
  match goal with |- context [_after_state_change (Some dest) ?s] =>
    generalize s end.
  intros [d' w']. destruct (_after_state_change_spec dest d' w') as (d2 & _ & _ & _ & _ & _ & E2).
  rewrite E2. split; reflexivity.
Qed.

Lemma running_is_Some (timer : option nat) (ts : list task) :
  running timer ts = true -> is_Some timer.
Proof. destruct timer; [eauto|discriminate]. Qed.

Lemma completed_is_Some (timer : option nat) (ts : list task) :
  completed timer ts = true -> is_Some timer.
Proof. destruct timer; [eauto|discriminate]. Qed.

Ltac timer_guards :=
  repeat match goal with
         | |- context [running ?t ?ts] =>
             let R := fresh "R" in destruct (running t ts) eqn:R; cbn [negb andb fst snd]
         | |- context [completed ?t ?ts] =>
             let R := fresh "R" in destruct (completed t ts) eqn:R; cbn [negb andb fst snd]
         end.

Lemma named_timers_are_set (event_name : string)
    (button_event : option ButtonEvent) (dest : string) (d : Dispatcher) (w : world)
    (kind : timer_kind) :
  let after := state_change_callbacks event_name button_event dest (d, w) in
  (is_Some (timer_of kind (fst (snd after))) <-> str_in (token kind) dest = true) /\
  (nonempty dest = true -> str_in "X" dest = false -> _x (fst (snd after)) = None) /\
  (nonempty dest = true -> str_in "Y" dest = false -> _y (fst (snd after)) = None).
Proof.
  intros after. subst after.
  destruct (state_change_callbacks_spec event_name button_event dest d w) as [E Hok].
  rewrite E. clear E Hok.
  destruct (_before_state_change_spec event_name button_event dest d w)
    as (d0 & _ & _ & _ & E).
  rewrite E. clear E. cbn [snd].
  match goal with |- context [_after_state_change (Some dest) ?s] =>
    destruct (_after_state_change_spec dest (fst s) (snd s))
      as (d2 & T1 & T2 & T3 & Tx & Ty & E);
    rewrite (surjective_pairing s), E; clear E
  end.
  split; [|split].
  - clear Tx Ty.
    destruct (str_in "next_hour" dest) eqn:Hnh, (str_in "immediate_state" dest) eqn:His,
      (str_in "immediate_release" dest) eqn:Hir; cbn [fst snd andb] in *;
      destruct kind; cbn [token timer_of]; rewrite ?Hnh, ?His, ?Hir.
    all: timer_guards.
    all: cbn in T1, T2, T3 |- *; rewrite ?T1, ?T2, ?T3.
    all: split; [intros Hs; try reflexivity; try (destruct Hs; discriminate)
                |intros Ht; try discriminate Ht].
    all: try (eexists; reflexivity).
    all: rewrite <- ?T1, <- ?T2, <- ?T3; eauto using running_is_Some, completed_is_Some.
  - intros Hn Hx. rewrite Hn, Hx in Tx. cbn [andb negb] in Tx. clear -Tx.
    cbn [snd].
    repeat match goal with
           | |- context [if ?b then _ else _] => destruct b
           end; exact Tx.
  - intros Hn Hy. rewrite Hn, Hy in Ty. cbn [andb negb] in Ty. clear -Ty.
    cbn [snd].
    repeat match goal with
           | |- context [if ?b then _ else _] => destruct b
           end; exact Ty.
Qed.

(** X11.  The two callbacks around a change of state never raise, and after
    them each of the three timer attributes holds a task exactly when the
    name of the destination state contains the timer's token; a studio
    attribute whose letter is not in the name of the destination is None. *)
Theorem state_change_leaves_the_named_timers_set (event_name : string)
    (button_event : option ButtonEvent) (dest : string) (d : Dispatcher) (w : world)
    (kind : timer_kind) :
  let after := state_change_callbacks event_name button_event dest (d, w) in
  fst after = Ok tt /\
  (is_Some (timer_of kind (fst (snd after))) <-> str_in (token kind) dest = true) /\
  (nonempty dest = true -> str_in "X" dest = false -> _x (fst (snd after)) = None) /\
  (nonempty dest = true -> str_in "Y" dest = false -> _y (fst (snd after)) = None).
Proof.
  intros after. split.
  - apply state_change_callbacks_spec.
  - apply named_timers_are_set.
Qed.

Lemma cancelled_length (timer : option nat) (ts : list task) :
  length (cancelled timer ts) = length ts.
Proof.
  unfold cancelled. destruct timer as [t|]; [|reflexivity].
  destruct (ts !! t) as [[c []]|]; try reflexivity. apply length_insert.
Qed.

Lemma cancelled_other (timer : option nat) (ts : list task) (t : nat) :
  timer <> Some t -> cancelled timer ts !! t = ts !! t.
Proof.
  intros Hne. unfold cancelled. destruct timer as [t'|]; [|reflexivity].
  destruct (ts !! t') as [[c []]|]; try reflexivity.
  apply list_lookup_insert_ne. congruence.
Qed.

Lemma cancelled_scheduled (timer : option nat) (ts : list task) (t : nat) (c : coroutine) :
  ts !! t = Some (Task c Scheduled) \/ ts !! t = Some (Task c CancelRequested) ->
  (cancelled timer ts !! t = Some (Task c Scheduled) \/
   cancelled timer ts !! t = Some (Task c CancelRequested)) /\
  cancelled (Some t) ts !! t = Some (Task c CancelRequested).
Proof.
  intros H. split.
  - destruct (decide (timer = Some t)) as [->|Hne]; [|rewrite cancelled_other; assumption].
    right. unfold cancelled. destruct H as [H|H]; rewrite H; [|exact H].
    apply list_lookup_insert_eq. eapply lookup_lt_Some; eassumption.
  - unfold cancelled. destruct H as [H|H]; rewrite H; [|exact H].
    apply list_lookup_insert_eq. eapply lookup_lt_Some; eassumption.
Qed.

Lemma cancelled_keeps_request (timer : option nat) (ts : list task) (t : nat)
    (c : coroutine) :
  ts !! t = Some (Task c CancelRequested) ->
  cancelled timer ts !! t = Some (Task c CancelRequested).
Proof.
  intros H. destruct (decide (timer = Some t)) as [->|Hne].
  - unfold cancelled. rewrite H. exact H.
  - rewrite cancelled_other; assumption.
Qed.

Lemma running_lookup (t : nat) (tk : task) (ts : list task) :
  ts !! t = Some tk -> done tk = false -> running (Some t) ts = true.
Proof. intros H Hd. unfold running. rewrite H, Hd. reflexivity. Qed.

(** *** Steps that keep a property *)

Lemma preserves_bind (I : Dispatcher * world -> Prop) (c1 c2 : D unit) :
  preserves I c1 -> preserves I c2 -> preserves I (c1 ;;; c2).
Proof.
  intros H1 H2 s Hs. unfold bind. destruct (H1 s Hs) as [E1 I1].
  destruct (c1 s) as [[[]|e] s1]; cbn [fst snd] in *; [|discriminate].
  apply H2, I1.
Qed.

Lemma preserves_ret (I : Dispatcher * world -> Prop) : preserves I (ret tt).
Proof. intros s Hs. split; [reflexivity|exact Hs]. Qed.

Lemma preserves_if (I : Dispatcher * world -> Prop) (b : bool) (c1 c2 : D unit) :
  (b = true -> preserves I c1) -> (b = false -> preserves I c2) ->
  preserves I (if b then c1 else c2).
Proof. destruct b; auto. Qed.

(** Setting a studio attribute touches no timer and no task. *)
Lemma preserves_update (I : Dispatcher * world -> Prop) (f : Dispatcher -> Dispatcher) :
  (forall d w, I (d, w) -> I (f d, w)) -> preserves I (update f).
Proof. intros H [d w] Hs. split; [reflexivity|]. apply H, Hs. Qed.

Lemma preserves_studio_of_the_event (I : Dispatcher * world -> Prop)
    (event_name : string) (button_event : option ButtonEvent) :
  (forall v d w, I (d, w) -> I (set_x v d, w)) ->
  (forall v d w, I (d, w) -> I (set_y v d, w)) ->
  preserves I
    match button_event with
    | Some be =>
        if str_in "X" event_name then update (set_x (Some (studio be)))
        else if str_in "Y" event_name then update (set_y (Some (studio be)))
        else ret tt
    | None => ret tt
    end.
Proof.
  intros Hx Hy. destruct button_event as [be|]; [|apply preserves_ret].
  destruct (str_in "X" event_name); [apply preserves_update, Hx|].
  destruct (str_in "Y" event_name); [apply preserves_update, Hy|apply preserves_ret].
Qed.

(** A property that the steps of the two callbacks keep, given what the
    destination lets them do, holds across the change of state. *)
Lemma preserves_state_change (I : Dispatcher * world -> Prop) (event_name : string)
    (button_event : option ButtonEvent) (dest : string) :
  (forall v d w, I (d, w) -> I (set_x v d, w)) ->
  (forall v d w, I (d, w) -> I (set_y v d, w)) ->
  (str_in "next_hour" dest = false -> preserves I _stop_next_hour_timer) ->
  (str_in "immediate_state" dest = false -> preserves I _stop_immediate_state_timer) ->
  (str_in "immediate_release" dest = false -> preserves I _stop_immediate_release_timer) ->
  (str_in "next_hour" dest = true -> preserves I _start_next_hour_timer) ->
  (str_in "immediate_state" dest = true -> preserves I _start_immediate_state_timer) ->
  (str_in "immediate_release" dest = true -> preserves I _start_immediate_release_timer) ->
  preserves I (state_change_callbacks event_name button_event dest).
Proof.
  intros Hx Hy S1 S2 S3 T1 T2 T3.
  unfold state_change_callbacks, _before_state_change, _after_state_change.
  repeat apply preserves_bind.
  - apply preserves_studio_of_the_event; assumption.
  - apply preserves_if; [intros E; apply negb_true_iff in E; auto|intros; apply preserves_ret].
  - apply preserves_if; [intros E; apply negb_true_iff in E; auto|intros; apply preserves_ret].
  - apply preserves_if; [intros E; apply negb_true_iff in E; auto|intros; apply preserves_ret].
  - apply preserves_if; [intros; apply preserves_update, Hx|intros; apply preserves_ret].
  - apply preserves_if; [intros; apply preserves_update, Hy|intros; apply preserves_ret].
  - apply preserves_if; [auto|intros; apply preserves_ret].
  - apply preserves_if; [auto|intros; apply preserves_ret].
  - apply preserves_if; [auto|intros; apply preserves_ret].
Qed.

(** *** Each timer by its kind *)

Lemma stop_timer_spec (kind : timer_kind) (d : Dispatcher) (w : world) :
  stop_timer kind (d, w)
  = (Ok tt, (set_timer kind None d, set_tasks (cancelled (timer_of kind d)) w)).
Proof.
  destruct kind; [apply _stop_next_hour_timer_spec|apply _stop_immediate_state_timer_spec
                 |apply _stop_immediate_release_timer_spec].
Qed.

Lemma start_timer_spec (kind : timer_kind) (d : Dispatcher) (w : world) :
  start_timer kind (d, w)
  = (Ok tt,
     if start_guard kind (timer_of kind d) (tasks w) then (d, w)
     else (set_timer kind (Some (length (tasks w))) d,
           set_tasks (fun ts => ts ++ [Task (timer_coro kind) Scheduled]) w)).
Proof.
  destruct kind; [apply _start_next_hour_timer_spec|apply _start_immediate_state_timer_spec
                 |apply _start_immediate_release_timer_spec].
Qed.

Lemma timer_of_set_timer (kind other : timer_kind) (v : option nat) (d : Dispatcher) :
  timer_of kind (set_timer other v d)
  = if bool_decide (kind = other) then v else timer_of kind d.
Proof. destruct kind, other; reflexivity. Qed.

Lemma timer_of_set_x (kind : timer_kind) (v : option Studio) (d : Dispatcher) :
  timer_of kind (set_x v d) = timer_of kind d.
Proof. destruct kind; reflexivity. Qed.

Lemma timer_of_set_y (kind : timer_kind) (v : option Studio) (d : Dispatcher) :
  timer_of kind (set_y v d) = timer_of kind d.
Proof. destruct kind; reflexivity. Qed.

(** *** A running timer the destination names *)

Lemma holds_timer_stop (kind other : timer_kind) (t : nat) (tk : task) :
  other <> kind -> preserves (holds_timer kind t tk) (stop_timer other).
Proof.
  intros Hne [d w] (Ht & Hl & Hothers). rewrite stop_timer_spec. split; [reflexivity|].
  cbn [fst snd] in *. unfold holds_timer. cbn [fst snd tasks set_tasks].
  split; [|split].
  - rewrite timer_of_set_timer, bool_decide_eq_false_2 by congruence. exact Ht.
  - rewrite cancelled_other; [exact Hl|]. apply Hothers, Hne.
  - intros k Hk. rewrite timer_of_set_timer. destruct (bool_decide (k = other)); [discriminate|].
    apply Hothers, Hk.
Qed.

Lemma holds_timer_start_other (kind other : timer_kind) (t : nat) (tk : task) :
  other <> kind -> preserves (holds_timer kind t tk) (start_timer other).
Proof.
  intros Hne [d w] (Ht & Hl & Hothers). rewrite start_timer_spec. split; [reflexivity|].
  cbn [fst snd] in *. destruct (start_guard other _ _); [repeat split; assumption|].
  unfold holds_timer. cbn [fst snd tasks set_tasks]. split; [|split].
  - rewrite timer_of_set_timer, bool_decide_eq_false_2 by congruence. exact Ht.
  - apply lookup_app_l_Some, Hl.
  - intros k Hk. rewrite timer_of_set_timer. destruct (bool_decide (k = other)).
    + apply lookup_lt_Some in Hl. intros [= E]. lia.
    + apply Hothers, Hk.
Qed.

Lemma holds_timer_start (kind : timer_kind) (t : nat) (tk : task) :
  kind <> Immediate_release -> done tk = false ->
  preserves (holds_timer kind t tk) (start_timer kind).
Proof.
  intros Hkind Hd [d w] (Ht & Hl & Hothers). rewrite start_timer_spec.
  split; [reflexivity|]. cbn [fst snd] in *.
  replace (start_guard kind (timer_of kind d) (tasks w)) with true.
  - repeat split; assumption.
  - symmetry. rewrite Ht. destruct kind; try congruence; apply (running_lookup t tk); assumption.
Qed.

(** X12.  A next-hour or immediate-state timer that is running when the
    state changes to a state whose name contains the timer's token is kept
    across the two callbacks: the attribute still holds the same task and
    the task has been neither cancelled nor replaced. *)
Theorem running_timer_survives_state_change (event_name : string)
    (button_event : option ButtonEvent) (dest : string) (d : Dispatcher) (w : world)
    (kind : timer_kind) (t : nat) (tk : task) :
  kind <> Immediate_release ->
  timer_of kind d = Some t -> tasks w !! t = Some tk -> done tk = false ->
  str_in (token kind) dest = true ->
  (forall other, other <> kind -> timer_of other d <> Some t) ->
  let after := snd (state_change_callbacks event_name button_event dest (d, w)) in
  timer_of kind (fst after) = Some t /\ tasks (snd after) !! t = Some tk.
Proof.
  intros Hkind Ht Hl Hd Htoken Hothers after.
  assert (P : preserves (holds_timer kind t tk)
                (state_change_callbacks event_name button_event dest)).
  { apply preserves_state_change.
    - intros v d' w' (H1 & H2 & H3). split; [|split]; cbn [fst snd] in *.
      + rewrite timer_of_set_x. exact H1.
      + exact H2.
      + intros k Hk. rewrite timer_of_set_x. apply H3, Hk.
    - intros v d' w' (H1 & H2 & H3). split; [|split]; cbn [fst snd] in *.
      + rewrite timer_of_set_y. exact H1.
      + exact H2.
      + intros k Hk. rewrite timer_of_set_y. apply H3, Hk.
    - intros E. apply (holds_timer_stop kind Next_hour). intros <-. cbn in Htoken. congruence.
    - intros E. apply (holds_timer_stop kind Immediate_state). intros <-.
      cbn in Htoken. congruence.
    - intros E. apply (holds_timer_stop kind Immediate_release). intros <-.
      cbn in Htoken. congruence.
    - intros _. destruct (decide (Next_hour = kind)) as [<-|Hne].
      + apply (holds_timer_start Next_hour); assumption.
      + apply (holds_timer_start_other kind Next_hour), Hne.
    - intros _. destruct (decide (Immediate_state = kind)) as [<-|Hne].
      + apply (holds_timer_start Immediate_state); assumption.
      + apply (holds_timer_start_other kind Immediate_state), Hne.
    - intros _. destruct (decide (Immediate_release = kind)) as [<-|Hne].
      + congruence.
      + apply (holds_timer_start_other kind Immediate_release), Hne. }
  destruct (P (d, w)) as [_ (H1 & H2 & _)]; [repeat split; assumption|].
  split; assumption.
Qed.

Lemma running_timer_survives_state_change_witness :
  let after := snd (state_change_callbacks "next_hour" None
                      "from_studio_X_change_to_automat_on_next_hour"
                      (waiting_dispatcher, hour_timer_world)) in
  _next_hour_timer (fst after) = Some 0%nat /\
  tasks (snd after) !! 0%nat = Some (Task Dispatcher_hour_timer Scheduled).
Proof.
  apply (running_timer_survives_state_change "next_hour" None
           "from_studio_X_change_to_automat_on_next_hour"
           waiting_dispatcher hour_timer_world Next_hour 0
           (Task Dispatcher_hour_timer Scheduled)).
  - discriminate.
  - reflexivity.
  - reflexivity.
  - reflexivity.
  - reflexivity.
  - intros [] H; try discriminate. congruence.
Defined.

(** *** A timer the destination does not name *)

Lemma held_or_stopped_stop (kind other : timer_kind) (t : nat) (c : coroutine) :
  preserves (held_or_stopped kind t c) (stop_timer other).
Proof.
  intros [d w] H. rewrite stop_timer_spec. split; [reflexivity|].
  unfold held_or_stopped in *. cbn [fst snd tasks set_tasks] in *.
  rewrite timer_of_set_timer.
  destruct H as [[Ht Hl]|[Ht Hl]].
  - destruct (cancelled_scheduled (timer_of other d) (tasks w) t c Hl) as [Hany Hthis].
    destruct (bool_decide (kind = other)) eqn:E.
    + apply bool_decide_eq_true in E. subst other. right. split; [reflexivity|].
      rewrite Ht. exact Hthis.
    + left. split; assumption.
  - right. split; [destruct (bool_decide _); [reflexivity|exact Ht]|].
    apply cancelled_keeps_request, Hl.
Qed.

Lemma held_or_stopped_start (kind other : timer_kind) (t : nat) (c : coroutine) :
  other <> kind -> preserves (held_or_stopped kind t c) (start_timer other).
Proof.
  intros Hne [d w] H. rewrite start_timer_spec. split; [reflexivity|].
  cbn [fst snd]. destruct (start_guard other _ _); [exact H|].
  unfold held_or_stopped in *. cbn [fst snd tasks set_tasks] in *.
  rewrite timer_of_set_timer, bool_decide_eq_false_2 by congruence.
  destruct H as [[Ht [Hl|Hl]]|[Ht Hl]]; [left|left|right]; (split; [exact Ht|]);
    [left|right|]; apply lookup_app_l_Some, Hl.
Qed.

(** X13.  A timer that holds a scheduled task when the state changes to a
    state whose name does not contain the timer's token is stopped by the
    two callbacks: the task is asked to cancel and the attribute is None
    afterwards. *)
Theorem unnamed_timer_is_cancelled (event_name : string)
    (button_event : option ButtonEvent) (dest : string) (d : Dispatcher) (w : world)
    (kind : timer_kind) (t : nat) (c : coroutine) :
  timer_of kind d = Some t -> tasks w !! t = Some (Task c Scheduled) ->
  str_in (token kind) dest = false ->
  let after := snd (state_change_callbacks event_name button_event dest (d, w)) in
  timer_of kind (fst after) = None /\
  tasks (snd after) !! t = Some (Task c CancelRequested).
Proof.
  intros Ht Hl Htoken after.
  assert (P : preserves (held_or_stopped kind t c)
                (state_change_callbacks event_name button_event dest)).
  { apply preserves_state_change.
    - intros v d' w' H. unfold held_or_stopped in *. cbn [fst snd] in *.
      rewrite timer_of_set_x. exact H.
    - intros v d' w' H. unfold held_or_stopped in *. cbn [fst snd] in *.
      rewrite timer_of_set_y. exact H.
    - intros _. apply (held_or_stopped_stop kind Next_hour).
    - intros _. apply (held_or_stopped_stop kind Immediate_state).
    - intros _. apply (held_or_stopped_stop kind Immediate_release).
    - intros E. apply (held_or_stopped_start kind Next_hour). intros <-.
      cbn in Htoken. congruence.
    - intros E. apply (held_or_stopped_start kind Immediate_state). intros <-.
      cbn in Htoken. congruence.
    - intros E. apply (held_or_stopped_start kind Immediate_release). intros <-.
      cbn in Htoken. congruence. }
  destruct (named_timers_are_set event_name button_event dest d w kind) as [Hset _].
  destruct (P (d, w)) as [_ H]; [left; split; [exact Ht|left; exact Hl]|].
  fold after in H. cbv zeta in Hset. fold after in Hset.
  destruct H as [[Hheld _]|[Hnone Hreq]].
  - exfalso. rewrite Htoken in Hset. destruct Hset as [Hset _].
    discriminate Hset. rewrite Hheld. eauto.
  - split; assumption.
Qed.

Lemma unnamed_timer_is_cancelled_witness :
  let after := snd (state_change_callbacks "next_hour" None "automat_on_air"
                      (waiting_dispatcher, hour_timer_world)) in
  _next_hour_timer (fst after) = None /\
  tasks (snd after) !! 0%nat = Some (Task Dispatcher_hour_timer CancelRequested).
Proof.
  exact (unnamed_timer_is_cancelled "next_hour" None "automat_on_air"
           waiting_dispatcher hour_timer_world Next_hour 0 Dispatcher_hour_timer
           eq_refl eq_refl eq_refl).
Defined.

(** ** The audit of the studio attributes (dispatcher) *)

(** X14.  [_audit_state] never raises and never changes the dispatcher; all
    it does is log at most two records, each critical, and it logs none
    exactly when the state name and the studio attributes agree: X is in
    the name of the current state iff [_x] is set, and Y iff [_y] is. *)
Theorem _audit_state_logs_disagreement (d : Dispatcher) (w : world) :
  exists records,
    _audit_state (d, w) = (Ok tt, (d, set_log (fun l => l ++ records) w)) /\
    Forall (fun r => levelname r = CRITICAL) records /\
    (length records <= 2)%nat /\
    (records = [] <-> consistent d).
Proof.
  exists ((if str_in "X" (state_name (machine_state d))
           then if _x d is None
                then [LogRecord CRITICAL "X in state and self._X is None" []] else []
           else if _x d is None then []
                else [LogRecord CRITICAL "X not in state and self._X is not None" []])
          ++
          (if str_in "Y" (state_name (machine_state d))
           then if _y d is None
                then [LogRecord CRITICAL "Y in state and self._Y is None" []] else []
           else if _y d is None then []
                else [LogRecord CRITICAL "Y not in state and self._Y is not None" []])).
  unfold _audit_state, consistent, bind, self, read, in_world, logger, modify, ret.
  cbn [fst snd].
  destruct (str_in "X" (state_name (machine_state d))),
    (str_in "Y" (state_name (machine_state d))), (_x d) as [sx|], (_y d) as [sy|];
    cbn [fst snd app].
  all: split; [destruct w; unfold set_log; cbn; rewrite ?app_nil_r, <- ?app_assoc;
               reflexivity|].
  all: split; [repeat constructor|].
  all: split; [cbn; lia|].
  all: split; [intros E; try discriminate E; split; split; intros H;
               first [reflexivity | eexists; reflexivity | discriminate H
                     | destruct H as [? H']; discriminate H']|].
  all: intros [[H1 H2] [H3 H4]]; try reflexivity.
  all: try (destruct H1 as [? [=]]; reflexivity).
  all: try (destruct H3 as [? [=]]; reflexivity).
  all: try (discriminate H2; eauto).
  all: try (discriminate H4; eauto).
Qed.

(** ** The LEDs of the studios (dispatcher) *)

Lemma Studio_name_inj (s1 s2 : Studio) : name s1 = name s2 -> s1 = s2.
Proof. destruct s1, s2. cbn. congruence. Qed.

Lemma assure_fold (f : Studio -> StudioLedStatus) (studios : list Studio)
    (leds : gmap string StudioLedStatus) (key : string) :
  foldl (fun leds s => <[name s := f s]> leds) leds studios !! key
  = match List.find (fun s => String.eqb (name s) key) studios with
    | Some s => Some (f s)
    | None => leds !! key
    end.
Proof.
  revert leds. induction studios as [|s studios IH]; intros leds; [reflexivity|].
  cbn [foldl List.find]. rewrite IH.
  destruct (List.find _ studios) as [s'|] eqn:E.
  - destruct (String.eqb (name s) key) eqn:Ek; [|reflexivity].
    apply String.eqb_eq in Ek. apply List.find_some in E as [_ E].
    apply String.eqb_eq in E. rewrite <- Ek in E. apply Studio_name_inj in E.
    subst s'. reflexivity.
  - destruct (String.eqb (name s) key) eqn:Ek.
    + apply String.eqb_eq in Ek. subst key. apply lookup_insert_eq.
    + apply String.eqb_neq in Ek. apply lookup_insert_ne. exact Ek.
Qed.

Lemma _assure_led_status_spec (d : Dispatcher) (w : world) :
  _assure_led_status (d, w)
  = (Ok tt, (set_led_status_typed
               (fun leds => foldl (fun leds s => <[name s := role_recipe d s]> leds)
                              leds (_studios d)) d, w)).
Proof.
  assert (E : forall l (leds : gmap string StudioLedStatus),
    foldl (fun (leds : gmap string StudioLedStatus) s =>
             if bool_decide (Some s = _x d)
             then <[name s := x (led_state_target (machine_state d))]> leds
             else if bool_decide (Some s = _y d)
             then <[name s := y (led_state_target (machine_state d))]> leds
             else <[name s := other (led_state_target (machine_state d))]> leds) leds l
    = foldl (fun (leds : gmap string StudioLedStatus) s =>
               <[name s := role_recipe d s]> leds) leds l).
  { induction l as [|s l IH]; intros leds; [reflexivity|].
    cbn [foldl]. rewrite IH. f_equal. unfold role_recipe.
    destruct (bool_decide (Some s = _x d)); [reflexivity|].
    destruct (bool_decide (Some s = _y d)); reflexivity. }
  unfold _assure_led_status, bind, self, read, update, modify. cbn [fst snd].
  unfold set_led_status_typed. rewrite E. reflexivity.
Qed.

(** X15.  [_assure_led_status] gives every studio of the dispatcher the
    recipe the current state has for its role: the recipe for x if the
    studio is [_x], else the recipe for y if it is [_y], else the recipe for
    the others.  It never raises and changes nothing but these LEDs. *)
Theorem every_studio_shows_its_role (d : Dispatcher) (w : world) (s : Studio) :
  s ∈ _studios d ->
  let after := _assure_led_status (d, w) in
  fst after = Ok tt /\ snd (snd after) = w /\
  led_status_typed (fst (snd after)) !! name s = Some (role_recipe d s) /\
  (forall key, (forall s', s' ∈ _studios d -> name s' <> key) ->
     led_status_typed (fst (snd after)) !! key = led_status_typed d !! key) /\
  _x (fst (snd after)) = _x d /\ _y (fst (snd after)) = _y d /\
  machine_state (fst (snd after)) = machine_state d /\
  _on_air_selector_value (fst (snd after)) = _on_air_selector_value d.
Proof.
  intros Hin after. subst after. rewrite _assure_led_status_spec. cbn [fst snd].
  split; [reflexivity|]. split; [reflexivity|].
  split; [|split; [|repeat split]].
  - cbn [led_status_typed set_led_status_typed]. rewrite assure_fold.
    destruct (List.find _ (_studios d)) as [s'|] eqn:E.
    + apply List.find_some in E as [_ E]. apply String.eqb_eq, Studio_name_inj in E.
      subst s'. reflexivity.
    + exfalso. apply list_elem_of_In in Hin.
      pose proof (List.find_none _ _ E s Hin) as N. cbn in N.
      rewrite String.eqb_refl in N. discriminate.
  - intros key Hkey. cbn [led_status_typed set_led_status_typed]. rewrite assure_fold.
    destruct (List.find _ (_studios d)) as [s'|] eqn:E; [|reflexivity].
    apply List.find_some in E as [Hin' E]. apply String.eqb_eq in E.
    exfalso. apply (Hkey s'); [apply list_elem_of_In, Hin'|exact E].
Qed.

Lemma every_studio_shows_its_role_witness :
  led_status_typed (fst (snd (_assure_led_status (releasing_dispatcher, releasing_world))))
    !! "A"
  = Some (mkStudioLedStatus LedStatuses.ON LedStatuses.BLINK LedStatuses.ON).
Proof.
  destruct (every_studio_shows_its_role releasing_dispatcher releasing_world (mkStudio "A")
              ltac:(apply list_elem_of_In; left; reflexivity)) as (_ & _ & H & _).
  exact H.
Defined.

(** ** Switching the source (dispatcher) *)

Lemma _change_to_studio_spec (d : Dispatcher) (w : world) (s : Studio) (v : Z) :
  _x d = Some s -> _studios_to_selector_value d !! name s = Some v ->
  _change_to_studio (d, w)
  = (Ok tt, (set_on_air_selector_value v d, set_tasks (fun ts => ts ++ [switch_task]) w)).
Proof.
  intros Hx Hv. unfold _change_to_studio, bind, self, read. cbn [fst snd].
  rewrite Hx, Hv. reflexivity.
Qed.

Lemma _change_to_automat_spec (d : Dispatcher) (w : world) :
  _change_to_automat (d, w)
  = (Ok tt, (set_on_air_selector_value (_automat_selector_value d) d,
             set_tasks (fun ts => ts ++ [switch_task]) w)).
Proof. reflexivity. Qed.

(** X16.  [_change_to_studio] makes the selector value of studio X the
    on-air value and schedules one [_set_current_state] task; when that
    task runs, it logs the value and sets the selector of the device to
    it: the raw value of that position is cached and [CS <number> <raw>]
    is sent, before the acknowledgement is awaited. *)
Theorem change_to_studio_reaches_the_device `{FloatArith} (d : Dispatcher) (w : world)
    (s : Studio) (v count raw : Z) (c : SymNetController) :
  _x d = Some s -> _studios_to_selector_value d !! name s = Some v ->
  controllers w !! _symnet_controller d = Some c ->
  controller_number c = _symnet_controller d ->
  class_of c = SymNetSelectorController_class count ->
  1 <= v <= count -> raw_of_position v count = Ok raw ->
  let s1 := snd (_change_to_studio (d, w)) in
  let s2 := snd (_set_current_state s1) in
  fst (_change_to_studio (d, w)) = Ok tt /\
  _on_air_selector_value (fst s1) = v /\
  tasks (snd s1) = tasks w ++ [switch_task] /\
  fst (_set_current_state s1) = Ok (Awaiting (length (futures w))) /\
  fst s2 = fst s1 /\
  sent (snd s2) = sent w ++ ["CS " +:+ pretty (_symnet_controller d) +:+ " "
                               +:+ pretty raw +:+ cr] /\
  controllers (snd s2) !! _symnet_controller d = Some (cached c raw (loop_time w)) /\
  log (snd s2) = log w ++ [LogRecord INFO "Set the controller state now to %s!" [pretty v]].
Proof.
  intros Hx Hv Hc Hn Hclass Hrange Hraw s1 s2.
  assert (E1 : _change_to_studio (d, w)
               = (Ok tt, (set_on_air_selector_value v d,
                          set_tasks (fun ts => ts ++ [switch_task]) w)))
    by (apply _change_to_studio_spec with (s := s); assumption).
  assert (Hs1 : s1 = (set_on_air_selector_value v d,
                      set_tasks (fun ts => ts ++ [switch_task]) w))
    by (unfold s1; rewrite E1; reflexivity).
  set (w1 := set_log (fun l => l ++ [LogRecord INFO "Set the controller state now to %s!"
                                       [pretty v]])
               (set_tasks (fun ts => ts ++ [switch_task]) w)).
  assert (E2 : _set_current_state s1
               = (Ok (Awaiting (length (futures w))),
                  (set_on_air_selector_value v d, after_set_position c raw w1))).
  { rewrite Hs1. unfold _set_current_state, bind, self, read, in_world, logger, modify.
    cbn [fst snd _on_air_selector_value set_on_air_selector_value _symnet_controller].
    fold w1.
    rewrite (set_position_on_selector (_symnet_controller d) v count raw c w1);
      try assumption; reflexivity. }
  assert (Hs2 : s2 = (set_on_air_selector_value v d, after_set_position c raw w1))
    by (unfold s2; rewrite E2; reflexivity).
  split; [rewrite E1; reflexivity|].
  split; [rewrite Hs1; reflexivity|].
  split; [rewrite Hs1; reflexivity|].
  split; [rewrite E2; reflexivity|].
  split; [rewrite Hs2, Hs1; reflexivity|].
  split; [rewrite Hs2; unfold after_set_position; cbn; rewrite Hn; reflexivity|].
  split; [rewrite Hs2; unfold after_set_position; cbn; rewrite Hn;
          apply lookup_insert_eq|].
  rewrite Hs2. reflexivity.
Qed.

Lemma change_to_studio_reaches_the_device_witness :
  let s1 := snd (_change_to_studio (switching_dispatcher, observed_world)) in
  let s2 := snd (_set_current_state (H := exact_arith) s1) in
  _on_air_selector_value (fst s1) = 2 /\ sent (snd s2) = ["CS 7 21845" +:+ cr].
Proof.
  destruct (change_to_studio_reaches_the_device (H := exact_arith)
              switching_dispatcher observed_world (mkStudio "A") 2 4 21845 observed_selector
              eq_refl eq_refl eq_refl eq_refl eq_refl ltac:(lia) eq_refl)
    as (_ & Hv & _ & _ & _ & Hsent & _).
  split; [exact Hv|exact Hsent].
Defined.

(** X17.  [_change_to_studio] without a studio X, or with a studio X that has
    no selector value, raises KeyError and changes nothing: the on-air
    value stays and no task is scheduled.  [_change_to_automat] never
    raises. *)
Theorem change_to_studio_needs_a_known_studio (d : Dispatcher) (w : world) :
  (_x d = None \/ exists s, _x d = Some s /\ _studios_to_selector_value d !! name s = None) ->
  _change_to_studio (d, w) = (Raise KeyError, (d, w)) /\
  fst (_change_to_automat (d, w)) = Ok tt.
Proof.
  intros H. split; [|reflexivity].
  unfold _change_to_studio, bind, self, read. cbn [fst snd].
  destruct H as [->|(s & -> & ->)]; reflexivity.
Qed.

Lemma change_to_studio_needs_a_known_studio_witness :
  _change_to_studio (set_x None switching_dispatcher, observed_world)
  = (Raise KeyError, (set_x None switching_dispatcher, observed_world)).
Proof.
  exact (proj1 (change_to_studio_needs_a_known_studio (set_x None switching_dispatcher)
                  observed_world (or_introl eq_refl))).
Defined.

(** ** Saving, loading and cleaning up (dispatcher) *)

(** X18.  [_cleanup], once the cleanup event is set, never raises: it asks
    the task of every timer to cancel and clears the three attributes,
    creates no task, keeps studios and state, and saves; a failure to write
    the file only adds one error record to the log. *)
Theorem cleanup_stops_every_timer
    (write_file : string -> string -> result unit) (json_dumps : json -> string)
    (d : Dispatcher) (w : world) (kind : timer_kind) :
  let after := _cleanup write_file json_dumps (d, w) in
  let d' := fst (snd after) in
  let w' := snd (snd after) in
  fst after = Ok tt /\
  timer_of kind d' = None /\
  (forall t c, timer_of kind d = Some t -> tasks w !! t = Some (Task c Scheduled) ->
     tasks w' !! t = Some (Task c CancelRequested)) /\
  length (tasks w') = length (tasks w) /\
  _x d' = _x d /\ _y d' = _y d /\ machine_state d' = machine_state d /\
  log w' = log w ++
    match write_file (file_path d) (json_dumps (saved_state d)) with
    | Ok _ => []
    | Raise e => [LogRecord ERROR "%s" [exn_text e]]
    end.
Proof.
  intros after d' w'. subst d' w' after.
  set (ts := cancelled (_immediate_release_timer d)
               (cancelled (_immediate_state_timer d)
                  (cancelled (_next_hour_timer d) (tasks w)))).
  assert (Hts : forall t c, timer_of kind d = Some t ->
            tasks w !! t = Some (Task c Scheduled) ->
            ts !! t = Some (Task c CancelRequested)).
  { intros t c Ht Hl. unfold ts.
    destruct kind; cbn [timer_of] in Ht; rewrite Ht.
    - apply cancelled_keeps_request, cancelled_keeps_request.
      apply (cancelled_scheduled None (tasks w) t c). left. exact Hl.
    - apply cancelled_keeps_request.
      apply (cancelled_scheduled None (cancelled _ (tasks w)) t c).
      apply (cancelled_scheduled (_next_hour_timer d) (tasks w) t c). left. exact Hl.
    - apply (cancelled_scheduled None (cancelled _ (cancelled _ (tasks w))) t c).
      apply (cancelled_scheduled (_immediate_state_timer d) (cancelled _ (tasks w)) t c).
      apply (cancelled_scheduled (_next_hour_timer d) (tasks w) t c). left. exact Hl. }
  assert (Hlen : length ts = length (tasks w))
    by (unfold ts; rewrite !cancelled_length; reflexivity).
  assert (E : _cleanup write_file json_dumps (d, w)
              = (Ok tt,
                 (set_immediate_release_timer None
                    (set_immediate_state_timer None (set_next_hour_timer None d)),
                  set_log (fun l => l ++
                             match write_file (file_path d) (json_dumps (saved_state d)) with
                             | Ok _ => []
                             | Raise e => [LogRecord ERROR "%s" [exn_text e]]
                             end)
                    (set_tasks (fun _ => ts) w)))).
  { unfold _cleanup. unfold bind at 1. rewrite _stop_next_hour_timer_spec.
    unfold bind at 1. rewrite _stop_immediate_state_timer_spec.
    unfold bind at 1. rewrite _stop_immediate_release_timer_spec.
    unfold save, bind, self, read, try_except, lift, in_world, logger, modify.
    cbn [fst snd].
    change (saved_state (set_immediate_release_timer None
              (set_immediate_state_timer None (set_next_hour_timer None d))))
      with (saved_state d).
    change (file_path (set_immediate_release_timer None
              (set_immediate_state_timer None (set_next_hour_timer None d))))
      with (file_path d).
    destruct (write_file (file_path d) (json_dumps (saved_state d))) as [[]|e].
    - destruct w. unfold set_log, set_tasks. cbn. rewrite app_nil_r. reflexivity.
    - reflexivity. }
  rewrite E. cbn [fst snd tasks log set_tasks set_log].
  split; [reflexivity|]. split; [destruct kind; reflexivity|].
  split; [exact Hts|]. split; [exact Hlen|].
  repeat (split; [reflexivity|]). reflexivity.
Qed.

(** What [load] reads back from the dict [save] dumped. *)
Lemma _save_state_saved_state (d0 : Dispatcher) :
  _save_state (saved_state d0)
  = Ok (studio_json (_x d0), studio_json (_y d0), JString (state_name (machine_state d0))).
Proof. reflexivity. Qed.

(** X19.  [load] on a file that holds what [save] dumped for a dispatcher
    [d0] whose studios are known by name: studio X is restored if it was
    set, and studio Y only together with X; the source is switched to the
    automat for the two automat_on_air states and to studio X for the four
    studio_X_on_air states, each time scheduling one [_set_current_state]
    task, and for the other four states (the three from_..._change_to_...
    states and noop) the on-air selector value is left as it is and nothing
    is scheduled; then the machine is triggered with to_<state>.  Timers,
    machine state and log are untouched up to that trigger. *)
Theorem load_restores_saved_state
    (machine_trigger : string -> option ButtonEvent -> D unit)
    (Studio_names : gmap string Studio)
    (open_file : string -> result string) (json_loads : string -> result json)
    (d d0 : Dispatcher) (w : world) (text : string) :
  open_file (file_path d) = Ok text -> json_loads text = Ok (saved_state d0) ->
  (forall s, _x d0 = Some s ->
     nonempty (name s) = true /\ Studio_names !! name s = Some s /\
     is_Some (_studios_to_selector_value d !! name s)) ->
  (forall s, _y d0 = Some s ->
     nonempty (name s) = true /\ Studio_names !! name s = Some s) ->
  (str_in "X" (state_name (machine_state d0)) = true -> is_Some (_x d0)) ->
  exists d1 w1,
    load_body machine_trigger Studio_names open_file json_loads (d, w)
    = machine_trigger ("to_" +:+ state_name (machine_state d0)) None (d1, w1) /\
    _x d1 = (if _x d0 is Some _ then _x d0 else _x d) /\
    _y d1 = (match _x d0, _y d0 with Some _, Some _ => _y d0 | _, _ => _y d end) /\
    (forall kind, timer_of kind d1 = timer_of kind d) /\
    machine_state d1 = machine_state d /\ log w1 = log w /\
    match machine_state d0 with
    | AUTOMAT_ON_AIR | AUTOMAT_ON_AIR_IMMEDIATE_STATE_X =>
        _on_air_selector_value d1 = _automat_selector_value d /\
        tasks w1 = tasks w ++ [switch_task]
    | STUDIO_X_ON_AIR | STUDIO_X_ON_AIR_IMMEDIATE_STATE
    | STUDIO_X_ON_AIR_IMMEDIATE_RELEASE | STUDIO_X_ON_AIR_STUDIO_Y_TAKEOVER_REQUEST =>
        (exists s, _x d0 = Some s /\
           _studios_to_selector_value d !! name s = Some (_on_air_selector_value d1)) /\
        tasks w1 = tasks w ++ [switch_task]
    | _ => _on_air_selector_value d1 = _on_air_selector_value d /\ tasks w1 = tasks w
    end.
Proof.
  intros Ho Hj Hx Hy Hc.
  (* the studios *)
  set (dx := match _x d0 with Some s => set_x (Some s) d | None => d end).
  set (dy := match _x d0, _y d0 with Some _, Some s => set_y (Some s) dx | _, _ => dx end).
  assert (Erestore :
    (if truthy (studio_json (_x d0)) then
       studio_x <- lift (Studio_names_getitem Studio_names (studio_json (_x d0))) ;;
       update (set_x (Some studio_x)) ;;;
       if truthy (studio_json (_y d0)) then
         studio_y <- lift (Studio_names_getitem Studio_names (studio_json (_y d0))) ;;
         update (set_y (Some studio_y))
       else ret tt
     else ret tt) (d, w) = (Ok tt, (dy, w))).
  { unfold dy, dx. destruct (_x d0) as [sx|]; [|reflexivity].
    destruct (Hx sx eq_refl) as (Hnx & Hkx & _).
    cbn [studio_json truthy]. rewrite Hnx. unfold bind, lift.
    cbn [Studio_names_getitem]. rewrite Hkx. unfold update, modify. cbn [fst snd].
    destruct (_y d0) as [sy|]; [|reflexivity].
    destruct (Hy sy eq_refl) as (Hny & Hky).
    cbn [studio_json truthy]. rewrite Hny. cbn [Studio_names_getitem]. rewrite Hky.
    reflexivity. }
  assert (Fx : _x dy = (if _x d0 is Some _ then _x d0 else _x d)).
  { unfold dy, dx. destruct (_x d0), (_y d0); reflexivity. }
  assert (Fy : _y dy = (match _x d0, _y d0 with Some _, Some _ => _y d0 | _, _ => _y d end)).
  { unfold dy, dx. destruct (_x d0), (_y d0); reflexivity. }
  assert (Ft : forall kind, timer_of kind dy = timer_of kind d).
  { intros kind. unfold dy, dx. destruct (_x d0), (_y d0), kind; reflexivity. }
  assert (Fm : machine_state dy = machine_state d /\
               _on_air_selector_value dy = _on_air_selector_value d /\
               _automat_selector_value dy = _automat_selector_value d /\
               _studios_to_selector_value dy = _studios_to_selector_value d).
  { unfold dy, dx. destruct (_x d0), (_y d0); repeat split. }
  destruct Fm as (Fm & Fo & Fa & Fv).
  (* the body up to the switch *)
  assert (Ebody : forall switch : D unit,
    load_body machine_trigger Studio_names open_file json_loads (d, w)
    = (state <- ret (studio_json (_x d0), studio_json (_y d0),
                     JString (state_name (machine_state d0))) ;;
       let '(state_x, state_y, state_state) := state in
       (if truthy state_x then
          studio_x <- lift (Studio_names_getitem Studio_names state_x) ;;
          update (set_x (Some studio_x)) ;;;
          if truthy state_y then
            studio_y <- lift (Studio_names_getitem Studio_names state_y) ;;
            update (set_y (Some studio_y))
          else ret tt
        else ret tt) ;;;
       automat <- lift (json_contains "automat_on_air" state_state) ;;
       (if automat : bool then _change_to_automat
        else
          on_air <- lift (json_contains "studio_X_on_air" state_state) ;;
          if on_air : bool then _change_to_studio else ret tt) ;;;
       match state_state with
       | JString state_name => machine_trigger ("to_" +:+ state_name) None
       | _ => raise TypeError
       end) (d, w)).
  { intros _. unfold load_body. unfold bind at 1. unfold self at 1, read at 1. cbn [fst].
    unfold bind at 1. rewrite Ho. unfold lift at 1.
    unfold bind at 1. rewrite Hj. unfold lift at 1.
    unfold bind at 1. rewrite _save_state_saved_state. unfold lift at 1.
    reflexivity. }
  rewrite (Ebody (ret tt)). clear Ebody.
  unfold bind at 1. unfold ret at 1. cbv beta iota.
  unfold bind at 1. unfold D in Erestore. rewrite Erestore.
  unfold bind at 1. unfold lift at 1. cbn [json_contains].
  destruct (machine_state d0) eqn:Hs; cbn [state_name] in *;
    repeat match goal with
           | |- context [str_in ?a ?b] =>
               let v := eval vm_compute in (str_in a b) in change (str_in a b) with v
           end;
    cbv beta iota.
  (* the two automat_on_air states *)
  1, 2: unfold bind at 1; rewrite _change_to_automat_spec;
    eexists; eexists; (split; [reflexivity|]);
    cbn [_x _y machine_state set_on_air_selector_value _on_air_selector_value
         log tasks set_tasks];
    (split; [exact Fx|]); (split; [exact Fy|]);
    (split; [intros kind; rewrite <- Ft; destruct kind; reflexivity|]);
    (split; [exact Fm|]); (split; [reflexivity|]);
    (split; [exact Fa|reflexivity]).
  (* the four studio_X_on_air states *)
  2, 4, 5, 7: destruct (Hc eq_refl) as [s Hs0];
    destruct (Hx s Hs0) as (_ & _ & [v Hv]);
    unfold bind at 1; unfold bind at 1; unfold lift at 1; cbv beta iota;
    rewrite (_change_to_studio_spec dy w s v)
      by (rewrite ?Fx, ?Fv, ?Hs0; assumption || reflexivity);
    eexists; eexists; (split; [reflexivity|]);
    cbn [_x _y machine_state set_on_air_selector_value _on_air_selector_value
         log tasks set_tasks];
    (split; [exact Fx|]); (split; [exact Fy|]);
    (split; [intros kind; rewrite <- Ft; destruct kind; reflexivity|]);
    (split; [exact Fm|]); (split; [reflexivity|]);
    (split; [exists s; split; assumption|reflexivity]).
  (* the states that switch nothing *)
  all: unfold bind at 1; unfold bind at 1; unfold lift at 1; cbv beta iota;
    exists dy, w; (split; [reflexivity|]);
    (split; [exact Fx|]); (split; [exact Fy|]); (split; [exact Ft|]);
    (split; [exact Fm|]); (split; [reflexivity|]);
    (split; [exact Fo|reflexivity]).
Qed.

Lemma load_restores_saved_state_witness :
  exists d1 w1,
    load_body (fun _ _ => ret tt) {[ "A" := mkStudio "A" ]}
      (fun _ => Ok "saved") (fun _ => Ok (saved_state releasing_dispatcher))
      (switching_dispatcher, observed_world)
    = (Ok tt, (d1, w1)) /\
    _x d1 = Some (mkStudio "A") /\ _on_air_selector_value d1 = 2 /\
    tasks w1 = [switch_task].
Proof.
  destruct (load_restores_saved_state (fun _ _ => ret tt) {[ "A" := mkStudio "A" ]}
              (fun _ => Ok "saved") (fun _ => Ok (saved_state releasing_dispatcher))
              switching_dispatcher releasing_dispatcher observed_world "saved"
              eq_refl eq_refl)
    as (d1 & w1 & E & Hx1 & _ & _ & _ & _ & [(s & Hs & Hv) Ht]).
  - intros s [= <-]. repeat split. eexists. reflexivity.
  - intros s [=].
  - intros _. eexists. reflexivity.
  - exists d1, w1. split; [exact E|]. split; [exact Hx1|]. split; [|exact Ht].
    injection Hs as <-. cbn in Hv. injection Hv as <-. reflexivity.
Defined.


(** ** When a timer fires (dispatcher) *)

(** X20.  When one of the three timer coroutines has slept and fires, the
    attribute of that timer is None afterwards whatever the trigger did:
    also when the machine raised, and also when the callbacks of the
    transition left or put a task in the attribute.  A MachineError of the
    trigger never leaves the coroutine: the coroutine ends normally, and
    the log is the one the trigger left with one more record, the
    MachineError at critical level.  Any other exception leaves the
    coroutine with nothing logged after the trigger, and so does a trigger
    that returns. *)
Theorem fired_timer_clears_its_attribute
    (machine_trigger : string -> option ButtonEvent -> D unit) (strftime : string)
    (kind : timer_kind) (s : Dispatcher * world) :
  let after := timer_fires machine_trigger strftime kind s in
  let triggered := machine_trigger (timeout_trigger kind) None (at_trigger strftime kind s) in
  timer_of kind (fst (snd after)) = None /\ fst after <> Raise MachineError /\
  (fst triggered = Raise MachineError ->
   fst after = Ok tt /\
   log (snd (snd after))
   = log (snd (snd triggered)) ++ [LogRecord CRITICAL "%s" ["MachineError"]]) /\
  (forall e, fst triggered = Raise e -> e <> MachineError ->
   fst after = Raise e /\ log (snd (snd after)) = log (snd (snd triggered))) /\
  (fst triggered = Ok tt ->
   fst after = Ok tt /\ log (snd (snd after)) = log (snd (snd triggered))).
Proof.
  assert (Hle : forall s1, exists d', _assure_led_status s1 = (Ok tt, (d', snd s1))).
  { intros [d1 w1]. rewrite _assure_led_status_spec. eexists. reflexivity. }
  intros after triggered.
  destruct kind; cbn [timer_fires timer_of timeout_trigger at_trigger] in *.
  - set (s0 := snd (in_world (logger INFO "hourly event %s" [strftime]) s)) in *.
    assert (E : after
                = match triggered with
                  | (Ok _, s1) =>
                      (Ok tt, (set_next_hour_timer None (fst (snd (_assure_led_status s1))),
                               snd s1))
                  | (Raise MachineError, s1) =>
                      let s2 := snd (in_world (logger CRITICAL "%s" ["MachineError"]) s1) in
                      (Ok tt, (set_next_hour_timer None (fst (snd (_assure_led_status s2))),
                               snd s2))
                  | (Raise e, s1) => (Raise e, (set_next_hour_timer None (fst s1), snd s1))
                  end).
    { unfold after, hour_timer_fires, try_finally, update, modify.
      unfold bind at 1. change (in_world (logger INFO "hourly event %s" [strftime]) s)
        with (Ok tt, s0).
      unfold bind at 1. unfold try_except. fold triggered.
      destruct triggered as [[[]|e] s1].
      - destruct (Hle s1) as [d' ->]. reflexivity.
      - destruct e; reflexivity. }
    rewrite E. clear E. destruct triggered as [[[]|e] s1]; cbn [fst snd].
    + repeat split; try discriminate; intros; congruence.
    + destruct e; cbn [fst snd]; repeat split; try discriminate; try congruence;
        try (intros e' He'; injection He' as <-; intros; split; reflexivity).
  - assert (E : after
                = match triggered with
                  | (Ok _, s1) => (Ok tt, (set_immediate_state_timer None (fst s1), snd s1))
                  | (Raise MachineError, s1) =>
                      let s2 := snd (in_world (logger CRITICAL "%s" ["MachineError"]) s1) in
                      (Ok tt, (set_immediate_state_timer None (fst s2), snd s2))
                  | (Raise e, s1) =>
                      (Raise e, (set_immediate_state_timer None (fst s1), snd s1))
                  end).
    { unfold after, immediate_state_timer_fires, try_finally, update, modify, try_except.
      fold triggered. destruct triggered as [[[]|e] s1]; [reflexivity|].
      destruct e; reflexivity. }
    rewrite E. clear E. destruct triggered as [[[]|e] s1]; cbn [fst snd].
    + repeat split; try discriminate; intros; congruence.
    + destruct e; cbn [fst snd]; repeat split; try discriminate; try congruence;
        try (intros e' He'; injection He' as <-; intros; split; reflexivity).
  - assert (E : after
                = match triggered with
                  | (Ok _, s1) => (Ok tt, (set_immediate_release_timer None (fst s1), snd s1))
                  | (Raise MachineError, s1) =>
                      let s2 := snd (in_world (logger CRITICAL "%s" ["MachineError"]) s1) in
                      (Ok tt, (set_immediate_release_timer None (fst s2), snd s2))
                  | (Raise e, s1) =>
                      (Raise e, (set_immediate_release_timer None (fst s1), snd s1))
                  end).
    { unfold after, immediate_release_timer_fires, try_finally, update, modify, try_except.
      fold triggered. destruct triggered as [[[]|e] s1]; [reflexivity|].
      destruct e; reflexivity. }
    rewrite E. clear E. destruct triggered as [[[]|e] s1]; cbn [fst snd].
    + repeat split; try discriminate; intros; congruence.
    + destruct e; cbn [fst snd]; repeat split; try discriminate; try congruence;
        try (intros e' He'; injection He' as <-; intros; split; reflexivity).
Qed.

Lemma fired_timer_clears_its_attribute_witness :
  let after := timer_fires refusing_machine "2019-01-01T13:00:00+0100" Next_hour
                 (waiting_dispatcher, hour_timer_world) in
  fst after = Ok tt /\
  log (snd (snd after))
  = [LogRecord INFO "hourly event %s" ["2019-01-01T13:00:00+0100"];
     LogRecord CRITICAL "%s" ["MachineError"]].
Proof.
  exact (proj1 (proj2 (proj2
           (fired_timer_clears_its_attribute refusing_machine "2019-01-01T13:00:00+0100"
              Next_hour (waiting_dispatcher, hour_timer_world)))) eq_refl).
Defined.

(** ** The dummy selector (SymNet.py) *)

(** X21.  A dummy selector never uses the network: [set_position] caches the
    raw value, schedules the observers and returns without waiting, sending
    nothing and queueing no request; [get_position] is answered from the
    cache however old the value is, and changes nothing. *)
Theorem dummy_selector_stays_local `{FloatArith} (cn position count raw : Z)
    (c : SymNetController) (w : world) :
  controllers w !! cn = Some c -> controller_number c = cn ->
  class_of c = SymNetSelectorControllerDummy_class count ->
  1 <= position <= count -> raw_of_position position count = Ok raw ->
  let w1 := snd (set_position cn position w) in
  fst (set_position cn position w) = Ok (Returned tt) /\
  sent w1 = sent w /\ futures w1 = futures w /\ callback_queue w1 = callback_queue w /\
  controllers w1 !! cn = Some (cached c raw (loop_time w)) /\
  tasks w1 = tasks w ++ notifications c raw /\
  forall later : Q,
    let w2 := World later (tasks w1) (futures w1) (log w1) (callback_queue w1)
                (state_queue w1) (sent w1) (controllers w1) in
    get_position cn w2 = (Ok (Returned (position_of_raw raw count)), w2).
Proof.
  intros Hc Hn Hclass Hp Hraw w1.
  assert (E : set_position cn position w
              = (Ok (Returned tt),
                 set_tasks (fun ts => ts ++ notifications c raw)
                   (set_controllers <[cn := cached c raw (loop_time w)]> w)))
    by (apply set_position_on_dummy with (count := count); assumption).
  assert (Hw1 : w1 = set_tasks (fun ts => ts ++ notifications c raw)
                       (set_controllers <[cn := cached c raw (loop_time w)]> w))
    by (unfold w1; rewrite E; reflexivity).
  assert (Hc1 : controllers w1 !! cn = Some (cached c raw (loop_time w)))
    by (rewrite Hw1; cbn; apply lookup_insert_eq).
  split; [rewrite E; reflexivity|].
  split; [rewrite Hw1; reflexivity|]. split; [rewrite Hw1; reflexivity|].
  split; [rewrite Hw1; reflexivity|]. split; [exact Hc1|].
  split; [rewrite Hw1; reflexivity|].
  intros later w2.
  rewrite (get_position_from_cache cn count (cached c raw (loop_time w)) w2).
  - reflexivity.
  - exact Hc1.
  - left. exact Hclass.
Qed.

Lemma dummy_selector_stays_local_witness :
  fst (set_position (H := exact_arith) 7 2 dummy_world) = Ok (Returned tt) /\
  sent (snd (set_position (H := exact_arith) 7 2 dummy_world)) = [].
Proof.
  destruct (dummy_selector_stays_local (H := exact_arith) 7 2 3 32768 dummy_selector
              dummy_world eq_refl eq_refl eq_refl ltac:(lia) eq_refl)
    as (Hr & Hs & _).
  split; [exact Hr|exact Hs].
Defined.

(** ** A turn of the button loop (dispatcher) *)

Lemma _audit_state_keeps_dispatcher (s : Dispatcher * world) :
  fst (_audit_state s) = Ok tt /\ fst (snd (_audit_state s)) = fst s.
Proof.
  destruct s as [d w].
  unfold _audit_state, bind, self, read, in_world, logger, modify, ret. cbn [fst snd].
  destruct (str_in "X" (state_name (machine_state d))),
    (str_in "Y" (state_name (machine_state d))), (_x d), (_y d); split; reflexivity.
Qed.

Lemma assured_studio (d : Dispatcher) (w : world) (s : Studio) :
  let d' := fst (snd (_assure_led_status (d, w))) in
  s ∈ _studios d' -> led_status_typed d' !! name s = Some (role_recipe d' s).
Proof.
  rewrite _assure_led_status_spec. cbn [fst snd]. intros Hin.
  change (_studios (set_led_status_typed _ d)) with (_studios d) in Hin.
  cbn [led_status_typed set_led_status_typed]. rewrite assure_fold.
  destruct (List.find _ (_studios d)) as [s'|] eqn:E.
  - apply List.find_some in E as [_ E]. apply String.eqb_eq, Studio_name_inj in E.
    subst s'. reflexivity.
  - exfalso. apply list_elem_of_In in Hin.
    pose proof (List.find_none _ _ E s Hin) as N. cbn in N.
    rewrite String.eqb_refl in N. discriminate.
Qed.

Lemma _process_studio_button_events_spec
    (machine_trigger : string -> option ButtonEvent -> D unit)
    (event : ButtonEvent) (d : Dispatcher) (w : world) :
  _process_studio_button_events machine_trigger event (d, w)
  = match append_of d event with
    | None => (_audit_state ;;; _assure_led_status) (d, w)
    | Some suffix =>
        match machine_trigger (Button_name (button event) +:+ suffix) (Some event) (d, w) with
        | (Ok _, s1) => (_audit_state ;;; _assure_led_status) s1
        | (Raise e, s1) =>
            match except_MachineError e s1 with
            | (Ok _, s2) => (_audit_state ;;; _assure_led_status) s2
            | (Raise e', s2) => (Raise e', s2)
            end
        end
    end.
Proof.
  unfold _process_studio_button_events. unfold bind at 1. unfold self at 1, read at 1.
  cbn [fst]. unfold bind at 1.
  destruct (append_of d event) as [suffix|]; [|reflexivity].
  unfold try_except.
  destruct (machine_trigger (Button_name (button event) +:+ suffix) (Some event) (d, w))
    as [[[]|e] s1]; [reflexivity|].
  destruct (except_MachineError e s1) as [[[]|e'] s2]; reflexivity.
Qed.

(** The audit and the LED update only add critical records to the log. *)
Lemma audit_and_leds_log (s1 : Dispatcher * world) :
  exists records,
    log (snd (snd ((_audit_state ;;; _assure_led_status) s1))) = log (snd s1) ++ records /\
    Forall (fun r => levelname r = CRITICAL) records.
Proof.
  destruct s1 as [d w].
  exists ((if str_in "X" (state_name (machine_state d))
           then if _x d is None
                then [LogRecord CRITICAL "X in state and self._X is None" []] else []
           else if _x d is None then []
                else [LogRecord CRITICAL "X not in state and self._X is not None" []])
          ++
          (if str_in "Y" (state_name (machine_state d))
           then if _y d is None
                then [LogRecord CRITICAL "Y in state and self._Y is None" []] else []
           else if _y d is None then []
                else [LogRecord CRITICAL "Y not in state and self._Y is not None" []])).
  unfold bind at 1.
  unfold _audit_state, bind, self, read, in_world, logger, modify, ret.
  cbn [fst snd].
  destruct (str_in "X" (state_name (machine_state d))),
    (str_in "Y" (state_name (machine_state d))), (_x d) as [sx|], (_y d) as [sy|].
  all: rewrite _assure_led_status_spec; cbn [fst snd log set_log app].
  all: split; [rewrite ?app_nil_r, <- ?app_assoc; reflexivity|repeat constructor].
Qed.

(** X22.  One turn of [_process_studio_button_events] raises only what the
    trigger raises other than MachineError: an event that maps to no
    trigger, a trigger that returns and a trigger that raises MachineError
    all end the turn normally.  A turn that ends normally has audited the
    state and leaves every studio with the LED recipe of its role in the
    state the machine is then in.  The MachineError is logged at INFO: the
    log after the turn is the one the trigger left, then that record, then
    what the audit logs, which is all critical. *)
Theorem button_turn_survives_MachineError
    (machine_trigger : string -> option ButtonEvent -> D unit)
    (event : ButtonEvent) (d : Dispatcher) (w : world) :
  let turn := _process_studio_button_events machine_trigger event (d, w) in
  fst turn
  = match append_of d event with
    | None => Ok tt
    | Some suffix =>
        match fst (machine_trigger (Button_name (button event) +:+ suffix) (Some event)
                     (d, w)) with
        | Ok _ => Ok tt
        | Raise e => if bool_decide (e = MachineError) then Ok tt else Raise e
        end
    end /\
  (fst turn = Ok tt ->
   forall s, s ∈ _studios (fst (snd turn)) ->
     led_status_typed (fst (snd turn)) !! name s = Some (role_recipe (fst (snd turn)) s)) /\
  (forall suffix s1,
     append_of d event = Some suffix ->
     machine_trigger (Button_name (button event) +:+ suffix) (Some event) (d, w)
     = (Raise MachineError, s1) ->
     exists records,
       log (snd (snd turn))
       = log (snd s1) ++ LogRecord INFO "%s" ["MachineError"] :: records /\
       Forall (fun r => levelname r = CRITICAL) records).
Proof.
  intros turn. subst turn.
  assert (Hrest : forall s1,
            fst ((_audit_state ;;; _assure_led_status) s1) = Ok tt /\
            forall s, s ∈ _studios (fst (snd ((_audit_state ;;; _assure_led_status) s1))) ->
              led_status_typed (fst (snd ((_audit_state ;;; _assure_led_status) s1))) !! name s
              = Some (role_recipe (fst (snd ((_audit_state ;;; _assure_led_status) s1))) s)).
  { intros s1. unfold bind. destruct (_audit_state_keeps_dispatcher s1) as [Hok _].
    destruct (_audit_state s1) as [[[]|e] [d2 w2]]; [|discriminate Hok].
    split; [rewrite _assure_led_status_spec; reflexivity|].
    intros s. apply assured_studio. }
  rewrite _process_studio_button_events_spec.
  destruct (append_of d event) as [suffix|].
  - destruct (machine_trigger (Button_name (button event) +:+ suffix) (Some event) (d, w))
      as [[[]|e] s1] eqn:T; cbn [fst].
    + destruct (Hrest s1) as [Hok Hleds]. split; [exact Hok|].
      split; [intros _; exact Hleds|]. intros suffix' s1' [= <-] Ht.
      rewrite T in Ht. discriminate Ht.
    + destruct e; cbn [except_MachineError raise];
        try (split; [reflexivity|split; [intros [=]|
             intros suffix' s1' [= <-] Ht; rewrite T in Ht; discriminate Ht]]).
      unfold in_world, logger, modify. cbn [fst snd].
      match goal with |- context [(_audit_state ;;; _assure_led_status) ?s2] =>
        destruct (Hrest s2) as [Hok Hleds];
        destruct (audit_and_leds_log s2) as (records & Hlog & Hcrit) end.
      split; [exact Hok|]. split; [intros _; exact Hleds|].
      intros suffix' s1' [= <-] Ht. rewrite T in Ht. injection Ht as <-.
      exists records. split; [|exact Hcrit].
      rewrite Hlog. cbn [snd log set_log]. rewrite <- app_assoc. reflexivity.
  - destruct (Hrest (d, w)) as [Hok Hleds]. split; [exact Hok|].
    split; [intros _; exact Hleds|]. intros suffix' s1' [=].
Qed.

Lemma button_turn_survives_MachineError_witness :
  exists records,
    log (snd (snd (_process_studio_button_events refusing_machine
                     (mkButtonEvent (mkStudio "A") TAKEOVER)
                     (switching_dispatcher, hour_timer_world))))
    = log hour_timer_world ++ LogRecord INFO "%s" ["MachineError"] :: records /\
    Forall (fun r => levelname r = CRITICAL) records.
Proof.
  exact (proj2 (proj2
           (button_turn_survives_MachineError refusing_machine
              (mkButtonEvent (mkStudio "A") TAKEOVER) switching_dispatcher hour_timer_world))
           "_X" (switching_dispatcher, hour_timer_world) eq_refl eq_refl).
Defined.

(** ** A stray acknowledgement (SymNet.py) *)

(** X23.  A datagram that is nothing but ACK and that no pending callback
    accepts (in particular with no request pending) is ignored: nothing is
    logged, pushed, resolved or removed. *)
Theorem stray_ACK_is_ignored (data_str : string) (w : world) :
  nonempty_lines data_str = ["ACK"] ->
  forallb (declines data_str ["ACK"]) (callback_queue w) = true ->
  datagram_received data_str w = (Ok tt, w).
Proof.
  intros Hlines Hall. unfold datagram_received. cbv zeta. rewrite Hlines.
  unfold bind at 1. unfold read at 1. cbv beta iota. unfold bind at 1.
  destruct (bool_decide (0 < length (callback_queue w))%nat).
  - rewrite iterate_callbacks_declined; [reflexivity|reflexivity|exact Hall].
  - reflexivity.
Qed.

Lemma stray_ACK_is_ignored_witness :
  datagram_received ("ACK" +:+ cr) waiting_world = (Ok tt, waiting_world).
Proof.
  exact (stray_ACK_is_ignored ("ACK" +:+ cr) waiting_world eq_refl eq_refl).
Defined.

(** ** A negative acknowledgement with a match object (SymNet.py) *)

(** In a match of ['^(ACK)|(NAK)\r$'] group 1 is ACK or did not take part:
    the NAK alternative fills group 2. *)
Lemma assure_regex_groups (data_str : string) (m : Match) :
  re_match assure_regex data_str = Some m ->
  m = [(1%nat, "ACK")] \/ m = [(2%nat, "NAK")].
Proof.
  unfold re_match, assure_regex. cbn [run Str].
  repeat split_subject.
  all: try discriminate.
  all: cbn [take_str String.length Nat.sub]; intros [= <-].
  all: repeat match goal with
              | |- context [(S (S (S ?n)) - ?n)%nat] =>
                  replace (S (S (S n)) - n)%nat with 3%nat by lia
              end.
  all: cbn [take_str]; auto.
Qed.

(** X24.  [_assure_callback] tests group 1 of the match for NAK, but a match
    of the NAK alternative of ['^(ACK)|(NAK)\r$'] fills group 2: with a
    match object the callback never raises.  So a NAK that reaches the
    callback through the pattern, as in the datagram NAK, carriage return,
    newline (two non-empty lines, hence not the lone NAK), resolves the
    pending CS request as if it had been acknowledged. *)
Theorem matched_NAK_counts_as_acknowledged (cn expected : Z) (fut : nat)
    (post : list SymNetRawProtocolCallback) (w : world) :
  callback_queue w = Callback (assure_callback_of cn) expected (Some assure_regex) fut :: post ->
  futures w !! fut = Some PENDING ->
  (forall data_str m w', re_match assure_regex data_str = Some m ->
     _assure_callback cn data_str (Some m) w' = (Ok tt, w')) /\
  datagram_received ("NAK" +:+ cr +:+ String LF EmptyString) w
  = (Ok tt, set_callback_queue (fun _ => post)
              (set_futures <[fut := FINISHED (Ok tt)]> w)).
Proof.
  intros Hq Hp.
  assert (Hcb : forall data_str m w', re_match assure_regex data_str = Some m ->
            _assure_callback cn data_str (Some m) w' = (Ok tt, w')).
  { intros data_str m w' Hm. apply assure_regex_groups in Hm as [-> | ->]; reflexivity. }
  split; [exact Hcb|].
  apply datagram_received_taken.
  set (callback_obj := Callback (assure_callback_of cn) expected (Some assure_regex) fut).
  rewrite (iterate_callbacks_first_willing _ [] post callback_obj w);
    try assumption; try reflexivity.
Qed.

Lemma matched_NAK_counts_as_acknowledged_witness :
  datagram_received ("NAK" +:+ cr +:+ String LF EmptyString)
    (World 0 [] [PENDING] [] [Callback (assure_callback_of 7) 1 (Some assure_regex) 0] []
       ["CS 7 0" +:+ cr] ∅)
  = (Ok tt, World 0 [] [FINISHED (Ok tt)] [] [] [] ["CS 7 0" +:+ cr] ∅).
Proof.
  exact (proj2 (matched_NAK_counts_as_acknowledged 7 1 0 []
                  (World 0 [] [PENDING] [] [Callback (assure_callback_of 7) 1
                                               (Some assure_regex) 0] []
                     ["CS 7 0" +:+ cr] ∅)
                  eq_refl eq_refl)).
Defined.
